(** * RSS generator for the CSIS analysis listing: model and verified properties

    Shallow embedding of [src/rss_generator.py].

    Conventions of the model.
    - A Python [str] is a Rocq [string] holding its UTF-8 bytes; every
      ASCII character is one byte and is itself, and the operations that
      work on characters (a regular expression's [\d], [int], slicing,
      the characters XML admits) find them through [Utf8].  Strings with
      lone surrogates, which have no UTF-8 form, are left out.
    - A Python exception is the [Raised] outcome of the [res] type; a
      [try: ... except Exception:] block is [try_except].
    - [datetime.now(timezone.utc)] is a reading of a wall clock that is
      passed in explicitly.
    - The parsed page ([BeautifulSoup(html, "html.parser")]) is a tree of
      [node]s; the HTML tokenizer, [urljoin] and [fetch_html]'s transport
      are parameters.  The tokenizer may raise (it rejects some markup),
      and so may [urljoin].
    - The library calls the program makes ([select], [get_text],
      [strptime], [strftime], [ET.tostring]) are modelled after
      BeautifulSoup 4 (4.10 and later) with soupsieve and CPython 3.11
      (Unicode 14.0) in the C locale on Linux.
    - Writing [OUTPUT_FILE] is taken to succeed: the model records the
      bytes written.

    Part I holds the definitions, Part II the lemmas and theorems. *)

From stdpp Require Import base gmap sets list strings.
From Stdlib Require Import ZArith Lia Ascii.

(** ** Outcomes of code that may raise *)

Inductive res (A : Type) : Type :=
| Ok (a : A)
| Raised.
Arguments Ok {A} a.
Arguments Raised {A}.

#[global] Instance res_ret : MRet res := fun A a => Ok a.
#[global] Instance res_bind : MBind res := fun A B k m =>
  match m with
  | Ok a => k a
  | Raised => Raised
  end.

(** [try: body  except Exception: handler] *)
Definition try_except {A} (body handler : res A) : res A :=
  match body with
  | Ok a => Ok a
  | Raised => handler
  end.

(** ** Module constants *)

Definition BASE_URL : string := "https://www.csis.org".
Definition START_URL : string := "https://www.csis.org/analysis".
Definition OUTPUT_FILE : string := "rss.xml".
Definition MAX_ITEMS : nat := 40.

(** ** Extracted records: the dict appended to [results] *)

Record entry : Type := Entry {
  title : string;
  link : string;
  summary : string;
  pubdate_raw : option string
}.

(** ** Deduplicator / limiter: the last loop of [parse_articles]

    State of the loop: the set [seen] and the list [dedup].  The result
    pairs the final [dedup] with the part of [results] that the loop never
    reached (non-empty only after [break]). *)

Fixpoint dedup_loop (max_count : nat) (seen : gset string) (dedup : list entry)
    (results : list entry) : list entry * list entry :=
  match results with
  | [] => (dedup, [])
  | it :: rest =>
      if decide (link it ∈ seen) then dedup_loop max_count seen dedup rest
      else
        let seen' := seen ∪ {[ link it ]} in
        let dedup' := dedup ++ [it] in
        if decide (max_count ≤ length dedup') then (dedup', rest)
        else dedup_loop max_count seen' dedup' rest
  end.

Definition dedupe_and_limit (max_count : nat) (results : list entry) : list entry :=
  (dedup_loop max_count ∅ [] results).1.

Definition dedupe_unscanned (max_count : nat) (results : list entry) : list entry :=
  (dedup_loop max_count ∅ [] results).2.

(** Reference reading of the policy, following the words of the
    specification: a record is kept when its link does not occur earlier
    in the input. *)
Fixpoint first_occurrences_from (earlier : list string) (l : list entry) : list entry :=
  match l with
  | [] => []
  | r :: rest =>
      if decide (link r ∈ earlier) then first_occurrences_from earlier rest
      else r :: first_occurrences_from (link r :: earlier) rest
  end.

Definition first_occurrences (l : list entry) : list entry :=
  first_occurrences_from [] l.

(** Number of distinct links of a list of records. *)
Definition distinct_links (l : list entry) : nat :=
  size (list_to_set (link <$> l) : gset string).

(** ** Python string helpers *)

Module PyStr.

Definition bytes (l : list nat) : string :=
  foldr (fun n s => String (ascii_of_nat n) s) "" l.

(** [s] without the prefix [p], when [p] is a prefix of [s]. *)
Fixpoint drop_prefix (p s : string) : option string :=
  match p, s with
  | EmptyString, _ => Some s
  | String c p', String d s' => if decide (c = d) then drop_prefix p' s' else None
  | String _ _, EmptyString => None
  end.

Definition has_prefix (p s : string) : bool :=
  match drop_prefix p s with Some _ => true | None => false end.

(** The characters for which [str.isspace] holds (those that [str.strip]
    removes and that [\s] matches), as UTF-8 byte sequences:
    U+0009..U+000D, U+001C..U+0020, U+0085, U+00A0, U+1680,
    U+2000..U+200A, U+2028, U+2029, U+202F, U+205F, U+3000. *)
Definition whitespace : list string :=
  (bytes <$> [[9]; [10]; [11]; [12]; [13]; [28]; [29]; [30]; [31]; [32];
              [194; 133]; [194; 160]; [225; 154; 128]])
  ++ ((fun n => bytes [226; 128; n]) <$> seq 128 11)
  ++ (bytes <$> [[226; 128; 168]; [226; 128; 169]; [226; 128; 175];
                 [226; 129; 159]; [227; 128; 128]]).

Fixpoint first_some {A B} (f : A -> option B) (l : list A) : option B :=
  match l with
  | [] => None
  | x :: r => match f x with Some y => Some y | None => first_some f r end
  end.

(** [s] without one leading whitespace character, if it starts with one. *)
Definition drop_space (s : string) : option string :=
  first_some (fun w => drop_prefix w s) whitespace.

Fixpoint lstrip_go (fuel : nat) (s : string) : string :=
  match fuel with
  | 0 => s
  | S fuel' =>
      match drop_space s with
      | Some s' => lstrip_go fuel' s'
      | None => s
      end
  end.

Definition lstrip (s : string) : string := lstrip_go (String.length s) s.

(** The same from the right end: the string is reversed and the reversed
    byte sequences are removed. *)
Definition drop_space_rev (s : string) : option string :=
  first_some (fun w => drop_prefix (String.rev w) s) whitespace.

Fixpoint rstrip_go (fuel : nat) (s : string) : string :=
  match fuel with
  | 0 => s
  | S fuel' =>
      match drop_space_rev s with
      | Some s' => rstrip_go fuel' s'
      | None => s
      end
  end.

Definition rstrip (s : string) : string :=
  String.rev (rstrip_go (String.length s) (String.rev s)).

(** [s.strip()] *)
Definition strip (s : string) : string := rstrip (lstrip s).

(** [sep.join(l)] *)
Definition join (sep : string) (l : list string) : string := String.concat sep l.

(** Truth value of a string, and of an optional string ([None] and the
    empty string are false). *)
Definition truthy (s : string) : bool :=
  match s with EmptyString => false | String _ _ => true end.

Definition truthy_opt (o : option string) : bool :=
  match o with None => false | Some s => truthy s end.

(** Pieces of [s] between occurrences of [sep]. *)
Fixpoint split_go (sep : ascii) (acc : string) (s : string) : list string :=
  match s with
  | EmptyString => [String.rev acc]
  | String c s' =>
      if decide (c = sep) then String.rev acc :: split_go sep "" s'
      else split_go sep (String c acc) s'
  end.

Definition split (sep : ascii) (s : string) : list string := split_go sep "" s.

End PyStr.

(** ** The parsed page

    A [node] is an element of the BeautifulSoup tree.  [Tag] carries the
    element name (lower-cased by [html.parser]), its attribute dict as an
    association list, the token list of its multi-valued [class] attribute
    and its children.  [Text] is a plain [NavigableString]; [Special] is
    a string of one of the subclasses of [NavigableString]: a comment, a
    CDATA section, a declaration and the like, or a string that the tree
    builder found inside a [script], [style], [template], [rt] or [rp]
    element. *)

Inductive string_class : Type :=
| CData | Comment | ProcessingInstruction | Declaration | Doctype
| Script | Stylesheet | TemplateString | RubyTextString | RubyParenthesisString.

#[global] Instance string_class_eq_dec : EqDecision string_class.
Proof. solve_decision. Defined.

Inductive node : Type :=
| Text (s : string)
| Special (k : string_class) (s : string)
| Tag (name : string) (attrs : list (string * string)) (classes : list string)
      (children : list node).

(** A node together with its chain of ancestors, nearest first: what a
    [Tag] object reaches through [.parent]. *)
Record located : Type := Located {
  ancestors : list node;
  here : node
}.

Module Soup.

(** The [BeautifulSoup] object: a tag named [[document]] around the
    top-level nodes of the page. *)
Definition document (top : list node) : located :=
  {| ancestors := []; here := Tag "[document]" [] [] top |}.

Definition is_tag (n : node) : bool :=
  match n with Tag _ _ _ _ => true | _ => false end.

Definition name_of (n : node) : option string :=
  match n with Tag nm _ _ _ => Some nm | _ => None end.

(** Every node below [n], in document order, each with its ancestors. *)
Fixpoint descendants_at (anc : list node) (n : node) : list located :=
  match n with
  | Tag _ _ _ ch =>
      (fix go (l : list node) : list located :=
         match l with
         | [] => []
         | c :: r =>
             {| ancestors := n :: anc; here := c |}
               :: descendants_at (n :: anc) c ++ go r
         end) ch
  | _ => []
  end.

Definition descendants (l : located) : list located :=
  descendants_at (ancestors l) (here l).

Definition descendant_tags (l : located) : list located :=
  filter (fun d => is_tag (here d) = true) (descendants l).

(** *** The selector subset used by the scraper

    A compound selector is an optional element name with required
    classes; a complex selector is a chain of compounds joined by the
    descendant combinator; a selector list is a comma-separated list of
    complex selectors. *)

Record compound : Type := Compound {
  sel_name : option string;
  sel_classes : list string
}.

Definition parse_compound (w : string) : compound :=
  match PyStr.split "." w with
  | [] => {| sel_name := None; sel_classes := [] |}
  | nm :: cls =>
      {| sel_name := if PyStr.truthy nm then Some nm else None;
         sel_classes := cls |}
  end.

Definition parse_complex (s : string) : list compound :=
  parse_compound <$> filter (fun w => PyStr.truthy w = true) (PyStr.split " " s).

Definition parse_selector (s : string) : list (list compound) :=
  parse_complex <$> PyStr.split "," s.

Definition match_compound (c : compound) (n : node) : bool :=
  match n with
  | Tag nm _ cls _ =>
      match sel_name c with
      | Some want => bool_decide (want = nm)
      | None => true
      end
      && forallb (fun k => bool_decide (k ∈ cls)) (sel_classes c)
  | _ => false
  end.

(** [sels] lists the compounds still to be found among the ancestors,
    innermost first.  As in the browser's [querySelectorAll], the whole
    ancestor chain up to the document is searched. *)
Fixpoint match_ancestors (sels : list compound) (anc : list node) : bool :=
  match sels with
  | [] => true
  | c :: sels' =>
      (fix find (l : list node) : bool :=
         match l with
         | [] => false
         | p :: ps => (match_compound c p && match_ancestors sels' ps) || find ps
         end) anc
  end.

Definition match_complex (cx : list compound) (l : located) : bool :=
  match rev cx with
  | [] => false
  | target :: outer => match_compound target (here l) && match_ancestors outer (ancestors l)
  end.

Definition matches (sel : string) (l : located) : bool :=
  existsb (fun cx => match_complex cx l) (parse_selector sel).

(** [tag.select(sel)], [tag.select_one(sel)] *)
Definition select (l : located) (sel : string) : list located :=
  filter (fun d => matches sel d = true) (descendant_tags l).

Definition select_one (l : located) (sel : string) : option located :=
  head (select l sel).

(** [tag.find_all(name)], [tag.find(name)] *)
Definition find_all (l : located) (name : string) : list located :=
  filter (fun d => name_of (here d) = Some name) (descendants l).

Definition find (l : located) (name : string) : option located :=
  head (find_all l name).

(** [tag.get(key)] *)
Definition get (l : located) (key : string) : option string :=
  match here l with
  | Tag _ attrs _ _ => snd <$> List.find (fun kv => bool_decide (kv.1 = key)) attrs
  | _ => None
  end.

(** [HTMLTreeBuilder.DEFAULT_STRING_CONTAINERS]: the elements whose
    strings have a class of their own. *)
Definition string_containers : list (string * string_class) :=
  [("rt", RubyTextString); ("rp", RubyParenthesisString); ("style", Stylesheet);
   ("script", Script); ("template", TemplateString)].

(** [tag.interesting_string_types]: the class of strings that count as
    text of an element of this name, [None] standing for the default,
    [(NavigableString, CData)]. *)
Definition interesting_string_types (name : string) : option string_class :=
  snd <$> List.find (fun kv => bool_decide (kv.1 = name)) string_containers.

(** Whether a string node is of the types wanted. *)
Definition interesting (types : option string_class) (n : node) : bool :=
  match n, types with
  | Text _, None => true
  | Special k _, None => bool_decide (k = CData)
  | Special k _, Some want => bool_decide (k = want)
  | _, _ => false
  end.

(** [_all_strings]: the strings of the wanted types among the
    descendants of a node, in document order. *)
Fixpoint strings_in (types : option string_class) (n : node) : list string :=
  match n with
  | Tag _ _ _ ch =>
      (fix go (l : list node) : list string :=
         match l with
         | [] => []
         | c :: r =>
             (match c with
              | Text s | Special _ s => if interesting types c then [s] else []
              | Tag _ _ _ _ => strings_in types c
              end) ++ go r
         end) ch
  | _ => []
  end.

(** The strings [get_text] collects for a node: for an element, those of
    its [interesting_string_types] below it; a string gives itself when
    it is of the default types. *)
Definition strings_of (n : node) : list string :=
  match n with
  | Tag name _ _ _ => strings_in (interesting_string_types name) n
  | Text s | Special _ s => if interesting None n then [s] else []
  end.

(** [tag.get_text(separator, strip=True)]: each string is stripped, the
    ones left empty are dropped, the rest are joined. *)
Definition get_text_strip (separator : string) (l : located) : string :=
  PyStr.join separator
    (filter (fun s => PyStr.truthy s = true) (PyStr.strip <$> strings_of (here l))).

End Soup.

(** ** [parse_articles] *)

(** What one pass through the body of the extraction loop does. *)
Inductive action : Type :=
| Append (e : entry)
| Continue.

(** Python's [x or y] on optional values that are true when present. *)
Definition or_else {A} (x y : option A) : option A :=
  match x with
  | Some _ => x
  | None => y
  end.

Section Scraper.

(** [BeautifulSoup(html, "html.parser")]: the top-level nodes of the
    parsed page; the constructor raises on markup that the tokenizer
    rejects ([ParserRejectedMarkup]). *)
Variable html_parser : string -> res (list node).

(** [urllib.parse.urljoin]; it raises [ValueError] on some malformed
    references. *)
Variable urljoin : string -> string -> res string.

(** *** Article selector *)

Definition is_empty {A} (l : list A) : bool :=
  match l with [] => true | _ :: _ => false end.

Definition select_articles (soup : located) : list located :=
  let articles := Soup.select soup "article.article-search-listing" in
  let articles :=
    if is_empty articles then Soup.select soup ".views-row article" else articles in
  let articles :=
    if is_empty articles then Soup.find_all soup "article" else articles in
  articles.

(** *** Field extractor *)

(** [a.select_one("h3 a") or a.select_one("a")] *)
Definition chosen_anchor (a : located) : option located :=
  or_else (Soup.select_one a "h3 a") (Soup.select_one a "a").

(** The text taken as title from the chosen anchor. *)
Definition title_of (a_tag : located) : string :=
  let title_span := Soup.select_one a_tag "span" in
  match title_span with
  | Some sp => Soup.get_text_strip "" sp
  | None => Soup.get_text_strip "" a_tag
  end.


Definition summary_of (a : located) : string :=
  let summary_div :=
    or_else (Soup.select_one a ".search-listing--summary")
      (or_else (Soup.select_one a ".teaser") (Soup.find a "p")) in
  match summary_div with
  | Some d => Soup.get_text_strip " " d
  | None => ""
  end.

Definition pubdate_of (a : located) : option string :=
  let time_tag := Soup.find a "time" in
  match time_tag with
  | Some t =>
      if PyStr.truthy_opt (Soup.get t "datetime") then Soup.get t "datetime"
      else Some (Soup.get_text_strip "" t)
  | None =>
      let date_meta :=
        Soup.select_one a ".contributors, .credit, .byline, .submitted, .date" in
      match date_meta with
      | Some d => Some (Soup.get_text_strip " " d)
      | None => None
      end
  end.

(** The body of the [try] block for one candidate. *)
Definition candidate_body (a : located) : res action :=
  match chosen_anchor a with
  | None => Ok Continue
  | Some a_tag =>
      let title := title_of a_tag in
      let href := Soup.get a_tag "href" in
      match href with
      | None => Ok Continue
      | Some href =>
          if negb (PyStr.truthy href) then Ok Continue
          else
            link ← urljoin BASE_URL href;
            let summary := summary_of a in
            let pubdate := pubdate_of a in
            Ok (Append {| title := title; link := link; summary := summary;
                          pubdate_raw := pubdate |})
      end
  end.

(** One iteration: [try: ... except Exception: continue]. *)
Definition extract_step (results : list entry) (a : located) : list entry :=
  match try_except (candidate_body a) (Ok Continue) with
  | Ok (Append e) => results ++ [e]
  | Ok Continue => results
  | Raised => results
  end.

Definition extract_all (articles : list located) : list entry :=
  fold_left extract_step articles [].

(** The records one candidate contributes to [results]. *)
Definition emitted (a : located) : list entry :=
  match try_except (candidate_body a) (Ok Continue) with
  | Ok (Append e) => [e]
  | _ => []
  end.

Definition parse_soup (soup : located) : list entry :=
  let articles := select_articles soup in
  let results := extract_all articles in
  dedupe_and_limit MAX_ITEMS results.

(** The constructor is called outside any [try]: what it raises leaves
    [parse_articles]. *)
Definition parse_articles (html : string) : res (list entry) :=
  top ← html_parser html;
  Ok (parse_soup (Soup.document top)).

End Scraper.

(** ** Dates: [datetime], [strptime], [strftime]

    Model of the parts of CPython's [datetime] and [_strptime] that
    [normalize_pubdate] runs, in the C locale.  A [datetime] carries its
    fields and, when aware, the offset of its fixed-offset [timezone] in
    microseconds.  Decimal digits are the ASCII digits; letters are matched
    without regard to ASCII case. *)

Record datetime : Type := Datetime {
  year : Z;
  month : Z;
  day : Z;
  hour : Z;
  minute : Z;
  second : Z;
  microsecond : Z;
  tzinfo : option Z
}.

(** [timezone.utc] *)
Definition utc : option Z := Some 0%Z.

(** [dt.replace(tzinfo=tz)] *)
Definition replace_tzinfo (dt : datetime) (tz : option Z) : datetime :=
  {| year := year dt; month := month dt; day := day dt; hour := hour dt;
     minute := minute dt; second := second dt; microsecond := microsecond dt;
     tzinfo := tz |}.

Module Cal.
Open Scope Z_scope.

Definition is_leap (y : Z) : bool :=
  (y mod 4 =? 0) && (negb (y mod 100 =? 0) || (y mod 400 =? 0)).

Definition DAYS_IN_MONTH : list Z := [31; 28; 31; 30; 31; 30; 31; 31; 30; 31; 30; 31].

Definition days_in_month (y m : Z) : Z :=
  if (m =? 2) && is_leap y then 29
  else nth (Z.to_nat (m - 1)) DAYS_IN_MONTH 0.

Definition days_before_year (y : Z) : Z :=
  let y' := y - 1 in y' * 365 + y' / 4 - y' / 100 + y' / 400.

Definition days_before_month (y m : Z) : Z :=
  foldr Z.add 0 ((fun k => days_in_month y (Z.of_nat k)) <$> seq 1 (Z.to_nat (m - 1))).

Definition ymd2ord (y m d : Z) : Z :=
  days_before_year y + days_before_month y m + d.

(** [date.weekday()]: Monday is 0. *)
Definition weekday (y m d : Z) : Z := (ymd2ord y m d + 6) mod 7.

(** The checks of the [date] constructor. *)
Definition valid_date (y m d : Z) : bool :=
  (1 <=? y) && (y <=? 9999) && (1 <=? m) && (m <=? 12)
  && (1 <=? d) && (d <=? days_in_month y m).

(** The checks of the [time] part of the [datetime] constructor. *)
Definition valid_time (h mi s us : Z) : bool :=
  (0 <=? h) && (h <=? 23) && (0 <=? mi) && (mi <=? 59)
  && (0 <=? s) && (s <=? 59) && (0 <=? us) && (us <=? 999999).

(** [timezone(offset)] accepts offsets strictly between -24h and 24h. *)
Definition valid_offset (off : Z) : bool :=
  (-86400000000 <? off) && (off <? 86400000000).

End Cal.

Definition valid_datetime (dt : datetime) : bool :=
  Cal.valid_date (year dt) (month dt) (day dt)
  && Cal.valid_time (hour dt) (minute dt) (second dt) (microsecond dt)
  && match tzinfo dt with Some off => Cal.valid_offset off | None => true end.

(** ** UTF-8

    The characters of a string held as UTF-8 bytes. *)

Module Utf8.
Open Scope Z_scope.

Definition byte (c : ascii) : Z := Z.of_N (N_of_ascii c).

Definition between (lo hi x : Z) : bool := (lo <=? x) && (x <=? hi).

(** A continuation byte, [10xxxxxx]. *)
Definition is_cont (c : ascii) : bool := between 128 191 (byte c).

(** The code point encoded at the start of [s] and the number of bytes of
    its encoding, for the well-formed byte sequences of the Unicode
    standard (table 3-7): shortest form, no surrogate, at most U+10FFFF. *)
Definition decode (s : string) : option (Z * nat) :=
  match s with
  | EmptyString => None
  | String b0 r =>
      let x0 := byte b0 in
      if x0 <? 128 then Some (x0, 1%nat)
      else if between 194 223 x0 then
        match r with
        | String b1 _ =>
            if is_cont b1 then Some ((x0 - 192) * 64 + (byte b1 - 128), 2%nat)
            else None
        | _ => None
        end
      else if between 224 239 x0 then
        match r with
        | String b1 (String b2 _) =>
            let lo := if x0 =? 224 then 160 else 128 in
            let hi := if x0 =? 237 then 159 else 191 in
            if between lo hi (byte b1) && is_cont b2 then
              Some ((x0 - 224) * 4096 + (byte b1 - 128) * 64 + (byte b2 - 128), 3%nat)
            else None
        | _ => None
        end
      else if between 240 244 x0 then
        match r with
        | String b1 (String b2 (String b3 _)) =>
            let lo := if x0 =? 240 then 144 else 128 in
            let hi := if x0 =? 244 then 143 else 191 in
            if between lo hi (byte b1) && is_cont b2 && is_cont b3 then
              Some ((x0 - 240) * 262144 + (byte b1 - 128) * 4096
                    + (byte b2 - 128) * 64 + (byte b3 - 128), 4%nat)
            else None
        | _ => None
        end
      else None
  end.

(** The first [n] bytes of [s] and the rest. *)
Fixpoint split_at (n : nat) (s : string) : string * string :=
  match n, s with
  | S k, String c r => let '(a, b) := split_at k r in (String c a, b)
  | _, _ => (EmptyString, s)
  end.

Definition starts_cont (s : string) : bool :=
  match s with String c _ => is_cont c | EmptyString => false end.

(** The characters of [s], each as its bytes: a byte that is not a
    continuation byte starts a character. *)
Fixpoint chars (s : string) : list string :=
  match s with
  | EmptyString => []
  | String c r =>
      match chars r with
      | x :: l => if starts_cont x then String c x :: l else String c EmptyString :: x :: l
      | [] => [String c EmptyString]
      end
  end.

(** [len(s)], [s[i]], [s[a:b]] and [s[a:]] *)
Definition len (s : string) : nat := length (chars s).

Definition at_index (i : nat) (s : string) : option string := chars s !! i.

Definition slice (a b : nat) (s : string) : string :=
  String.concat EmptyString (take (b - a) (drop a (chars s))).

Definition slice_from (a : nat) (s : string) : string :=
  String.concat EmptyString (drop a (chars s)).

End Utf8.

Module Chars.

Definition cls : Type := ascii -> bool.

Definition code (c : ascii) : Z := Z.of_N (N_of_ascii c).

Definition in_range (lo hi : ascii) : cls :=
  fun c => (code lo <=? code c)%Z && (code c <=? code hi)%Z.

(** The class [[0-9]]: the ASCII digits only.  It is what the pattern of
    [%f] asks for and what [strftime] writes; the digits that [\d]
    matches are those of [decimal_digit] below. *)
Definition is_digit : cls := in_range "0" "9".

Definition exactly (l : ascii) : cls := fun c => bool_decide (c = l).

Definition lower (c : ascii) : ascii :=
  if in_range "A" "Z" c then ascii_of_N (N_of_ascii c + 32) else c.

(** A literal under [re.IGNORECASE]. *)
Definition ci (l : ascii) : cls := fun c => bool_decide (lower c = lower l).

Fixpoint lower_string (s : string) : string :=
  match s with
  | EmptyString => EmptyString
  | String c s' => String (lower c) (lower_string s')
  end.

Definition digit_char (n : Z) : ascii := ascii_of_N (Z.to_N (n + 48)).

(** [p] read against the start of [s]: the matched prefix and the rest. *)
Fixpoint match_seq (p : list cls) (s : string) : option (string * string) :=
  match p with
  | [] => Some (EmptyString, s)
  | k :: p' =>
      match s with
      | EmptyString => None
      | String c s' =>
          if k c then
            match match_seq p' s' with
            | Some (m, r) => Some (String c m, r)
            | None => None
            end
          else None
      end
  end.

(** The code points of the digit zero of each decimal system: the
    characters of category [Nd] (Unicode 14.0) are the ten code points
    from each of them on, in the order of their values. *)
Definition decimal_zeros : list Z :=
  [48; 1632; 1776; 1984; 2406; 2534; 2662; 2790; 2918; 3046; 3174; 3302;
   3430; 3558; 3664; 3792; 3872; 4160; 4240; 6112; 6160; 6470; 6608; 6784;
   6800; 6992; 7088; 7232; 7248; 42528; 43216; 43264; 43472; 43504; 43600;
   44016; 65296; 66720; 68912; 69734; 69872; 69942; 70096; 70384; 70736;
   70864; 71248; 71360; 71472; 71904; 72016; 72784; 73040; 73120; 92768;
   92864; 93008; 120782; 120792; 120802; 120812; 120822; 123200; 123632;
   125264; 130032]%Z.

(** The value of a decimal digit: what a regular expression's [\d]
    matches and [int] converts. *)
Definition decimal_value (cp : Z) : option Z :=
  (fun z => cp - z)%Z <$> List.find (fun z => (z <=? cp) && (cp <? z + 10))%Z decimal_zeros.

(** A decimal digit at the start of [s]: its value and the number of its
    bytes. *)
Definition decimal_digit (s : string) : option (Z * nat) :=
  '(cp, n) ← Utf8.decode s;
  v ← decimal_value cp;
  Some (v, n).

(** A piece of a regular expression that matches one character: a class
    of ASCII characters, or [\d]. *)
Inductive atom : Type :=
| Ch (k : cls)
| Digit.

(** [p] read against the start of [s], where [\d] may stand: the matched
    prefix and the rest. *)
Fixpoint match_atoms (p : list atom) (s : string) : option (string * string) :=
  match p with
  | [] => Some (EmptyString, s)
  | Ch k :: p' =>
      match s with
      | EmptyString => None
      | String c s' =>
          if k c then
            match match_atoms p' s' with
            | Some (m, r) => Some (String c m, r)
            | None => None
            end
          else None
      end
  | Digit :: p' =>
      match decimal_digit s with
      | Some (_, n) =>
          let '(d, s') := Utf8.split_at n s in
          match match_atoms p' s' with
          | Some (m, r) => Some (d +:+ m, r)
          | None => None
          end
      | None => None
      end
  end.

(** [int(s)] for the strings met here: surrounding whitespace is
    ignored, decimal digits convert, anything else (the empty string, a
    colon, a dot) raises [ValueError].  [skip] counts the bytes still to
    pass of the digit being read. *)
Fixpoint digits_value (skip : nat) (acc : Z) (s : string) : res Z :=
  match s with
  | EmptyString => match skip with 0 => Ok acc | S _ => Raised end
  | String c s' =>
      match skip with
      | S k => digits_value k acc s'
      | 0 =>
          match decimal_digit s with
          | Some (v, n) => digits_value (n - 1) (acc * 10 + v)%Z s'
          | None => Raised
          end
      end
  end.

Definition int_of_string (s : string) : res Z :=
  match PyStr.strip s with
  | EmptyString => Raised
  | digits => digits_value 0 0%Z digits
  end.

Fixpoint dec_go (fuel : nat) (n : Z) (acc : string) : string :=
  match fuel with
  | 0 => acc
  | S fuel' =>
      let acc' := String (digit_char (n mod 10)) acc in
      if (n <? 10)%Z then acc' else dec_go fuel' (n / 10)%Z acc'
  end.

(** Decimal numeral of a non-negative integer ([%d]). *)
Definition dec (n : Z) : string := dec_go (S (Z.to_nat (Z.log2 n))) n EmptyString.

Fixpoint zeros (k : nat) : string :=
  match k with 0 => EmptyString | S k' => String "0" (zeros k') end.

(** [%0wd] *)
Definition pad (w : nat) (n : Z) : string :=
  let d := dec n in zeros (w - String.length d) +:+ d.

End Chars.

(** *** [_strptime]: from format to regular expression *)

Module Strptime.
Import Chars.

Definition a_month : list string :=
  [""; "jan"; "feb"; "mar"; "apr"; "may"; "jun"; "jul"; "aug"; "sep"; "oct"; "nov"; "dec"].

Definition f_month : list string :=
  [""; "january"; "february"; "march"; "april"; "may"; "june"; "july"; "august";
   "september"; "october"; "november"; "december"].

(** [sorted(to_convert, key=len, reverse=True)]: stable, longest first. *)
Fixpoint insert_by_length (x : string) (l : list string) : list string :=
  match l with
  | [] => [x]
  | y :: r =>
      if (String.length y <? String.length x)%nat then x :: l
      else y :: insert_by_length x r
  end.

Definition sort_by_length (l : list string) : list string :=
  foldr insert_by_length [] l.

Fixpoint literal_ci (s : string) : list atom :=
  match s with
  | EmptyString => []
  | String c s' => Ch (ci c) :: literal_ci s'
  end.

(** [__seqToRE]: the alternatives of a list of names. *)
Definition seqToRE (names : list string) : list (list atom) :=
  literal_ci <$> sort_by_length names.

Definition sign : cls := fun c => exactly "+" c || exactly "-" c.

(** [\d{n}] and [[0-9]{n}] *)
Definition digits (n : nat) : list atom := repeat Digit n.

Definition ascii_digits (n : nat) : list atom := repeat (Ch is_digit) n.

(** The alternatives of [[+-]\d\d:?[0-5]\d(:?[0-5]\d(\.\d{1,6})?)?|(?-i:Z)]
    in the order in which a backtracking matcher tries them. *)
Definition re_z : list (list atom) :=
  (c1 ← [[Ch (exactly ":")]; []];
   let hhmm := [Ch sign; Digit; Digit] ++ c1 ++ [Ch (in_range "0" "5"); Digit] in
   (c2 ← [[Ch (exactly ":")]; []];
    frac ← ((fun n => Ch (exactly ".") :: digits n) <$> [6; 5; 4; 3; 2; 1]) ++ [[]];
    [hhmm ++ c2 ++ [Ch (in_range "0" "5"); Digit] ++ frac])
   ++ [hhmm])
  ++ [[Ch (exactly "Z")]].

(** The table of [TimeRE], for the directives the scraper's formats use:
    [%d] is [3[0-1]|[1-2]\d|0[1-9]|[1-9]| [1-9]], [%f] is [[0-9]{1,6}],
    [%H] is [2[0-3]|[0-1]\d|\d], [%m] is [1[0-2]|0[1-9]|[1-9]], [%M] is
    [[0-5]\d|\d], [%S] is [6[0-1]|[0-5]\d|\d], [%Y] is [\d\d\d\d]. *)
Definition directive_re (d : ascii) : option (list (list atom)) :=
  if decide (d = "d"%char) then
    Some [[Ch (exactly "3"); Ch (in_range "0" "1")]; [Ch (in_range "1" "2"); Digit];
          [Ch (exactly "0"); Ch (in_range "1" "9")]; [Ch (in_range "1" "9")];
          [Ch (exactly " "); Ch (in_range "1" "9")]]
  else if decide (d = "f"%char) then Some (ascii_digits <$> [6; 5; 4; 3; 2; 1])
  else if decide (d = "H"%char) then
    Some [[Ch (exactly "2"); Ch (in_range "0" "3")]; [Ch (in_range "0" "1"); Digit];
          [Digit]]
  else if decide (d = "m"%char) then
    Some [[Ch (exactly "1"); Ch (in_range "0" "2")];
          [Ch (exactly "0"); Ch (in_range "1" "9")]; [Ch (in_range "1" "9")]]
  else if decide (d = "M"%char) then Some [[Ch (in_range "0" "5"); Digit]; [Digit]]
  else if decide (d = "S"%char) then
    Some [[Ch (exactly "6"); Ch (in_range "0" "1")]; [Ch (in_range "0" "5"); Digit];
          [Digit]]
  else if decide (d = "Y"%char) then Some [digits 4]
  else if decide (d = "z"%char) then Some re_z
  else if decide (d = "B"%char) then Some (seqToRE (tail f_month))
  else if decide (d = "b"%char) then Some (seqToRE (tail a_month))
  else None.

(** The pieces of the compiled pattern. *)
Inductive token : Type :=
| TDir (d : ascii)
| TLit (c : ascii)
| TSpaces.

Definition is_format_space (c : ascii) : bool :=
  bool_decide (PyStr.drop_space (String c EmptyString) = Some EmptyString).

(** [TimeRE.pattern]: a run of whitespace becomes [\s+], [%x] becomes the
    expression of directive [x], any other character stands for itself.
    A directive outside the table, or a trailing [%], makes the
    compilation raise. *)
Fixpoint pattern (format : string) : res (list token) :=
  match format with
  | EmptyString => Ok []
  | String "%" EmptyString => Raised
  | String "%" (String d rest) =>
      match directive_re d with
      | Some _ => toks ← pattern rest; Ok (TDir d :: toks)
      | None => Raised
      end
  | String c rest =>
      toks ← pattern rest;
      if is_format_space c then
        Ok (match toks with TSpaces :: _ => toks | _ => TSpaces :: toks end)
      else Ok (TLit c :: toks)
  end.

(** The named groups of a match ([found.groupdict()]). *)
Record found : Type := Found {
  gY : option string; gm : option string; gd : option string;
  gH : option string; gM : option string; gS : option string;
  gf : option string; gz : option string;
  gb : option string; gB : option string
}.

Definition no_groups : found :=
  {| gY := None; gm := None; gd := None; gH := None; gM := None; gS := None;
     gf := None; gz := None; gb := None; gB := None |}.

Definition capture (d : ascii) (v : string) (f : found) : found :=
  if decide (d = "Y"%char) then
    {| gY := Some v; gm := gm f; gd := gd f; gH := gH f; gM := gM f; gS := gS f;
       gf := gf f; gz := gz f; gb := gb f; gB := gB f |}
  else if decide (d = "m"%char) then
    {| gY := gY f; gm := Some v; gd := gd f; gH := gH f; gM := gM f; gS := gS f;
       gf := gf f; gz := gz f; gb := gb f; gB := gB f |}
  else if decide (d = "d"%char) then
    {| gY := gY f; gm := gm f; gd := Some v; gH := gH f; gM := gM f; gS := gS f;
       gf := gf f; gz := gz f; gb := gb f; gB := gB f |}
  else if decide (d = "H"%char) then
    {| gY := gY f; gm := gm f; gd := gd f; gH := Some v; gM := gM f; gS := gS f;
       gf := gf f; gz := gz f; gb := gb f; gB := gB f |}
  else if decide (d = "M"%char) then
    {| gY := gY f; gm := gm f; gd := gd f; gH := gH f; gM := Some v; gS := gS f;
       gf := gf f; gz := gz f; gb := gb f; gB := gB f |}
  else if decide (d = "S"%char) then
    {| gY := gY f; gm := gm f; gd := gd f; gH := gH f; gM := gM f; gS := Some v;
       gf := gf f; gz := gz f; gb := gb f; gB := gB f |}
  else if decide (d = "f"%char) then
    {| gY := gY f; gm := gm f; gd := gd f; gH := gH f; gM := gM f; gS := gS f;
       gf := Some v; gz := gz f; gb := gb f; gB := gB f |}
  else if decide (d = "z"%char) then
    {| gY := gY f; gm := gm f; gd := gd f; gH := gH f; gM := gM f; gS := gS f;
       gf := gf f; gz := Some v; gb := gb f; gB := gB f |}
  else if decide (d = "b"%char) then
    {| gY := gY f; gm := gm f; gd := gd f; gH := gH f; gM := gM f; gS := gS f;
       gf := gf f; gz := gz f; gb := Some v; gB := gB f |}
  else if decide (d = "B"%char) then
    {| gY := gY f; gm := gm f; gd := gd f; gH := gH f; gM := gM f; gS := gS f;
       gf := gf f; gz := gz f; gb := gb f; gB := Some v |}
  else f.

(** What is left of [s] after one or more whitespace characters, the
    longest run first ([\s+] is greedy). *)
Fixpoint spaces_go (fuel : nat) (s : string) : list string :=
  match fuel with
  | 0 => []
  | S fuel' =>
      match PyStr.drop_space s with
      | Some s' => spaces_go fuel' s' ++ [s']
      | None => []
      end
  end.

(** The ways one token can match at the start of [s], in the order the
    matcher tries them: the text matched and what is left. *)
Definition candidates (t : token) (s : string) : list (string * string) :=
  match t with
  | TLit c => option_list (match_atoms [Ch (ci c)] s)
  | TSpaces => (fun r => (EmptyString, r)) <$> spaces_go (String.length s) s
  | TDir d =>
      match directive_re d with
      | Some alts => omap (fun p => match_atoms p s) alts
      | None => []
      end
  end.

Definition capture_token (t : token) (v : string) (f : found) : found :=
  match t with
  | TDir d => capture d v f
  | _ => f
  end.

(** [format_regex.match(data_string)]: the first way, in backtracking
    order, to match all tokens from the start of [s]; the groups and the
    text after the match. *)
Fixpoint regex_match (toks : list token) (s : string) (f : found)
    : option (found * string) :=
  match toks with
  | [] => Some (f, s)
  | t :: toks' =>
      PyStr.first_some
        (fun '(v, rest) => regex_match toks' rest (capture_token t v f))
        (candidates t s)
  end.

(** *** [_strptime]: from the groups to the fields *)

(** [names.index(v.lower())] *)
Fixpoint index_of (v : string) (names : list string) (i : Z) : res Z :=
  match names with
  | [] => Raised
  | n :: r => if decide (n = v) then Ok i else index_of v r (i + 1)%Z
  end.

Definition slice (a b : nat) (s : string) : string := Utf8.slice a b s.

Definition slice_from (a : nat) (s : string) : string := Utf8.slice_from a s.

(** The [%z] branch: [gmtoff] in seconds and [gmtoff_fraction] in
    microseconds.  Indices and lengths count characters. *)
Definition parse_z (z0 : string) : res (Z * Z) :=
  if decide (z0 = "Z") then Ok (0, 0)%Z
  else
    z ← (if decide (Utf8.at_index 3 z0 = Some ":") then
           let z := slice 0 3 z0 +:+ slice_from 4 z0 in
           if (5 <? Utf8.len z)%nat then
             if decide (Utf8.at_index 5 z = Some ":")
             then Ok (slice 0 5 z +:+ slice_from 6 z)
             else Raised
           else Ok z
         else Ok z0);
    hours ← int_of_string (slice 1 3 z);
    minutes ← int_of_string (slice 3 5 z);
    seconds ← (if PyStr.truthy (slice 5 7 z) then int_of_string (slice 5 7 z) else Ok 0%Z);
    let gmtoff := (hours * 60 * 60 + minutes * 60 + seconds)%Z in
    let gmtoff_remainder := slice_from 8 z in
    let padding := zeros (6 - Utf8.len gmtoff_remainder) in
    gmtoff_fraction ← int_of_string (gmtoff_remainder +:+ padding);
    if decide (Utf8.at_index 0 z = Some "-")
    then Ok (- gmtoff, - gmtoff_fraction)%Z
    else Ok (gmtoff, gmtoff_fraction).

Definition int_group (default : Z) (g : option string) : res Z :=
  match g with
  | Some v => int_of_string v
  | None => Ok default
  end.

(** The month comes from [%m], [%B] or [%b]; the scraper's formats hold
    at most one of them. *)
Definition month_group (f : found) : res Z :=
  match gm f, gB f, gb f with
  | Some v, _, _ => int_of_string v
  | None, Some v, _ => index_of (lower_string v) f_month 0%Z
  | None, None, Some v => index_of (lower_string v) a_month 0%Z
  | None, None, None => Ok 1%Z
  end.

Definition fraction_group (f : found) : res Z :=
  match gf f with
  | Some v => int_of_string (v +:+ zeros (6 - String.length v))
  | None => Ok 0%Z
  end.

(** [_strptime] followed by [_strptime_datetime]: the fields are read
    from the groups, the date, the offset and the time are checked by
    the constructors of [date], [timezone] and [datetime]. *)
Definition convert (f : found) : res datetime :=
  year ← int_group 1900 (gY f);
  month ← month_group f;
  day ← int_group 1 (gd f);
  hour ← int_group 0 (gH f);
  minute ← int_group 0 (gM f);
  second ← int_group 0 (gS f);
  fraction ← fraction_group f;
  tz ← match gz f with
       | Some z =>
           '(gmtoff, gmtoff_fraction) ← parse_z z;
           Ok (Some (gmtoff * 1000000 + gmtoff_fraction)%Z)
       | None => Ok None
       end;
  let dt := {| year := year; month := month; day := day; hour := hour;
               minute := minute; second := second; microsecond := fraction;
               tzinfo := tz |} in
  if valid_datetime dt then Ok dt else Raised.

End Strptime.

(** [datetime.strptime(data_string, format)] *)
Definition strptime (data_string format : string) : res datetime :=
  toks ← Strptime.pattern format;
  match Strptime.regex_match toks data_string Strptime.no_groups with
  | None => Raised
  | Some (f, rest) =>
      match rest with
      | EmptyString => Strptime.convert f
      | String _ _ => Raised
      end
  end.

(** *** [strftime] *)

Module Strftime.
Import Chars.
Open Scope Z_scope.

Definition a_weekday : list string := ["Mon"; "Tue"; "Wed"; "Thu"; "Fri"; "Sat"; "Sun"].

Definition a_month : list string :=
  ["Jan"; "Feb"; "Mar"; "Apr"; "May"; "Jun"; "Jul"; "Aug"; "Sep"; "Oct"; "Nov"; "Dec"].

(** [%z]: sign, hours and minutes; seconds are added when they are not
    zero, and microseconds when they are not zero. *)
Definition format_utcoffset (off : Z) : string :=
  let sign := if off <? 0 then "-" else "+" in
  let a := Z.abs off in
  let microseconds := a mod 1000000 in
  let total := a / 1000000 in
  let seconds := total mod 60 in
  let minutes := (total / 60) mod 60 in
  let hours := total / 3600 in
  if negb (microseconds =? 0) then
    sign +:+ pad 2 hours +:+ pad 2 minutes +:+ pad 2 seconds +:+ "." +:+ pad 6 microseconds
  else if negb (seconds =? 0) then
    sign +:+ pad 2 hours +:+ pad 2 minutes +:+ pad 2 seconds
  else sign +:+ pad 2 hours +:+ pad 2 minutes.

(** The expansion of one directive.  [%Y] is the year as the C library
    prints it, without padding. *)
Definition directive (dt : datetime) (d : ascii) : string :=
  if decide (d = "a"%char) then
    nth (Z.to_nat (Cal.weekday (year dt) (month dt) (day dt))) a_weekday ""
  else if decide (d = "d"%char) then pad 2 (day dt)
  else if decide (d = "b"%char) then nth (Z.to_nat (month dt - 1)) a_month ""
  else if decide (d = "Y"%char) then dec (year dt)
  else if decide (d = "H"%char) then pad 2 (hour dt)
  else if decide (d = "M"%char) then pad 2 (minute dt)
  else if decide (d = "S"%char) then pad 2 (second dt)
  else if decide (d = "z"%char) then
    match tzinfo dt with
    | Some off => format_utcoffset off
    | None => ""
    end
  else String "%" (String d EmptyString).

End Strftime.

(** [dt.strftime(format)] *)
Fixpoint strftime (dt : datetime) (format : string) : string :=
  match format with
  | EmptyString => EmptyString
  | String "%" (String d rest) => Strftime.directive dt d +:+ strftime dt rest
  | String c rest => String c (strftime dt rest)
  end.

(** ** [normalize_pubdate] *)

Definition RSS_DATE_FORMAT : string := "%a, %d %b %Y %H:%M:%S %z".

Definition ISO_FORMATS : list string :=
  ["%Y-%m-%dT%H:%M:%S%z"; "%Y-%m-%dT%H:%M:%S.%f%z"; "%Y-%m-%dT%H:%M:%S"; "%Y-%m-%d"].

Definition HUMAN_FORMATS : list string :=
  ["%b %d, %Y"; "%B %d, %Y"; "%d %b %Y"; "%d %B %Y"; "%Y/%m/%d"].

(** [datetime.now(timezone.utc)], from a reading of the wall clock. *)
Definition now_utc (clock : datetime) : datetime := replace_tzinfo clock utc.

(** The first loop: the first format that parses wins; a naive result is
    given the UTC zone, an aware one keeps its own. *)
Fixpoint try_iso (fmts : list string) (s : string) : option datetime :=
  match fmts with
  | [] => None
  | fmt :: rest =>
      match strptime s fmt with
      | Ok dt =>
          Some (match tzinfo dt with
                | None => replace_tzinfo dt utc
                | Some _ => dt
                end)
      | Raised => try_iso rest s
      end
  end.

(** The second loop: the result is given the UTC zone. *)
Fixpoint try_human (fmts : list string) (s : string) : option datetime :=
  match fmts with
  | [] => None
  | fmt :: rest =>
      match strptime s fmt with
      | Ok dt => Some (replace_tzinfo dt utc)
      | Raised => try_human rest s
      end
  end.

(** The datetime the [try] block arrives at, if any. *)
Definition parse_pubdate (pubdate_raw : string) : option datetime :=
  let dt := try_iso ISO_FORMATS (PyStr.strip pubdate_raw) in
  match dt with
  | Some _ => dt
  | None => try_human HUMAN_FORMATS (PyStr.strip pubdate_raw)
  end.

Definition normalize_pubdate (clock : datetime) (pubdate_raw : option string)
    : res string :=
  match pubdate_raw with
  | None => Ok (strftime (now_utc clock) RSS_DATE_FORMAT)
  | Some raw =>
      if negb (PyStr.truthy raw) then Ok (strftime (now_utc clock) RSS_DATE_FORMAT)
      else
        try_except
          (match parse_pubdate raw with
           | None => Raised
           | Some dt => Ok (strftime dt RSS_DATE_FORMAT)
           end)
          (Ok (strftime (now_utc clock) RSS_DATE_FORMAT))
  end.

(** *** The output layout

    Reference reading of the fixed output format, following the words of
    the specification (section 4.4) and RFC 2822: day of week, two-digit
    day, month abbreviation, four-digit year, time with seconds and a
    numeric offset of sign and four digits,
    [Www, DD Mon YYYY HH:MM:SS +HHMM]. *)

Module Layout.
Import Chars.

Fixpoint literal (s : string) : list cls :=
  match s with
  | EmptyString => []
  | String c s' => exactly c :: literal s'
  end.

(** Each part is a choice between fixed sequences of character classes. *)
Definition parts : list (list (list cls)) :=
  [literal <$> Strftime.a_weekday; [literal ", "]; [[is_digit; is_digit]];
   [literal " "]; literal <$> Strftime.a_month; [literal " "];
   [[is_digit; is_digit; is_digit; is_digit]]; [literal " "];
   [[is_digit; is_digit]]; [literal ":"]; [[is_digit; is_digit]]; [literal ":"];
   [[is_digit; is_digit]]; [literal " "];
   [[Strptime.sign; is_digit; is_digit; is_digit; is_digit]]].

Fixpoint match_parts (ps : list (list (list cls))) (s : string) : option string :=
  match ps with
  | [] => Some s
  | alts :: ps' =>
      match PyStr.first_some (fun p => match_seq p s) alts with
      | Some (_, rest) => match_parts ps' rest
      | None => None
      end
  end.

Definition is_rfc2822 (s : string) : bool :=
  bool_decide (match_parts parts s = Some EmptyString).

End Layout.

(** ** Strings all of whose bytes, or whose first byte, are of a class *)

Fixpoint all_chars (P : ascii -> bool) (s : string) : bool :=
  match s with
  | EmptyString => true
  | String c r => P c && all_chars P r
  end.

Definition starts_with (P : ascii -> bool) (s : string) : bool :=
  match s with
  | EmptyString => false
  | String c _ => P c
  end.

(** ** [xml.etree.ElementTree]

    An [Element] has a tag, an attribute dict, an optional text and
    children; [tail] is never set by [build_rss] and is left out. *)

Module ET.

Inductive element : Type :=
| Element (tag : string) (attrib : list (string * string)) (text : option string)
          (children : list element).

Definition tag_of (e : element) : string :=
  match e with Element t _ _ _ => t end.

Definition text_of (e : element) : option string :=
  match e with Element _ _ t _ => t end.

Definition children_of (e : element) : list element :=
  match e with Element _ _ _ c => c end.

Definition DQUOTE : string := String "034" EmptyString.
Definition NEWLINE : string := String "010" EmptyString.

(** [_escape_cdata] *)
Fixpoint escape_cdata (text : string) : string :=
  match text with
  | EmptyString => EmptyString
  | String c rest =>
      (if decide (c = "&"%char) then "&amp;"
       else if decide (c = "<"%char) then "&lt;"
       else if decide (c = ">"%char) then "&gt;"
       else String c EmptyString) +:+ escape_cdata rest
  end.

(** [_escape_attrib] *)
Fixpoint escape_attrib (text : string) : string :=
  match text with
  | EmptyString => EmptyString
  | String c rest =>
      (if decide (c = "&"%char) then "&amp;"
       else if decide (c = "<"%char) then "&lt;"
       else if decide (c = ">"%char) then "&gt;"
       else if decide (c = "034"%char) then "&quot;"
       else if decide (c = "013"%char) then "&#13;"
       else if decide (c = "010"%char) then "&#10;"
       else if decide (c = "009"%char) then "&#09;"
       else String c EmptyString) +:+ escape_attrib rest
  end.

Definition serialize_attr (kv : string * string) : string :=
  " " +:+ kv.1 +:+ "=" +:+ DQUOTE +:+ escape_attrib kv.2 +:+ DQUOTE.

Fixpoint concat_map {A} (f : A -> string) (l : list A) : string :=
  match l with
  | [] => EmptyString
  | x :: r => f x +:+ concat_map f r
  end.

(** [_serialize_xml] with [short_empty_elements=True]. *)
Fixpoint serialize (e : element) : string :=
  match e with
  | Element tag attrib text children =>
      "<" +:+ tag +:+ concat_map serialize_attr attrib
      +:+ (if PyStr.truthy_opt text || negb (is_empty children) then
             ">"
             +:+ (if PyStr.truthy_opt text then escape_cdata (default "" text) else "")
             +:+ concat_map serialize children
             +:+ "</" +:+ tag +:+ ">"
           else " />")
  end.

(** [ET.tostring(root, encoding="utf-8")]: no declaration is written for
    this encoding. *)
Definition tostring (root : element) : string := serialize root.

(** [ET.SubElement(parent, tag).text = text], as the child that is
    appended. *)
Definition sub_text (tag text : string) : element :=
  Element tag [] (Some text) [].

(** [elem.findall(tag)], [elem.find(tag)], [elem.findtext(tag)] *)
Definition findall (e : element) (tag : string) : list element :=
  filter (fun c => tag_of c = tag) (children_of e).

Definition find (e : element) (tag : string) : option element :=
  head (findall e tag).

Definition findtext (e : element) (tag : string) : option string :=
  (fun c => default "" (text_of c)) <$> find e tag.

End ET.

(** ** [build_rss] *)

(** [s or ""] *)
Definition or_empty (s : string) : string :=
  if PyStr.truthy s then s else "".

Definition XML_DECLARATION : string :=
  "<?xml version=" +:+ ET.DQUOTE +:+ "1.0" +:+ ET.DQUOTE +:+ " encoding="
  +:+ ET.DQUOTE +:+ "utf-8" +:+ ET.DQUOTE +:+ "?>" +:+ ET.NEWLINE.

(** What [build_rss] leaves behind: the bytes written to [OUTPUT_FILE] and
    the line printed. *)
Record rss_output : Type := RssOutput {
  file_bytes : string;
  printed : string
}.

Section BuildRss.

(** The wall clock: reading 0 is taken for [lastBuildDate], reading
    [i + 1] is the one available to the normalisation of item [i]. *)
Variable clock : nat -> datetime.

Definition channel_head : list ET.element :=
  [ET.sub_text "title" "CSIS — Analysis (custom RSS)";
   ET.sub_text "link" START_URL;
   ET.sub_text "description" "Auto-generated RSS feed for CSIS Analysis pages.";
   ET.sub_text "lastBuildDate" (strftime (now_utc (clock 0)) RSS_DATE_FORMAT);
   ET.sub_text "ttl" "60"].

(** The body of the loop: the [item] element appended to the channel. *)
Definition item_element (k : nat) (it : entry) : res ET.element :=
  pubdate ← normalize_pubdate (clock k) (pubdate_raw it);
  Ok (ET.Element "item" [] None
        [ET.sub_text "title" (title it);
         ET.sub_text "link" (link it);
         ET.sub_text "guid" (link it);
         ET.sub_text "description" (or_empty (summary it));
         ET.sub_text "pubDate" pubdate]).

Fixpoint add_items (k : nat) (channel : list ET.element) (items : list entry)
    : res (list ET.element) :=
  match items with
  | [] => Ok channel
  | it :: rest =>
      item ← item_element k it;
      add_items (S k) (channel ++ [item]) rest
  end.

Definition rss_tree (items : list entry) : res ET.element :=
  channel ← add_items 1 channel_head items;
  Ok (ET.Element "rss" [("version", "2.0")] None
        [ET.Element "channel" [] None channel]).

Definition build_rss (items : list entry) : res rss_output :=
  rss ← rss_tree items;
  let xml_bytes := ET.tostring rss in
  Ok {| file_bytes := XML_DECLARATION +:+ xml_bytes;
        printed := "Wrote " +:+ OUTPUT_FILE +:+ " with "
                   +:+ Chars.dec (Z.of_nat (length items)) +:+ " items" |}.

End BuildRss.

(** ** Reading the feed back

    The reader against which the round trip of the assembled document is
    stated (the program itself never reads the feed).  It reads a subset
    of XML 1.0 that holds the documents [build_rss] writes and accepts
    nothing that an XML 1.0 reader refuses: the declaration that
    [build_rss] writes, if any, then one element and nothing more; an
    element has an ASCII name that starts with a letter or an underscore,
    attributes in double quotes with distinct names, character data with
    the predefined entities, and child elements; [<t />] is an empty
    element.  Character data and attribute values are well-formed UTF-8
    and hold only the characters of the [Char] production; a carriage
    return in character data is read as a line feed (a CR LF pair as one
    line feed).  Anything else (names with a colon or a non-ASCII
    character, namespace declarations, comments, CDATA sections,
    character references, a [>] in character data, text between sibling
    elements, white space around the root element) is outside the subset
    and is refused. *)

Module Xml.
Import ET.

Definition is_name_start (c : ascii) : bool :=
  Chars.in_range "a" "z" c || Chars.in_range "A" "Z" c || bool_decide (c = "_"%char).

Definition is_name_char (c : ascii) : bool :=
  is_name_start c || Chars.in_range "0" "9" c
  || bool_decide (c = "-"%char) || bool_decide (c = "."%char).

Definition is_name (n : string) : bool :=
  starts_with is_name_start n && all_chars is_name_char n.

Fixpoint read_name (s : string) : string * string :=
  match s with
  | EmptyString => (EmptyString, EmptyString)
  | String c r =>
      if is_name_char c then
        let '(n, r') := read_name r in (String c n, r')
      else (EmptyString, s)
  end.

(** The [Char] production, on code points.  ([Utf8.decode] gives no
    surrogate and nothing above U+10FFFF.) *)
Definition is_xml_char (cp : Z) : bool :=
  ((cp =? 9) || (cp =? 10) || (cp =? 13)
   || ((32 <=? cp) && negb (cp =? 65534) && negb (cp =? 65535)))%Z.

(** After [&]: the character a predefined entity stands for and the
    number of characters of the reference still to skip. *)
Definition reference (s : string) : option (ascii * nat) :=
  if PyStr.has_prefix "amp;" s then Some ("&"%char, 4)
  else if PyStr.has_prefix "lt;" s then Some ("<"%char, 3)
  else if PyStr.has_prefix "gt;" s then Some (">"%char, 3)
  else if PyStr.has_prefix "quot;" s then Some ("034"%char, 5)
  else if PyStr.has_prefix "apos;" s then Some ("'"%char, 5)
  else None.

Definition starts_with_lf (s : string) : bool :=
  match s with String "010" _ => true | _ => false end.

(** Character data up to the next [<]: the text read and what follows.
    [skip] counts the bytes of a reference still to pass over, [copy] the
    bytes still to take of the character that was found well-formed. *)
Fixpoint read_text (skip copy : nat) (s : string) : option (string * string) :=
  match s with
  | EmptyString =>
      match skip, copy with
      | 0, 0 => Some (EmptyString, EmptyString)
      | _, _ => None
      end
  | String c r =>
      match skip, copy with
      | S k, _ => read_text k copy r
      | 0, S k => '(t, rest) ← read_text 0 k r; Some (String c t, rest)
      | 0, 0 =>
          if decide (c = "<"%char) then Some (EmptyString, s)
          else if decide (c = ">"%char) then None
          else if decide (c = "&"%char) then
            match reference r with
            | Some (ch, n) =>
                '(t, rest) ← read_text n 0 r; Some (String ch t, rest)
            | None => None
            end
          else if decide (c = "013"%char) then
            if starts_with_lf r then read_text 0 0 r
            else '(t, rest) ← read_text 0 0 r; Some (String "010" t, rest)
          else
            match Utf8.decode s with
            | Some (cp, n) =>
                if is_xml_char cp then
                  '(t, rest) ← read_text 0 (n - 1) r; Some (String c t, rest)
                else None
            | None => None
            end
      end
  end.

(** An attribute value up to the closing quote; white space is read as
    a space. *)
Fixpoint read_value (skip copy : nat) (s : string) : option (string * string) :=
  match s with
  | EmptyString => None
  | String c r =>
      match skip, copy with
      | S k, _ => read_value k copy r
      | 0, S k => '(t, rest) ← read_value 0 k r; Some (String c t, rest)
      | 0, 0 =>
          if decide (c = "034"%char) then Some (EmptyString, r)
          else if decide (c = "<"%char) then None
          else if decide (c = "&"%char) then
            match reference r with
            | Some (ch, n) =>
                '(t, rest) ← read_value n 0 r; Some (String ch t, rest)
            | None => None
            end
          else if decide (c = "013"%char) then
            if starts_with_lf r then read_value 0 0 r
            else '(t, rest) ← read_value 0 0 r; Some (String " " t, rest)
          else if bool_decide (c = "010"%char) || bool_decide (c = "009"%char) then
            '(t, rest) ← read_value 0 0 r; Some (String " " t, rest)
          else
            match Utf8.decode s with
            | Some (cp, n) =>
                if is_xml_char cp then
                  '(t, rest) ← read_value 0 (n - 1) r; Some (String c t, rest)
                else None
            | None => None
            end
      end
  end.

(** An attribute name: a name that declares no namespace. *)
Definition is_attribute_name (k : string) : bool :=
  is_name k && negb (bool_decide (k = "xmlns")).

(** The rest of a start tag after the name: the attributes, whether the
    element is empty, and what follows the tag.  An attribute name that
    comes twice is refused. *)
Fixpoint read_attrs (fuel : nat) (s : string)
    : option (list (string * string) * bool * string) :=
  match fuel with
  | 0 => None
  | S fuel' =>
      match s with
      | EmptyString => None
      | String c r =>
          if decide (c = ">"%char) then Some ([], false, r)
          else
            match PyStr.drop_prefix "/>" s with
            | Some r' => Some ([], true, r')
            | None =>
                if decide (c = " "%char) then
                  match PyStr.drop_prefix "/>" r with
                  | Some r' => Some ([], true, r')
                  | None =>
                      let '(k, r1) := read_name r in
                      if is_attribute_name k then
                        r2 ← PyStr.drop_prefix ("=" +:+ DQUOTE) r1;
                        '(v, r3) ← read_value 0 0 r2;
                        '(kvs, empty, r4) ← read_attrs fuel' r3;
                        if bool_decide (k ∈ kvs.*1) then None
                        else Some ((k, v) :: kvs, empty, r4)
                      else None
                  end
                else None
            end
      end
  end.

Definition starts_end_tag (s : string) : bool := PyStr.has_prefix "</" s.

Definition text_or_none (t : string) : option string :=
  if PyStr.truthy t then Some t else None.

Fixpoint parse_element (fuel : nat) (s : string) : option (element * string) :=
  match fuel with
  | 0 => None
  | S fuel' =>
      match s with
      | String "<" r =>
          let '(tag, r1) := read_name r in
          if is_name tag then
            '(attrs, empty, r2) ← read_attrs fuel' r1;
            if (empty : bool) then Some (Element tag attrs None [], r2)
            else
              '(txt, r3) ← read_text 0 0 r2;
              '(kids, r4) ← parse_children fuel' r3;
              r5 ← PyStr.drop_prefix ("</" +:+ tag +:+ ">") r4;
              Some (Element tag attrs (text_or_none txt) kids, r5)
          else None
      | _ => None
      end
  end
with parse_children (fuel : nat) (s : string) : option (list element * string) :=
  match fuel with
  | 0 => None
  | S fuel' =>
      if starts_end_tag s then Some ([], s)
      else
        '(e, r) ← parse_element fuel' s;
        '(es, r') ← parse_children fuel' r;
        Some (e :: es, r')
  end.

(** The document without the declaration that [build_rss] writes. *)
Definition prolog (s : string) : string :=
  match PyStr.drop_prefix XML_DECLARATION s with
  | Some body => body
  | None => s
  end.

(** The root element of a document. *)
Definition parse (document : string) : option element :=
  let body := prolog document in
  '(root, rest) ← parse_element (String.length body) body;
  match rest with
  | EmptyString => Some root
  | String _ _ => None
  end.

End Xml.

(** The entries of a parsed feed: for each [item] of the channel, its
    title, link, guid, description and pubDate. *)
Record feed_entry : Type := FeedEntry {
  entry_title : option string;
  entry_link : option string;
  entry_guid : option string;
  entry_description : option string;
  entry_pubDate : option string
}.

Definition feed_entry_of (item : ET.element) : feed_entry :=
  {| entry_title := ET.findtext item "title";
     entry_link := ET.findtext item "link";
     entry_guid := ET.findtext item "guid";
     entry_description := ET.findtext item "description";
     entry_pubDate := ET.findtext item "pubDate" |}.

Definition feed_entries (root : ET.element) : list feed_entry :=
  match ET.find root "channel" with
  | Some channel => feed_entry_of <$> ET.findall channel "item"
  | None => []
  end.

(** The normalised publication date of a record, with clock reading [k]
    at hand. *)
Definition pubdate_text (clock : nat -> datetime) (k : nat) (it : entry) : string :=
  match normalize_pubdate (clock k) (pubdate_raw it) with
  | Ok s => s
  | Raised => ""
  end.

(** What the round trip is expected to give for a record normalised with
    clock reading [k], and for a list of records starting at reading [k]. *)
Definition expected_entry (clock : nat -> datetime) (k : nat) (it : entry) : feed_entry :=
  {| entry_title := Some (title it);
     entry_link := Some (link it);
     entry_guid := Some (link it);
     entry_description := Some (summary it);
     entry_pubDate := Some (pubdate_text clock k it) |}.

Fixpoint expected_entries (clock : nat -> datetime) (k : nat) (items : list entry)
    : list feed_entry :=
  match items with
  | [] => []
  | it :: rest => expected_entry clock k it :: expected_entries clock (S k) rest
  end.

(** The [item] elements [build_rss] appends for a list of records. *)
Fixpoint item_elements (clock : nat -> datetime) (k : nat) (items : list entry)
    : list ET.element :=
  match items with
  | [] => []
  | it :: rest =>
      ET.Element "item" [] None
        [ET.sub_text "title" (title it);
         ET.sub_text "link" (link it);
         ET.sub_text "guid" (link it);
         ET.sub_text "description" (or_empty (summary it));
         ET.sub_text "pubDate" (pubdate_text clock k it)]
      :: item_elements clock (S k) rest
  end.

(** The characters that XML character data carries unchanged: tab, line
    feed and the characters from U+0020 on, except U+FFFE and U+FFFF; no
    carriage return, no other control character. *)
Definition text_char (cp : Z) : bool :=
  ((cp =? 9) || (cp =? 10)
   || ((32 <=? cp) && negb (cp =? 65534) && negb (cp =? 65535)))%Z.

(** Text made of such characters, in well-formed UTF-8.  [copy] counts
    the continuation bytes still to pass of the character being read. *)
Fixpoint xml_safe_from (copy : nat) (s : string) : bool :=
  match s with
  | EmptyString => bool_decide (copy = 0)
  | String c r =>
      match copy with
      | S k => Utf8.is_cont c && xml_safe_from k r
      | 0 =>
          match Utf8.decode s with
          | Some (cp, n) => text_char cp && xml_safe_from (n - 1) r
          | None => false
          end
      end
  end.

Definition xml_safe (s : string) : bool := xml_safe_from 0 s.

Definition entry_xml_safe (it : entry) : bool :=
  xml_safe (title it) && xml_safe (link it) && xml_safe (summary it).

(** *** Conditions under which a tree is read back as written *)

(** Names that an XML reader accepts without a namespace: ASCII, a
    letter or an underscore first. *)
Definition wf_name (n : string) : bool := Xml.is_name n.

Definition printable_ascii (c : ascii) : bool :=
  (32 <=? Chars.code c)%Z && (Chars.code c <=? 126)%Z.

(** Attributes that declare no namespace, with values of printable ASCII
    characters (they are written without a character reference). *)
Definition wf_attr (kv : string * string) : bool :=
  Xml.is_attribute_name kv.1 && all_chars printable_ascii kv.2.

(** Trees whose serialisation is well-formed XML: names as above, no
    attribute twice, text that XML carries unchanged. *)
Inductive wf_element : ET.element -> Prop :=
| wf_element_intro tag attrib text children :
    wf_name tag = true ->
    Forall (fun kv => wf_attr kv = true) attrib ->
    NoDup attrib.*1 ->
    xml_safe (default "" text) = true ->
    Forall wf_element children ->
    wf_element (ET.Element tag attrib text children).

(** The tree as the reader returns it: an empty text is read as no text. *)
Fixpoint canon (e : ET.element) : ET.element :=
  match e with
  | ET.Element tag attrib text children =>
      ET.Element tag attrib
        (match text with Some t => Xml.text_or_none t | None => None end)
        (List.map canon children)
  end.

(** Fuel that suffices to read an element. *)
Fixpoint weight (e : ET.element) : nat :=
  match e with
  | ET.Element _ attrib _ children =>
      3 + length attrib + list_sum (List.map (fun c => S (weight c)) children)
  end.

(** The entries read back from what [build_rss] writes. *)
Definition read_back (clock : nat -> datetime) (items : list entry)
    : option (list feed_entry) :=
  match build_rss clock items with
  | Ok out => feed_entries <$> Xml.parse (file_bytes out)
  | Raised => None
  end.

(** ** [main] *)

(** What [fetch_html] does: it raises (a transport error or a non-2xx
    status), the exception printing as [e], or it returns the page text. *)
Inductive fetched : Type :=
| FetchRaised (e : string)
| FetchReturned (text : string).

(** What a run leaves behind: the lines printed, the content written to
    [OUTPUT_FILE] if any, and the exit status of the process. *)
Record run : Type := Run {
  stdout : list string;
  written : option string;
  exit_status : Z
}.

Section Main.

Variable fetch_html : string -> fetched.
Variable html_parser : string -> res (list node).
Variable urljoin : string -> string -> res string.
Variable clock : nat -> datetime.

(** What an exception that nothing catches leaves behind: the traceback
    goes to standard error, nothing is printed on standard output, nothing
    is written, and the status is 1. *)
Definition uncaught : run :=
  {| stdout := []; written := None; exit_status := 1 |}.

(** [sys.exit(1)] ends the run with status 1; a run that reaches the end
    of [main] has status 0.  Only the call of [fetch_html] is inside a
    [try]: an exception of [parse_articles] or [build_rss] is not
    caught. *)
Definition main : run :=
  match fetch_html START_URL with
  | FetchRaised e =>
      {| stdout := ["ERROR fetching: " +:+ e]; written := None; exit_status := 1 |}
  | FetchReturned html =>
      match parse_articles html_parser urljoin html with
      | Raised => uncaught
      | Ok items =>
          if is_empty items then
            {| stdout := ["No items found. Exiting."]; written := None;
               exit_status := 1 |}
          else
            match build_rss clock items with
            | Ok out =>
                {| stdout := [printed out]; written := Some (file_bytes out);
                   exit_status := 0 |}
            | Raised => uncaught
            end
      end
  end.

End Main.

(** ** Character classes and constants used in the statements below *)

(** The characters a rendered date is made of: digits, letters, space,
    comma, colon, sign and dot. *)
Definition date_char (c : ascii) : bool :=
  Chars.is_digit c || Chars.in_range "A" "Z" c || Chars.in_range "a" "z" c
  || bool_decide (c ∈ [" "; ","; ":"; "+"; "-"; "."]%char).

(** The ASCII characters for which [str.isspace] holds. *)
Definition ascii_space (c : ascii) : bool :=
  bool_decide (c ∈ ["009"; "010"; "011"; "012"; "013"; "028"; "029"; "030"; "031"; " "]%char).

(** The classes named by the selector
    [.contributors, .credit, .byline, .submitted, .date]. *)
Definition DATE_CLASSES : list string :=
  ["contributors"; "credit"; "byline"; "submitted"; "date"].

(** ** Sample inputs used by the examples below *)

Definition sample_entry (t l : string) : entry :=
  {| title := t; link := l; summary := ""; pubdate_raw := None |}.

Definition sample_anchor (href : string) (text : list node) : node :=
  Tag "a" [("href", href)] [] text.

Definition sample_page : located :=
  Soup.document
    [Tag "div" [] ["views-row"]
       [Tag "article" [] [] [sample_anchor "/other" [Text "Other"]];
        Tag "article" [] ["article-search-listing"]
          [Tag "h3" [] [] [sample_anchor "/analysis/one" [Text " One "]]]]].

(** A stand-in for [urljoin] on references that start with a slash: the
    reference is appended to the base. *)
Definition sample_urljoin (base href : string) : res string := Ok (base +:+ href).


(** [<article><p>no link here</p></article>] *)
Definition anchorless_article : located :=
  {| ancestors := []; here := Tag "article" [] [] [Tag "p" [] [] [Text "no link here"]] |}.

(** [<article><h3><a> One </a></h3></article>]: an anchor without [href]. *)
Definition hrefless_article : located :=
  {| ancestors := [];
     here := Tag "article" [] [] [Tag "h3" [] [] [Tag "a" [] [] [Text " One "]]] |}.

Definition titled_article : located :=
  {| ancestors := [];
     here := Tag "article" [] []
       [Tag "h3" [] [] [sample_anchor "/analysis/one" [Text " One "]]] |}.

Definition sample_clock (n : nat) : datetime :=
  {| year := 2026; month := 11; day := 4; hour := 12; minute := 30;
     second := Z.of_nat n; microsecond := 0; tzinfo := None |}.

Definition sample_items : list entry :=
  [{| title := "Tariffs & <trade>"; link := "https://www.csis.org/analysis/one";
      summary := ""; pubdate_raw := Some "2024-03-05" |};
   {| title := "Second"; link := "https://www.csis.org/analysis/two";
      summary := "A teaser"; pubdate_raw := None |}].

(** A title with U+FFFF inside (the bytes EF BF BF). *)
Definition nonchar_entry : entry :=
  {| title := String "a" (String "239" (String "191" (String "191" "b")));
     link := "https://www.csis.org/x";
     summary := ""; pubdate_raw := Some "2024-03-05" |}.

(** A title with a carriage return, and one with a form feed, inside. *)
Definition cr_entry : entry :=
  {| title := String "a" (String "013" "b"); link := "https://www.csis.org/x";
     summary := ""; pubdate_raw := Some "2024-03-05" |}.

Definition ff_entry : entry :=
  {| title := String "a" (String "012" "b"); link := "https://www.csis.org/x";
     summary := ""; pubdate_raw := Some "2024-03-05" |}.

(** A page with one titled article, as a parser would hand it over. *)
Definition sample_parser (html : string) : res (list node) :=
  if PyStr.truthy html then Ok [here titled_article] else Ok [].

(** A stand-in for the parser on the page [<![x[], an unclosed marked
    section, which [BeautifulSoup] rejects with [ParserRejectedMarkup]. *)
Definition rejecting_parser (html : string) : res (list node) :=
  if decide (html = "<![x[") then Raised else sample_parser html.

(** [<article><script class="teaser">var x</script><p>text</p></article>]:
    the element that the summary selectors reach first is a [script]. *)
Definition script_teaser : node :=
  Tag "script" [] ["teaser"] [Special Script "var x"].

Definition script_teaser_article : located :=
  {| ancestors := [];
     here := Tag "article" [] [] [script_teaser; Tag "p" [] [] [Text "text"]] |}.

(** A stand-in for [urljoin] that raises on a reference whose host opens
    a bracket it does not close, as [urljoin] does ([ValueError]: invalid
    IPv6 URL), and appends any other reference to the base. *)
Definition bracket_urljoin (base href : string) : res string :=
  if PyStr.has_prefix "//[" href then Raised else Ok (base +:+ href).

(** [<article><a href="//[x">Bad</a></article>] *)
Definition bracket_article : located :=
  {| ancestors := []; here := Tag "article" [] [] [sample_anchor "//[x" [Text "Bad"]] |}.

(* ===================================================================== *)
(** * Part II: lemmas and theorems *)
(* ===================================================================== *)

(** ** Deduplicator *)

Lemma first_occurrences_from_sublist earlier l :
  sublist (first_occurrences_from earlier l) l.
Proof.
  revert earlier; induction l as [|r l IH]; intros earlier; simpl.
  - constructor.
  - case_decide; [apply sublist_cons | apply sublist_skip]; apply IH.
Qed.

Lemma first_occurrences_from_links earlier l x :
  x ∈ link <$> first_occurrences_from earlier l ↔ x ∈ link <$> l ∧ x ∉ earlier.
Proof.
  revert earlier; induction l as [|r l IH]; intros earlier; simpl.
  - rewrite elem_of_nil. tauto.
  - case_decide as Hin; rewrite ?fmap_cons, ?elem_of_cons, IH, ?elem_of_cons.
    + split; [tauto|]. intros [[->|?] ?]; tauto.
    + destruct (decide (x = link r)) as [->|]; tauto.
Qed.

Lemma first_occurrences_from_NoDup earlier l :
  NoDup (link <$> first_occurrences_from earlier l).
Proof.
  revert earlier; induction l as [|r l IH]; intros earlier; simpl.
  - constructor.
  - case_decide; [apply IH|].
    rewrite fmap_cons. constructor; [|apply IH].
    rewrite first_occurrences_from_links. set_solver.
Qed.

Lemma size_fresh_difference (x : string) (L E : gset string) :
  x ∉ E → size (({[x]} ∪ L) ∖ E) = S (size (L ∖ ({[x]} ∪ E))).
Proof.
  intros HE.
  replace (({[x]} ∪ L) ∖ E) with ({[x]} ∪ L ∖ ({[x]} ∪ E)).
  - rewrite size_union, size_singleton; [done | set_solver].
  - apply set_eq. intros y.
    rewrite !elem_of_difference, !elem_of_union, elem_of_difference, !elem_of_union,
      elem_of_singleton.
    destruct (decide (y = x)) as [->|]; tauto.
Qed.

Lemma first_occurrences_from_length earlier l :
  length (first_occurrences_from earlier l)
  = size ((list_to_set (link <$> l) : gset string) ∖ list_to_set earlier).
Proof.
  revert earlier; induction l as [|r l IH]; intros earlier; simpl.
  - replace (∅ ∖ list_to_set earlier : gset string) with (∅ : gset string) by set_solver.
    by rewrite size_empty.
  - case_decide as Hin.
    + rewrite IH. f_equal. apply set_eq. intros x.
      rewrite !elem_of_difference, elem_of_union, elem_of_singleton, !elem_of_list_to_set.
      split; [tauto|]. intros [[->|?] ?]; [done|tauto].
    + simpl. rewrite IH, size_fresh_difference; [done|].
      by rewrite elem_of_list_to_set.
Qed.

Lemma dedup_loop_fst max_count results : ∀ earlier seen dedup,
  seen = list_to_set earlier →
  length dedup < max_count →
  (dedup_loop max_count seen dedup results).1
  = take max_count (dedup ++ first_occurrences_from earlier results).
Proof.
  induction results as [|it rest IH]; intros earlier seen dedup Hseen Hlen; simpl.
  - rewrite app_nil_r, take_ge; [done | lia].
  - assert (Hmem : link it ∈ seen ↔ link it ∈ earlier)
      by (subst seen; apply elem_of_list_to_set).
    destruct (decide (link it ∈ seen)) as [Hin|Hin];
      destruct (decide (link it ∈ earlier)) as [Hin'|Hin']; try tauto.
    + by apply IH.
    +
      destruct (decide (max_count ≤ length (dedup ++ [it]))) as [Hfull|Hroom]; simpl.
      * transitivity (take max_count
          ((dedup ++ [it]) ++ first_occurrences_from (link it :: earlier) rest)).
        -- symmetry. apply take_app_length'.
           rewrite length_app in *; simpl in *; lia.
        -- by rewrite <- app_assoc.
      * rewrite length_app in Hroom; simpl in Hroom.
        rewrite (IH (link it :: earlier)).
        -- by rewrite <- app_assoc.
        -- subst seen. apply set_eq. intros x.
           rewrite elem_of_union, elem_of_singleton, !elem_of_list_to_set, elem_of_cons.
           tauto.
        -- rewrite length_app; simpl; lia.
Qed.

Lemma dedupe_and_limit_take max_count results :
  0 < max_count →
  dedupe_and_limit max_count results = take max_count (first_occurrences results).
Proof.
  intros Hpos. unfold dedupe_and_limit, first_occurrences.
  by rewrite (dedup_loop_fst max_count results []).
Qed.

Lemma dedup_loop_scan max_count results : ∀ seen dedup,
  length dedup < max_count →
  ∃ scanned,
    results = scanned ++ (dedup_loop max_count seen dedup results).2 ∧
    (length (dedup_loop max_count seen dedup results).1 = max_count →
       last scanned = last (dedup_loop max_count seen dedup results).1) ∧
    (length (dedup_loop max_count seen dedup results).1 < max_count →
       (dedup_loop max_count seen dedup results).2 = []).
Proof.
  induction results as [|it rest IH]; intros seen dedup Hlen; simpl.
  - exists []. split; [done|]. split; [lia | done].
  - destruct (decide (link it ∈ seen)) as [Hin|Hin].
    + destruct (IH seen dedup Hlen) as (scanned & Heq & Hfull & Hshort).
      exists (it :: scanned). split; [by rewrite Heq at 1|]. split; [|done].
      intros Hl. specialize (Hfull Hl).
      destruct scanned as [|s scanned]; [|done].
      simpl in Hfull.
      destruct ((dedup_loop max_count seen dedup rest).1) as [|d ds] eqn:E;
        [simpl in Hl; lia|].
      exfalso. simpl in Heq.
      assert (Hun : (dedup_loop max_count seen dedup rest).2 = rest) by done.
      clear Heq Hshort.
      revert Hfull; by destruct (last (d :: ds)) eqn:El;
        [|apply last_None in El].
    + destruct (decide (max_count ≤ length (dedup ++ [it]))) as [Hfull|Hroom]; simpl.
      * exists [it]. split; [done|]. split.
        -- intros _. by rewrite last_snoc.
        -- rewrite length_app in *; simpl in *; lia.
      * assert (Hlen' : length (dedup ++ [it]) < max_count) by lia.
        destruct (IH (seen ∪ {[link it]}) (dedup ++ [it]) Hlen')
          as (scanned & Heq & Hfull & Hshort).
        exists (it :: scanned). split; [by rewrite Heq at 1|]. split; [|done].
        intros Hl. specialize (Hfull Hl).
        destruct scanned as [|s scanned]; [|done].
        simpl in Hfull. symmetry in Hfull. apply last_None in Hfull.
        rewrite Hfull in Hl. simpl in Hl. lia.
Qed.

Lemma first_occurrences_first earlier l r :
  r ∈ first_occurrences_from earlier l →
  ∃ pre post, l = pre ++ r :: post ∧ link r ∉ link <$> pre.
Proof.
  revert earlier; induction l as [|x l IH]; intros earlier; simpl.
  - by rewrite elem_of_nil.
  - destruct (decide (link x ∈ earlier)) as [Hin|Hin].
    + intros Hr. destruct (decide (link r = link x)) as [Heq|Hne].
      * exfalso. apply (list_elem_of_fmap_2 link) in Hr.
        apply first_occurrences_from_links in Hr. rewrite Heq in Hr. tauto.
      * destruct (IH _ Hr) as (pre & post & -> & Hfresh).
        exists (x :: pre), post. split; [done|].
        rewrite fmap_cons, elem_of_cons. tauto.
    + rewrite elem_of_cons. intros [->|Hr].
      * exists [], l. split; [done|]. apply not_elem_of_nil.
      * destruct (decide (link r = link x)) as [Heq|Hne].
        -- exfalso. apply (list_elem_of_fmap_2 link) in Hr.
           apply first_occurrences_from_links in Hr. rewrite Heq, elem_of_cons in Hr. tauto.
        -- destruct (IH _ Hr) as (pre & post & -> & Hfresh).
           exists (x :: pre), post. split; [done|].
           rewrite fmap_cons, elem_of_cons. tauto.
Qed.

(** C1.  With a positive [max_count], the dedup loop returns an
    order-preserving subsequence of its input in which no two records share
    a link; its length is the smaller of the number of distinct links and
    [max_count]; it is the first [max_count] first occurrences, every kept
    record being the first record of the input with its link; and the scan
    stops at the record that fills the quota: the input splits into a
    scanned prefix and the part never reached, and when [max_count] records
    were kept the scanned prefix ends with the last kept record. *)
Theorem dedupe_and_limit_spec (max_count : nat) (results : list entry) :
  0 < max_count →
  let out := dedupe_and_limit max_count results in
  sublist out results ∧
  NoDup (link <$> out) ∧
  length out = min (distinct_links results) max_count ∧
  out = take max_count (first_occurrences results) ∧
  (∀ r, r ∈ out → ∃ pre post, results = pre ++ r :: post ∧ link r ∉ link <$> pre) ∧
  ∃ scanned,
    results = scanned ++ dedupe_unscanned max_count results ∧
    (length out = max_count → last scanned = last out) ∧
    (length out < max_count → dedupe_unscanned max_count results = []).
Proof.
  intros Hpos out. subst out.
  rewrite (dedupe_and_limit_take _ _ Hpos).
  split; [|split; [|split; [|split; [|split]]]].
  - etrans; [apply sublist_take | apply first_occurrences_from_sublist].
  - rewrite fmap_take.
    apply (sublist_NoDup _ (link <$> first_occurrences results));
      [apply first_occurrences_from_NoDup | apply sublist_take].
  - rewrite length_take. unfold first_occurrences, distinct_links.
    rewrite first_occurrences_from_length. simpl.
    rewrite difference_empty_L. lia.
  - done.
  - intros r Hr. apply (first_occurrences_first []).
    apply elem_of_take in Hr as (i & Hi & _).
    by apply list_elem_of_lookup_2 in Hi.
  - rewrite <- (dedupe_and_limit_take _ _ Hpos).
    apply (dedup_loop_scan max_count results ∅ []). simpl; lia.
Qed.

Lemma dedupe_and_limit_spec_witness :
  0 < 2 ∧
  dedupe_and_limit 2
    [sample_entry "a" "/1"; sample_entry "b" "/1"; sample_entry "c" "/2";
     sample_entry "d" "/3"]
  = take 2 (first_occurrences
    [sample_entry "a" "/1"; sample_entry "b" "/1"; sample_entry "c" "/2";
     sample_entry "d" "/3"]).
Proof.
  split; [lia|].
  apply (dedupe_and_limit_spec 2
    [sample_entry "a" "/1"; sample_entry "b" "/1"; sample_entry "c" "/2";
     sample_entry "d" "/3"]). lia.
Defined.

Example dedupe_example :
  dedupe_and_limit 2
    [sample_entry "a" "/1"; sample_entry "b" "/1"; sample_entry "c" "/2";
     sample_entry "d" "/3"]
  = [sample_entry "a" "/1"; sample_entry "c" "/2"]
  ∧ dedupe_unscanned 2
    [sample_entry "a" "/1"; sample_entry "b" "/1"; sample_entry "c" "/2";
     sample_entry "d" "/3"]
  = [sample_entry "d" "/3"].
Proof. by vm_compute. Qed.

Lemma dedup_loop_bound max_count results : ∀ seen dedup,
  length dedup < max max_count 1 →
  length (dedup_loop max_count seen dedup results).1 ≤ max max_count 1.
Proof.
  induction results as [|it rest IH]; intros seen dedup Hlen; simpl.
  - lia.
  - destruct (decide (link it ∈ seen)); [by apply IH|].
    destruct (decide (max_count ≤ length (dedup ++ [it]))) as [Hfull|Hroom]; simpl.
    + rewrite length_app in *; simpl in *; lia.
    + apply IH. rewrite length_app in *; simpl in *; lia.
Qed.

(** C9.  With [max_count = 0] the limit test, made only after a record is
    appended, lets the first record through: a non-empty input (whose first
    record necessarily has a fresh link, [seen] being empty) yields exactly
    that record, so the output has length 1, not 0; in general the output
    length is bounded by [max max_count 1]. *)
Theorem dedupe_and_limit_zero (r : entry) (rest : list entry) (max_count : nat)
    (results : list entry) :
  dedupe_and_limit 0 (r :: rest) = [r] ∧
  length (dedupe_and_limit 0 (r :: rest)) = 1 ∧
  ¬ length (dedupe_and_limit 0 (r :: rest)) ≤ 0 ∧
  length (dedupe_and_limit max_count results) ≤ max max_count 1.
Proof.
  assert (H0 : dedupe_and_limit 0 (r :: rest) = [r]).
  { unfold dedupe_and_limit. simpl.
    destruct (decide (link r ∈ (∅ : gset string))) as [Hin|_]; [|done].
    by apply not_elem_of_empty in Hin. }
  rewrite H0. simpl. split; [done|]. split; [done|]. split; [lia|].
  apply dedup_loop_bound. simpl; lia.
Qed.

(** ** Article selector *)

Lemma filter_nil_iff {A} (P : A → Prop) `{!∀ x, Decision (P x)} (l : list A) :
  filter P l = [] ↔ Forall (λ x, ¬ P x) l.
Proof.
  induction l as [|x l IH]; simpl.
  - split; [constructor | done].
  - rewrite filter_cons. destruct (decide (P x)) as [HP|HP].
    + split; [done|]. intros HF. by inversion HF.
    + rewrite IH. split; [by constructor|]. intros HF. by inversion HF.
Qed.

Lemma matches_name_article sel (d : located) :
  sel = "article.article-search-listing" ∨ sel = ".views-row article" →
  Soup.matches sel d = true → Soup.name_of (here d) = Some "article".
Proof.
  intros [-> | ->]; unfold Soup.matches;
    [change (Soup.parse_selector "article.article-search-listing")
       with [[Soup.Compound (Some "article") ["article-search-listing"]]]
    |change (Soup.parse_selector ".views-row article")
       with [[Soup.Compound None ["views-row"]; Soup.Compound (Some "article") []]]];
    unfold Soup.match_complex; simpl; destruct (here d) as [| |nm ats cl ch]; simpl;
    try done; case_bool_decide; subst; try done.
Qed.

Lemma select_articles_names (soup c : located) :
  c ∈ select_articles soup → Soup.name_of (here c) = Some "article".
Proof.
  unfold select_articles.
  destruct (Soup.select soup "article.article-search-listing") as [|x1 l1] eqn:E1; simpl.
  - destruct (Soup.select soup ".views-row article") as [|x2 l2] eqn:E2; simpl.
    + unfold Soup.find_all. rewrite list_elem_of_filter. tauto.
    + rewrite <- E2. unfold Soup.select. rewrite list_elem_of_filter.
      intros [Hm _]. exact (matches_name_article _ _ (or_intror eq_refl) Hm).
  - rewrite <- E1. unfold Soup.select. rewrite list_elem_of_filter.
    intros [Hm _]. exact (matches_name_article _ _ (or_introl eq_refl) Hm).
Qed.

(** C2.  The selector returns exactly the matches of the first of
    S1 ([article.article-search-listing]), S2 ([.views-row article]),
    S3 (every [article] element) that has a match: the matches of S1 when
    there are any, else those of S2 when there are any, else those of S3
    (the empty sequence when all three are empty).  The result is one of
    the three match lists, never a mixture, and consists of [article]
    elements. *)
Theorem select_articles_first_strategy (soup : located) :
  let s1 := Soup.select soup "article.article-search-listing" in
  let s2 := Soup.select soup ".views-row article" in
  let s3 := Soup.find_all soup "article" in
  (s1 ≠ [] → select_articles soup = s1) ∧
  (s1 = [] → s2 ≠ [] → select_articles soup = s2) ∧
  (s1 = [] → s2 = [] → select_articles soup = s3) ∧
  (s1 = [] → s2 = [] → s3 = [] → select_articles soup = []) ∧
  (∀ c, c ∈ select_articles soup → Soup.name_of (here c) = Some "article").
Proof.
  intros s1 s2 s3. unfold select_articles. fold s1 s2 s3.
  repeat split.
  - intros H1. destruct s1; [done|]. reflexivity.
  - intros -> H2. simpl. destruct s2; [done|]. reflexivity.
  - intros -> ->. reflexivity.
  - intros -> -> ->. reflexivity.
  - apply select_articles_names.
Qed.

Lemma select_articles_first_strategy_witness :
  select_articles sample_page
  = Soup.select sample_page "article.article-search-listing"
  ∧ length (select_articles sample_page) = 1
  ∧ length (Soup.select sample_page ".views-row article") = 2.
Proof.
  split; [|by vm_compute].
  apply (select_articles_first_strategy sample_page). by vm_compute.
Defined.

(** ** Field extractor *)




Section ExtractorProps.

Variable urljoin : string → string → res string.

Lemma extract_fold (articles : list located) (acc : list entry) :
  fold_left (extract_step urljoin) articles acc = acc ++ flat_map (emitted urljoin) articles.
Proof.
  revert acc; induction articles as [|a l IH]; intros acc; simpl.
  - by rewrite app_nil_r.
  - rewrite IH. unfold extract_step, emitted.
    destruct (try_except _ _) as [[e|]|]; simpl; by rewrite <- ?app_assoc, ?app_nil_r.
Qed.

Lemma extract_all_flat_map (articles : list located) :
  extract_all urljoin articles = flat_map (emitted urljoin) articles.
Proof. unfold extract_all. by rewrite extract_fold. Qed.

Lemma extract_all_app (l1 l2 : list located) :
  extract_all urljoin (l1 ++ l2) = extract_all urljoin l1 ++ extract_all urljoin l2.
Proof. by rewrite !extract_all_flat_map, flat_map_app. Qed.

Lemma emitted_inv (a : located) (e : entry) :
  e ∈ emitted urljoin a →
  ∃ a_tag href,
    chosen_anchor a = Some a_tag ∧
    Soup.get a_tag "href" = Some href ∧ href ≠ "" ∧
    urljoin BASE_URL href = Ok (link e) ∧
    title e = title_of a_tag ∧
    summary e = summary_of a ∧ pubdate_raw e = pubdate_of a.
Proof.
  unfold emitted, candidate_body.
  destruct (chosen_anchor a) as [a_tag|]; simpl; [|by rewrite elem_of_nil].
  destruct (Soup.get a_tag "href") as [href|] eqn:Hh; simpl; [|by rewrite elem_of_nil].
  destruct href as [|c href]; simpl; [by rewrite elem_of_nil|].
  destruct (urljoin BASE_URL (String c href)) as [l|] eqn:Hj; simpl;
    [|by rewrite elem_of_nil].
  rewrite list_elem_of_singleton. intros ->. simpl.
  exists a_tag, (String c href). by repeat split.
Qed.

Lemma extract_all_inv (articles : list located) (e : entry) :
  e ∈ extract_all urljoin articles →
  ∃ a, a ∈ articles ∧ e ∈ emitted urljoin a.
Proof.
  rewrite extract_all_flat_map. intros He.
  apply list_elem_of_In, in_flat_map in He as (a & Ha & He).
  exists a. by rewrite !list_elem_of_In.
Qed.

End ExtractorProps.

Lemma matches_name_a sel (d : located) :
  sel = "h3 a" ∨ sel = "a" →
  Soup.matches sel d = true → Soup.name_of (here d) = Some "a".
Proof.
  intros [-> | ->]; unfold Soup.matches;
    [change (Soup.parse_selector "h3 a")
       with [[Soup.Compound (Some "h3") []; Soup.Compound (Some "a") []]]
    |change (Soup.parse_selector "a") with [[Soup.Compound (Some "a") []]]];
    unfold Soup.match_complex; simpl; destruct (here d) as [| |nm ats cl ch]; simpl;
    try done; case_bool_decide; subst; try done.
Qed.

Lemma select_nil_of_find_all_nil (a : located) (sel name : string) :
  (∀ d, Soup.matches sel d = true → Soup.name_of (here d) = Some name) →
  Soup.find_all a name = [] → Soup.select a sel = [].
Proof.
  intros Hsel Hnone. unfold Soup.find_all in Hnone. unfold Soup.select, Soup.descendant_tags.
  rewrite (filter_nil_iff _) in Hnone. apply (filter_nil_iff _).
  rewrite Forall_forall in *. intros d Hd Hm.
  apply list_elem_of_filter in Hd as [_ Hd]. by apply (Hnone d Hd), Hsel.
Qed.

Lemma chosen_anchor_none (a : located) :
  Soup.find_all a "a" = [] → chosen_anchor a = None.
Proof.
  intros Hnone. unfold chosen_anchor, Soup.select_one.
  rewrite (select_nil_of_find_all_nil a "h3 a" "a"), (select_nil_of_find_all_nil a "a" "a");
    try done; intros d; apply matches_name_a; auto.
Qed.


Section ExtractorClaims.

Variable urljoin : string → string → res string.

(** C5.  A candidate that contains no anchor element, or whose chosen
    anchor carries no [href] attribute, makes the loop body take the
    [continue] path without raising, contributes no record, and leaves
    the processing of the other candidates as it is; and every record
    the extractor emits comes from a candidate whose chosen anchor has a
    non-empty [href] that resolved to the record's link, so no record
    lacks its link. *)
Theorem extractor_skips_candidate_without_href (a : located)
    (before after : list located) :
  Soup.find_all a "a" = [] ∨
    (∃ a_tag, chosen_anchor a = Some a_tag ∧ Soup.get a_tag "href" = None) →
  candidate_body urljoin a = Ok Continue ∧
  emitted urljoin a = [] ∧
  extract_all urljoin (before ++ a :: after)
    = extract_all urljoin before ++ extract_all urljoin after ∧
  (∀ articles e, e ∈ extract_all urljoin articles →
     ∃ c a_tag href, c ∈ articles ∧ chosen_anchor c = Some a_tag ∧
       Soup.get a_tag "href" = Some href ∧ href ≠ "" ∧
       urljoin BASE_URL href = Ok (link e)).
Proof.
  intros Hskip.
  assert (Hbody : candidate_body urljoin a = Ok Continue).
  { unfold candidate_body. destruct Hskip as [Hnone | (a_tag & -> & ->)]; [|done].
    by rewrite chosen_anchor_none. }
  assert (Hemit : emitted urljoin a = []) by (unfold emitted; by rewrite Hbody).
  split; [done|]. split; [done|]. split.
  - rewrite (extract_all_app _ before (a :: after)).
    rewrite !extract_all_flat_map. simpl. by rewrite Hemit.
  - intros articles e He.
    apply extract_all_inv in He as (c & Hc & He).
    apply emitted_inv in He as (a_tag & href & ? & ? & ? & ? & _).
    by exists c, a_tag, href.
Qed.


End ExtractorClaims.

Lemma extractor_skips_candidate_without_href_witness :
  candidate_body sample_urljoin anchorless_article = Ok Continue ∧
  candidate_body sample_urljoin hrefless_article = Ok Continue ∧
  extract_all sample_urljoin [titled_article; hrefless_article; titled_article]
  = extract_all sample_urljoin [titled_article] ++ extract_all sample_urljoin [titled_article].
Proof.
  split; [|split].
  - apply (extractor_skips_candidate_without_href sample_urljoin anchorless_article [] []).
    left. by vm_compute.
  - apply (extractor_skips_candidate_without_href sample_urljoin hrefless_article [] []).
    right. eexists. split; by vm_compute.
  - apply (extractor_skips_candidate_without_href sample_urljoin hrefless_article
             [titled_article] [titled_article]).
    right. eexists. split; by vm_compute.
Defined.



(** ** Strings *)

Lemma string_app_cons (c : ascii) (s t : string) : String c s +:+ t = String c (s +:+ t).
Proof. reflexivity. Qed.

Lemma string_app_nil_l (s : string) : "" +:+ s = s.
Proof. reflexivity. Qed.

Lemma string_app_assoc (s1 s2 s3 : string) : (s1 +:+ s2) +:+ s3 = s1 +:+ (s2 +:+ s3).
Proof.
  induction s1 as [|c s1 IH]; [done|]. by rewrite !string_app_cons, IH.
Qed.

Lemma string_app_nil_r (s : string) : s +:+ "" = s.
Proof. induction s as [|c s IH]; [done|]. by rewrite string_app_cons, IH. Qed.

Lemma string_app_length (s1 s2 : string) :
  String.length (s1 +:+ s2) = String.length s1 + String.length s2.
Proof.
  induction s1 as [|c s1 IH]; [done|]. rewrite string_app_cons. simpl. by rewrite IH.
Qed.

(** ** Date normaliser *)

Lemma first_some_Some {A B} (f : A → option B) (l : list A) (y : B) :
  PyStr.first_some f l = Some y → ∃ x, x ∈ l ∧ f x = Some y.
Proof.
  induction l as [|x l IH]; simpl; [done|].
  destruct (f x) as [y'|] eqn:E.
  - intros [= ->]. exists x. split; [left | done].
  - intros H. destruct (IH H) as (x' & Hin & Hx'). exists x'. split; [by right | done].
Qed.

Lemma capture_gz_other (d : ascii) (v : string) (f : Strptime.found) :
  d ≠ "z"%char → Strptime.gz (Strptime.capture d v f) = Strptime.gz f.
Proof. intros Hd. unfold Strptime.capture. repeat case_decide; subst; done. Qed.

Lemma capture_gz_is_Some (d : ascii) (v : string) (f : Strptime.found) :
  is_Some (Strptime.gz f) → is_Some (Strptime.gz (Strptime.capture d v f)).
Proof.
  destruct (decide (d = "z"%char)) as [->|Hd]; [by eexists|].
  by rewrite capture_gz_other.
Qed.

Lemma regex_match_gz_keeps (toks : list Strptime.token) : ∀ s f f' rest,
  Strptime.regex_match toks s f = Some (f', rest) →
  is_Some (Strptime.gz f) → is_Some (Strptime.gz f').
Proof.
  induction toks as [|t toks IH]; intros s f f' rest; simpl.
  - by intros [= -> ->].
  - intros H Hz. apply first_some_Some in H as ([v r] & _ & H).
    apply IH in H; [done|]. destruct t; simpl; auto using capture_gz_is_Some.
Qed.

Lemma regex_match_gz_set (toks : list Strptime.token) : ∀ s f f' rest,
  Strptime.TDir "z" ∈ toks →
  Strptime.regex_match toks s f = Some (f', rest) →
  is_Some (Strptime.gz f').
Proof.
  induction toks as [|t toks IH]; intros s f f' rest; simpl.
  - by rewrite elem_of_nil.
  - rewrite elem_of_cons. intros [<-|Hin] H;
      apply first_some_Some in H as ([v r] & _ & H).
    + apply regex_match_gz_keeps in H; [done|]. by eexists.
    + by apply IH in H.
Qed.

Lemma regex_match_gz_unset (toks : list Strptime.token) : ∀ s f f' rest,
  Strptime.TDir "z" ∉ toks →
  Strptime.regex_match toks s f = Some (f', rest) →
  Strptime.gz f' = Strptime.gz f.
Proof.
  induction toks as [|t toks IH]; intros s f f' rest; simpl.
  - by intros _ [= -> ->].
  - rewrite not_elem_of_cons. intros [Hne Hnin] H.
    apply first_some_Some in H as ([v r] & _ & H).
    apply IH in H; [|done]. rewrite H.
    destruct t as [d| |]; simpl; try done.
    apply capture_gz_other. congruence.
Qed.

Lemma convert_inv (f : Strptime.found) (dt : datetime) :
  Strptime.convert f = Ok dt →
  valid_datetime dt = true ∧
  (Strptime.gz f = None → tzinfo dt = None) ∧
  (is_Some (Strptime.gz f) → is_Some (tzinfo dt)).
Proof.
  unfold Strptime.convert.
  destruct (Strptime.int_group 1900 _) as [y|]; simpl; [|done].
  destruct (Strptime.month_group f) as [m|]; simpl; [|done].
  destruct (Strptime.int_group 1 _) as [d|]; simpl; [|done].
  destruct (Strptime.int_group 0 (Strptime.gH f)) as [h|]; simpl; [|done].
  destruct (Strptime.int_group 0 (Strptime.gM f)) as [mi|]; simpl; [|done].
  destruct (Strptime.int_group 0 (Strptime.gS f)) as [se|]; simpl; [|done].
  destruct (Strptime.fraction_group f) as [us|]; simpl; [|done].
  destruct (Strptime.gz f) as [z|]; simpl.
  - destruct (Strptime.parse_z z) as [[g gf]|]; simpl; [|done].
    destruct (valid_datetime _) eqn:Hv; [|done].
    intros [= <-]. split; [done|]. split; [done|]. intros _. by eexists.
  - destruct (valid_datetime _) eqn:Hv; [|done].
    intros [= <-]. split; [done|]. split; [done|]. by intros [? ?].
Qed.

Lemma strptime_inv (s fmt : string) (dt : datetime) :
  strptime s fmt = Ok dt →
  ∃ toks f, Strptime.pattern fmt = Ok toks ∧
    Strptime.regex_match toks s Strptime.no_groups = Some (f, "") ∧
    Strptime.convert f = Ok dt.
Proof.
  unfold strptime. destruct (Strptime.pattern fmt) as [toks|]; simpl; [|done].
  destruct (Strptime.regex_match _ _ _) as [[f rest]|] eqn:E; [|done].
  destruct rest; [|done]. intros H. by exists toks, f.
Qed.

Lemma strptime_valid (s fmt : string) (dt : datetime) :
  strptime s fmt = Ok dt → valid_datetime dt = true.
Proof.
  intros (toks & f & _ & _ & Hc)%strptime_inv. by apply convert_inv in Hc as [? _].
Qed.

Lemma strptime_aware (s fmt : string) (dt : datetime) (toks : list Strptime.token) :
  Strptime.pattern fmt = Ok toks → Strptime.TDir "z" ∈ toks →
  strptime s fmt = Ok dt → is_Some (tzinfo dt).
Proof.
  intros Hp Hz (toks' & f & Hp' & Hm & Hc)%strptime_inv.
  rewrite Hp in Hp'. injection Hp' as <-.
  apply convert_inv in Hc as (_ & _ & Hc). apply Hc.
  by eapply regex_match_gz_set.
Qed.

Lemma strptime_naive (s fmt : string) (dt : datetime) (toks : list Strptime.token) :
  Strptime.pattern fmt = Ok toks → Strptime.TDir "z" ∉ toks →
  strptime s fmt = Ok dt → tzinfo dt = None.
Proof.
  intros Hp Hz (toks' & f & Hp' & Hm & Hc)%strptime_inv.
  rewrite Hp in Hp'. injection Hp' as <-.
  apply convert_inv in Hc as (_ & Hc & _). apply Hc.
  by apply regex_match_gz_unset in Hm.
Qed.

Lemma directive_z (dt : datetime) :
  Strftime.directive dt "z"
  = match tzinfo dt with Some off => Strftime.format_utcoffset off | None => "" end.
Proof. reflexivity. Qed.

Lemma strftime_rss_split (dt : datetime) (off : Z) :
  tzinfo dt = Some off →
  strftime dt RSS_DATE_FORMAT
  = strftime dt "%a, %d %b %Y %H:%M:%S " +:+ Strftime.format_utcoffset off.
Proof.
  intros Htz. unfold RSS_DATE_FORMAT. cbn [strftime].
  rewrite directive_z, Htz.
  repeat (rewrite ?string_app_assoc, ?string_app_cons, ?string_app_nil_r, ?string_app_nil_l).
  reflexivity.
Qed.

Lemma normalize_pubdate_parsed (clock : datetime) (raw : string) (dt : datetime) :
  raw ≠ "" → parse_pubdate raw = Some dt →
  normalize_pubdate clock (Some raw) = Ok (strftime dt RSS_DATE_FORMAT).
Proof.
  intros Hne Hp. unfold normalize_pubdate.
  destruct raw as [|c raw]; [done|]. simpl PyStr.truthy. simpl negb. cbv iota.
  by rewrite Hp.
Qed.

Lemma normalize_pubdate_fallback (clock : datetime) (raw : option string) :
  raw = None ∨ raw = Some "" ∨ (∃ s, raw = Some s ∧ parse_pubdate s = None) →
  normalize_pubdate clock raw = Ok (strftime (now_utc clock) RSS_DATE_FORMAT).
Proof.
  intros [-> | [-> | (s & -> & Hp)]]; try done.
  unfold normalize_pubdate. destruct (negb (PyStr.truthy s)); [done|]. by rewrite Hp.
Qed.

Lemma normalize_pubdate_never_raises (clock : datetime) (raw : option string) :
  ∃ out, normalize_pubdate clock raw = Ok out ∧
    (out = strftime (now_utc clock) RSS_DATE_FORMAT ∨
     ∃ s dt, raw = Some s ∧ parse_pubdate s = Some dt ∧ out = strftime dt RSS_DATE_FORMAT).
Proof.
  destruct raw as [s|]; [|eexists; split; [done | by left]].
  unfold normalize_pubdate. destruct (negb (PyStr.truthy s)); [eexists; split; [done | by left]|].
  destruct (parse_pubdate s) as [dt|] eqn:Hp; simpl.
  - eexists. split; [done|]. right. by exists s, dt.
  - eexists. split; [done|]. by left.
Qed.

(** C3.  ["2024-03-05"] parses under the date-only pattern and
    ["March 5, 2024"] under the month-name pattern; both are given the UTC
    zone and both come out as the canonical rendering of
    2024-03-05T00:00:00 UTC, whatever the clock reads. *)
Theorem normalize_pubdate_date_only_and_month_name (clock : datetime) :
  let midnight := {| year := 2024; month := 3; day := 5; hour := 0; minute := 0;
                     second := 0; microsecond := 0; tzinfo := utc |} in
  parse_pubdate "2024-03-05" = Some midnight ∧
  parse_pubdate "March 5, 2024" = Some midnight ∧
  normalize_pubdate clock (Some "2024-03-05") = Ok (strftime midnight RSS_DATE_FORMAT) ∧
  normalize_pubdate clock (Some "March 5, 2024") = Ok (strftime midnight RSS_DATE_FORMAT) ∧
  strftime midnight RSS_DATE_FORMAT = "Tue, 05 Mar 2024 00:00:00 +0000" ∧
  Layout.is_rfc2822 (strftime midnight RSS_DATE_FORMAT) = true.
Proof.
  intros midnight.
  assert (H1 : parse_pubdate "2024-03-05" = Some midnight) by (by vm_compute).
  assert (H2 : parse_pubdate "March 5, 2024" = Some midnight) by (by vm_compute).
  split; [done|]. split; [done|].
  rewrite !(normalize_pubdate_parsed clock _ midnight) by done.
  split; [done|]. split; [done|]. by vm_compute.
Qed.

Lemma pattern_iso_offset :
  Strptime.pattern "%Y-%m-%dT%H:%M:%S%z"
  = Ok [Strptime.TDir "Y"; Strptime.TLit "-"; Strptime.TDir "m"; Strptime.TLit "-";
        Strptime.TDir "d"; Strptime.TLit "T"; Strptime.TDir "H"; Strptime.TLit ":";
        Strptime.TDir "M"; Strptime.TLit ":"; Strptime.TDir "S"; Strptime.TDir "z"].
Proof. by vm_compute. Qed.

Lemma pattern_iso_fraction_offset :
  Strptime.pattern "%Y-%m-%dT%H:%M:%S.%f%z"
  = Ok [Strptime.TDir "Y"; Strptime.TLit "-"; Strptime.TDir "m"; Strptime.TLit "-";
        Strptime.TDir "d"; Strptime.TLit "T"; Strptime.TDir "H"; Strptime.TLit ":";
        Strptime.TDir "M"; Strptime.TLit ":"; Strptime.TDir "S"; Strptime.TLit ".";
        Strptime.TDir "f"; Strptime.TDir "z"].
Proof. by vm_compute. Qed.

Lemma pattern_iso_naive :
  Strptime.pattern "%Y-%m-%dT%H:%M:%S"
  = Ok [Strptime.TDir "Y"; Strptime.TLit "-"; Strptime.TDir "m"; Strptime.TLit "-";
        Strptime.TDir "d"; Strptime.TLit "T"; Strptime.TDir "H"; Strptime.TLit ":";
        Strptime.TDir "M"; Strptime.TLit ":"; Strptime.TDir "S"].
Proof. by vm_compute. Qed.

Lemma pattern_iso_date :
  Strptime.pattern "%Y-%m-%d"
  = Ok [Strptime.TDir "Y"; Strptime.TLit "-"; Strptime.TDir "m"; Strptime.TLit "-";
        Strptime.TDir "d"].
Proof. by vm_compute. Qed.

Ltac token_membership :=
  rewrite list_elem_of_In; simpl; intuition congruence.

Lemma try_human_utc (fmts : list string) (s : string) (dt : datetime) :
  try_human fmts s = Some dt → tzinfo dt = utc.
Proof.
  induction fmts as [|fmt fmts IH]; simpl; [done|].
  destruct (strptime s fmt) as [d|]; [|done]. by intros [= <-].
Qed.

(** C10.  When the trimmed raw date parses under one of the two patterns
    that carry a timezone offset, the parsed datetime is aware, it is
    rendered as it is (no conversion to UTC), and the rendering ends with
    the source offset; when neither of these patterns parses it and another
    one does, the datetime is given the UTC zone. *)
Theorem normalize_pubdate_keeps_source_offset (clock : datetime) (raw : string)
    (dt : datetime) :
  raw ≠ "" →
  ((strptime (PyStr.strip raw) "%Y-%m-%dT%H:%M:%S%z" = Ok dt ∨
    (strptime (PyStr.strip raw) "%Y-%m-%dT%H:%M:%S%z" = Raised ∧
     strptime (PyStr.strip raw) "%Y-%m-%dT%H:%M:%S.%f%z" = Ok dt)) →
   ∃ off, tzinfo dt = Some off ∧
     parse_pubdate raw = Some dt ∧
     normalize_pubdate clock (Some raw) = Ok (strftime dt RSS_DATE_FORMAT) ∧
     strftime dt RSS_DATE_FORMAT
       = strftime dt "%a, %d %b %Y %H:%M:%S " +:+ Strftime.format_utcoffset off)
  ∧
  (strptime (PyStr.strip raw) "%Y-%m-%dT%H:%M:%S%z" = Raised →
   strptime (PyStr.strip raw) "%Y-%m-%dT%H:%M:%S.%f%z" = Raised →
   parse_pubdate raw = Some dt →
   tzinfo dt = utc ∧
   normalize_pubdate clock (Some raw) = Ok (strftime dt RSS_DATE_FORMAT) ∧
   strftime dt RSS_DATE_FORMAT = strftime dt "%a, %d %b %Y %H:%M:%S " +:+ "+0000").
Proof.
  intros Hne. split.
  - intros Hparse.
    assert (Haware : is_Some (tzinfo dt)).
    { destruct Hparse as [H1 | [_ H2]].
      - eapply strptime_aware; [apply pattern_iso_offset | token_membership | exact H1].
      - eapply strptime_aware;
          [apply pattern_iso_fraction_offset | token_membership | exact H2]. }
    destruct Haware as [off Hoff]. exists off.
    assert (Hp : parse_pubdate raw = Some dt).
    { unfold parse_pubdate, ISO_FORMATS. cbn [try_iso].
      destruct Hparse as [H1 | [H1 H2]]; rewrite H1, ?H2, Hoff; done. }
    split; [done|]. split; [done|]. split.
    + by apply normalize_pubdate_parsed.
    + by apply strftime_rss_split.
  - intros H1 H2 Hp.
    assert (Hutc : tzinfo dt = utc).
    { revert Hp. unfold parse_pubdate, ISO_FORMATS. cbn [try_iso]. rewrite H1, H2.
      destruct (strptime _ "%Y-%m-%dT%H:%M:%S") as [d3|] eqn:H3.
      { assert (Hn : tzinfo d3 = None).
        { eapply strptime_naive; [apply pattern_iso_naive | | exact H3].
          token_membership. }
        rewrite Hn. by intros [= <-]. }
      destruct (strptime _ "%Y-%m-%d") as [d4|] eqn:H4.
      { assert (Hn : tzinfo d4 = None).
        { eapply strptime_naive; [apply pattern_iso_date | | exact H4].
          token_membership. }
        rewrite Hn. by intros [= <-]. }
      apply try_human_utc. }
    split; [done|]. split; [by apply normalize_pubdate_parsed|].
    by rewrite (strftime_rss_split dt 0%Z Hutc).
Qed.

Lemma normalize_pubdate_keeps_source_offset_witness :
  ∃ off,
    tzinfo {| year := 2024; month := 3; day := 5; hour := 10; minute := 0;
              second := 0; microsecond := 0; tzinfo := Some 18000000000%Z |} = Some off ∧
    normalize_pubdate
      {| year := 2026; month := 11; day := 4; hour := 12; minute := 30;
         second := 15; microsecond := 0; tzinfo := None |}
      (Some "2024-03-05T10:00:00+0500")
    = Ok "Tue, 05 Mar 2024 10:00:00 +0500".
Proof.
  destruct (normalize_pubdate_keeps_source_offset
    {| year := 2026; month := 11; day := 4; hour := 12; minute := 30;
       second := 15; microsecond := 0; tzinfo := None |}
    "2024-03-05T10:00:00+0500"
    {| year := 2024; month := 3; day := 5; hour := 10; minute := 0;
       second := 0; microsecond := 0; tzinfo := Some 18000000000%Z |})
    as [Hoffset _]; [done|].
  destruct Hoffset as (off & Htz & _ & Hout & _); [left; by vm_compute|].
  exists off. split; [exact Htz | exact Hout].
Defined.

(** C4, on the input where the code leaves the RFC-2822 layout: an offset
    with a seconds part is accepted by [%z] and printed back with its
    seconds, so the zone has six digits. *)
Theorem normalize_pubdate_offset_with_seconds (clock : datetime) :
  normalize_pubdate clock (Some "2024-03-05T10:00:00+05:00:30")
  = Ok "Tue, 05 Mar 2024 10:00:00 +050030"
  ∧ Layout.is_rfc2822 "Tue, 05 Mar 2024 10:00:00 +050030" = false
  ∧ Layout.is_rfc2822 "Tue, 05 Mar 2024 10:00:00 +0500" = true.
Proof.
  split; [|by vm_compute].
  rewrite (normalize_pubdate_parsed clock _
    {| year := 2024; month := 3; day := 5; hour := 10; minute := 0;
       second := 0; microsecond := 0; tzinfo := Some 18030000000%Z |}); [| done |].
  - by vm_compute.
  - by vm_compute.
Qed.

(** ** The layout of the rendered date *)

Lemma digit_char_is_digit (k : Z) :
  (0 ≤ k < 10)%Z → Chars.is_digit (Chars.digit_char k) = true.
Proof.
  intros Hk.
  assert (H : (k = 0 ∨ k = 1 ∨ k = 2 ∨ k = 3 ∨ k = 4 ∨ k = 5 ∨ k = 6 ∨ k = 7 ∨ k = 8
    ∨ k = 9)%Z) by lia.
  destruct H as [-> | [-> | [-> | [-> | [-> | [-> | [-> | [-> | [-> | ->]]]]]]]]]; done.
Qed.

Lemma dec_one_digit (n : Z) :
  (0 ≤ n < 10)%Z → Chars.dec n = String (Chars.digit_char n) "".
Proof.
  intros Hn. unfold Chars.dec. cbn [Chars.dec_go].
  rewrite (proj2 (Z.ltb_lt n 10)) by lia. by rewrite Z.mod_small by lia.
Qed.

Lemma dec_two_digits (n : Z) :
  (10 ≤ n < 100)%Z →
  Chars.dec n = String (Chars.digit_char (n / 10)) (String (Chars.digit_char (n mod 10)) "").
Proof.
  intros Hn. unfold Chars.dec.
  assert (Hlog : (3 ≤ Z.log2 n)%Z).
  { change 3%Z with (Z.log2 10). apply Z.log2_le_mono. lia. }
  destruct (Z.to_nat (Z.log2 n)) as [|f] eqn:E; [lia|].
  cbn [Chars.dec_go].
  rewrite (proj2 (Z.ltb_ge n 10)) by lia.
  rewrite (proj2 (Z.ltb_lt (n / 10) 10)) by (apply Z.div_lt_upper_bound; lia).
  rewrite (Z.mod_small (n / 10)); [done|].
  split; [apply Z.div_pos; lia | apply Z.div_lt_upper_bound; lia].
Qed.

Lemma pad2_digits (n : Z) :
  (0 ≤ n < 100)%Z →
  ∃ d1 d2, Chars.pad 2 n = String d1 (String d2 "")
    ∧ Chars.is_digit d1 = true ∧ Chars.is_digit d2 = true.
Proof.
  intros Hn. unfold Chars.pad. destruct (decide (n < 10)%Z) as [Hs|Hl].
  - rewrite dec_one_digit by lia. exists "0"%char, (Chars.digit_char n).
    split; [done|]. split; [done | apply digit_char_is_digit; lia].
  - rewrite dec_two_digits by lia.
    exists (Chars.digit_char (n / 10)), (Chars.digit_char (n mod 10)).
    split; [done|]. split; apply digit_char_is_digit.
    + split; [apply Z.div_pos; lia | apply Z.div_lt_upper_bound; lia].
    + apply Z.mod_pos_bound. lia.
Qed.

Lemma dec_four_digits (n : Z) :
  (1000 ≤ n < 10000)%Z →
  ∃ d1 d2 d3 d4, Chars.dec n = String d1 (String d2 (String d3 (String d4 "")))
    ∧ Chars.is_digit d1 = true ∧ Chars.is_digit d2 = true
    ∧ Chars.is_digit d3 = true ∧ Chars.is_digit d4 = true.
Proof.
  intros Hn. unfold Chars.dec.
  assert (Hlog : (9 ≤ Z.log2 n)%Z).
  { change 9%Z with (Z.log2 1000). apply Z.log2_le_mono. lia. }
  destruct (Z.to_nat (Z.log2 n)) as [|[|[|f]]] eqn:E; try lia.
  cbn [Chars.dec_go].
  assert (H1 : (100 ≤ n / 10 < 1000)%Z)
    by (split; [apply Z.div_le_lower_bound | apply Z.div_lt_upper_bound]; lia).
  assert (H2 : (10 ≤ n / 10 / 10 < 100)%Z)
    by (split; [apply Z.div_le_lower_bound | apply Z.div_lt_upper_bound]; lia).
  assert (H3 : (1 ≤ n / 10 / 10 / 10 < 10)%Z)
    by (split; [apply Z.div_le_lower_bound | apply Z.div_lt_upper_bound]; lia).
  rewrite (proj2 (Z.ltb_ge n 10)) by lia.
  rewrite (proj2 (Z.ltb_ge (n / 10) 10)) by lia.
  rewrite (proj2 (Z.ltb_ge (n / 10 / 10) 10)) by lia.
  rewrite (proj2 (Z.ltb_lt (n / 10 / 10 / 10) 10)) by lia.
  eexists _, _, _, _. split; [done|].
  repeat split; apply digit_char_is_digit; apply Z.mod_pos_bound; lia.
Qed.

Lemma match_parts_step (alts : list (list Chars.cls)) (ps : list (list (list Chars.cls)))
    (x m rest : string) :
  PyStr.first_some (λ p, Chars.match_seq p (x +:+ rest)) alts = Some (m, rest) →
  Layout.match_parts (alts :: ps) (x +:+ rest) = Layout.match_parts ps rest.
Proof. intros H. cbn [Layout.match_parts]. by rewrite H. Qed.

Lemma match_weekday (k : nat) (rest : string) :
  k < 7 →
  PyStr.first_some (λ p, Chars.match_seq p (nth k Strftime.a_weekday "" +:+ rest))
    (Layout.literal <$> Strftime.a_weekday)
  = Some (nth k Strftime.a_weekday "", rest).
Proof. intros Hk. do 7 (destruct k as [|k]; [reflexivity|]). lia. Qed.

Lemma match_month (k : nat) (rest : string) :
  k < 12 →
  PyStr.first_some (λ p, Chars.match_seq p (nth k Strftime.a_month "" +:+ rest))
    (Layout.literal <$> Strftime.a_month)
  = Some (nth k Strftime.a_month "", rest).
Proof. intros Hk. do 12 (destruct k as [|k]; [reflexivity|]). lia. Qed.

Lemma match_two_digits (n : Z) (rest : string) :
  (0 ≤ n < 100)%Z →
  PyStr.first_some (λ p, Chars.match_seq p (Chars.pad 2 n +:+ rest))
    [[Chars.is_digit; Chars.is_digit]]
  = Some (Chars.pad 2 n, rest).
Proof.
  intros Hn. destruct (pad2_digits n Hn) as (d1 & d2 & -> & H1 & H2).
  rewrite !string_app_cons, string_app_nil_l. cbn [PyStr.first_some Chars.match_seq].
  by rewrite H1, H2.
Qed.

Lemma match_four_digits (n : Z) (rest : string) :
  (1000 ≤ n < 10000)%Z →
  PyStr.first_some (λ p, Chars.match_seq p (Chars.dec n +:+ rest))
    [[Chars.is_digit; Chars.is_digit; Chars.is_digit; Chars.is_digit]]
  = Some (Chars.dec n, rest).
Proof.
  intros Hn. destruct (dec_four_digits n Hn) as (d1 & d2 & d3 & d4 & -> & H1 & H2 & H3 & H4).
  rewrite !string_app_cons, string_app_nil_l. cbn [PyStr.first_some Chars.match_seq].
  by rewrite H1, H2, H3, H4.
Qed.

Lemma utcoffset_whole_minutes (off : Z) :
  Cal.valid_offset off = true → (off mod 60000000 = 0)%Z →
  ∃ s h m, Strftime.format_utcoffset off = String s (Chars.pad 2 h +:+ Chars.pad 2 m)
    ∧ Strptime.sign s = true ∧ (0 ≤ h < 100)%Z ∧ (0 ≤ m < 100)%Z.
Proof.
  unfold Cal.valid_offset. rewrite andb_true_iff, !Z.ltb_lt. intros [Hlo Hhi] Hmin.
  unfold Strftime.format_utcoffset.
  apply Z.mod_divide in Hmin as [q Hq]; [|lia].
  assert (Ha : (Z.abs off = Z.abs q * 60 * 1000000)%Z) by lia.
  assert (Hq' : (0 ≤ Z.abs q < 1440)%Z) by lia.
  rewrite Ha, Z.mod_mul, Z.div_mul, Z.mod_mul by lia. cbn [Z.eqb negb].
  exists (if (off <? 0)%Z then "-"%char else "+"%char),
    (Z.abs q * 60 / 3600)%Z, ((Z.abs q * 60 / 60) mod 60)%Z.
  split; [by destruct (off <? 0)%Z|]. split; [by destruct (off <? 0)%Z|].
  rewrite Z.div_mul by lia.
  split; [|pose proof (Z.mod_pos_bound (Z.abs q) 60); lia].
  split; [apply Z.div_pos; lia | apply Z.div_lt_upper_bound; lia].
Qed.

Lemma match_zone (s : ascii) (h m : Z) :
  Strptime.sign s = true → (0 ≤ h < 100)%Z → (0 ≤ m < 100)%Z →
  PyStr.first_some
    (λ p, Chars.match_seq p (String s (Chars.pad 2 h +:+ Chars.pad 2 m) +:+ ""))
    [[Strptime.sign; Chars.is_digit; Chars.is_digit; Chars.is_digit; Chars.is_digit]]
  = Some (String s (Chars.pad 2 h +:+ Chars.pad 2 m), "").
Proof.
  intros Hs Hh Hm.
  destruct (pad2_digits h Hh) as (a & b & -> & Ha & Hb).
  destruct (pad2_digits m Hm) as (c & d & -> & Hc & Hd).
  repeat (rewrite ?string_app_cons, ?string_app_nil_l).
  cbn [PyStr.first_some Chars.match_seq]. by rewrite Hs, Ha, Hb, Hc, Hd.
Qed.

Lemma valid_datetime_fields (dt : datetime) :
  valid_datetime dt = true →
  (1 ≤ year dt ≤ 9999 ∧ 1 ≤ month dt ≤ 12 ∧ 1 ≤ day dt ≤ 31 ∧ 0 ≤ hour dt ≤ 23
   ∧ 0 ≤ minute dt ≤ 59 ∧ 0 ≤ second dt ≤ 59)%Z
  ∧ ∀ off, tzinfo dt = Some off → Cal.valid_offset off = true.
Proof.
  unfold valid_datetime, Cal.valid_date, Cal.valid_time.
  rewrite !andb_true_iff, !Z.leb_le. intros [[Hd Ht] Hz].
  assert (Hdim : (Cal.days_in_month (year dt) (month dt) ≤ 31)%Z).
  { unfold Cal.days_in_month. destruct (_ && _); [lia|].
    assert (Hm : (month dt = 1 ∨ month dt = 2 ∨ month dt = 3 ∨ month dt = 4 ∨ month dt = 5
      ∨ month dt = 6 ∨ month dt = 7 ∨ month dt = 8 ∨ month dt = 9 ∨ month dt = 10
      ∨ month dt = 11 ∨ month dt = 12)%Z) by lia.
    destruct Hm as [-> | [-> | [-> | [-> | [-> | [-> | [-> | [-> | [-> | [-> | [-> | ->]]]]]]]]]]];
      vm_compute; congruence. }
  split; [lia|]. intros off Hoff. by rewrite Hoff in Hz.
Qed.

(** A valid aware datetime with a four-digit year and an offset of whole
    minutes is rendered in the RFC-2822 layout. *)
Lemma strftime_rss_layout (dt : datetime) (off : Z) :
  valid_datetime dt = true → (1000 ≤ year dt)%Z →
  tzinfo dt = Some off → (off mod 60000000 = 0)%Z →
  Layout.is_rfc2822 (strftime dt RSS_DATE_FORMAT) = true.
Proof.
  intros Hv Hy Htz Hmin.
  destruct (valid_datetime_fields dt Hv) as [Hf Hoff]. specialize (Hoff off Htz).
  destruct (utcoffset_whole_minutes off Hoff Hmin) as (s & h & m & Hz & Hs & Hh & Hm).
  unfold Layout.is_rfc2822, RSS_DATE_FORMAT. apply bool_decide_eq_true.
  cbn [strftime]. rewrite directive_z, Htz, Hz.
  change (Strftime.directive dt "a") with
    (nth (Z.to_nat (Cal.weekday (year dt) (month dt) (day dt))) Strftime.a_weekday "").
  change (Strftime.directive dt "d") with (Chars.pad 2 (day dt)).
  change (Strftime.directive dt "b") with
    (nth (Z.to_nat (month dt - 1)) Strftime.a_month "").
  change (Strftime.directive dt "Y") with (Chars.dec (year dt)).
  change (Strftime.directive dt "H") with (Chars.pad 2 (hour dt)).
  change (Strftime.directive dt "M") with (Chars.pad 2 (minute dt)).
  change (Strftime.directive dt "S") with (Chars.pad 2 (second dt)).
  unfold Layout.parts.
  erewrite match_parts_step;
    [|apply match_weekday; unfold Cal.weekday;
      pose proof (Z.mod_pos_bound (Cal.ymd2ord (year dt) (month dt) (day dt) + 6) 7); lia].
  change (Layout.match_parts ([Layout.literal ", "] :: ?ps) (String "," (String " " ?x)))
    with (Layout.match_parts ps x).
  erewrite match_parts_step; [|apply match_two_digits; lia].
  change (Layout.match_parts ([Layout.literal " "] :: ?ps) (String " " ?x))
    with (Layout.match_parts ps x).
  erewrite match_parts_step; [|apply match_month; lia].
  change (Layout.match_parts ([Layout.literal " "] :: ?ps) (String " " ?x))
    with (Layout.match_parts ps x).
  erewrite match_parts_step; [|apply match_four_digits; lia].
  change (Layout.match_parts ([Layout.literal " "] :: ?ps) (String " " ?x))
    with (Layout.match_parts ps x).
  erewrite match_parts_step; [|apply match_two_digits; lia].
  change (Layout.match_parts ([Layout.literal ":"] :: ?ps) (String ":" ?x))
    with (Layout.match_parts ps x).
  erewrite match_parts_step; [|apply match_two_digits; lia].
  change (Layout.match_parts ([Layout.literal ":"] :: ?ps) (String ":" ?x))
    with (Layout.match_parts ps x).
  erewrite match_parts_step; [|apply match_two_digits; lia].
  change (Layout.match_parts ([Layout.literal " "] :: ?ps) (String " " ?x))
    with (Layout.match_parts ps x).
  erewrite match_parts_step; [|by apply match_zone].
  reflexivity.
Qed.

Lemma parse_pubdate_valid (raw : string) (dt : datetime) :
  parse_pubdate raw = Some dt → valid_datetime dt = true ∧ is_Some (tzinfo dt).
Proof.
  assert (Hutc : ∀ d, valid_datetime d = true → tzinfo d = None →
            valid_datetime (replace_tzinfo d utc) = true).
  { intros d Hd Hn. unfold valid_datetime in *. rewrite Hn in Hd.
    apply andb_true_iff in Hd as [Hd _]. cbn. by rewrite Hd. }
  assert (Hiso : ∀ fmts s, try_iso fmts s = Some dt →
            valid_datetime dt = true ∧ is_Some (tzinfo dt)).
  { induction fmts as [|fmt fmts IH]; intros s; simpl; [done|].
    destruct (strptime s fmt) as [d|] eqn:E; [|apply IH].
    apply strptime_valid in E. destruct (tzinfo d) as [off|] eqn:Htz.
    - intros [= <-]. split; [done | by rewrite Htz].
    - intros [= <-]. split; [by apply Hutc | by eexists]. }
  assert (Hhuman : ∀ fmts s, try_human fmts s = Some dt →
            valid_datetime dt = true ∧ is_Some (tzinfo dt)).
  { induction fmts as [|fmt fmts IH]; intros s; simpl; [done|].
    destruct (strptime s fmt) as [d|] eqn:E; [|apply IH].
    apply strptime_valid in E. intros [= <-]. split; [|by eexists].
    unfold valid_datetime in *.
    apply andb_true_iff in E as [E _]. cbn. by rewrite E. }
  unfold parse_pubdate.
  destruct (try_iso ISO_FORMATS (PyStr.strip raw)) as [d|] eqn:E.
  - intros [= <-]. by eapply Hiso.
  - apply Hhuman.
Qed.

(** What holds for every input: [normalize_pubdate] never raises; for an
    absent, empty or unparseable input it returns the
    rendering of the current UTC time; and its result is in the RFC-2822
    layout whenever the datetime rendered (the parsed one, or else the
    clock reading) is valid, has a four-digit year and an offset of whole
    minutes, which is always so for the clock reading in UTC and for the
    patterns without [%z]. *)
Lemma normalize_pubdate_layout (clock : datetime) (raw : option string) :
  ∃ out, normalize_pubdate clock raw = Ok out ∧
    ((raw = None ∨ raw = Some "" ∨ (∃ s, raw = Some s ∧ parse_pubdate s = None)) →
       out = strftime (now_utc clock) RSS_DATE_FORMAT) ∧
    (valid_datetime (now_utc clock) = true → (1000 ≤ year clock)%Z →
     (∀ s dt off, raw = Some s → parse_pubdate s = Some dt → tzinfo dt = Some off →
        (1000 ≤ year dt)%Z ∧ (off mod 60000000 = 0)%Z) →
     Layout.is_rfc2822 out = true).
Proof.
  destruct (normalize_pubdate_never_raises clock raw) as (out & Hout & Hcase).
  exists out. split; [done|]. split.
  - intros Hfb. apply (normalize_pubdate_fallback clock) in Hfb. congruence.
  - intros Hclock Hyear Hparsed.
    destruct Hcase as [-> | (s & dt & -> & Hp & ->)].
    + by apply (strftime_rss_layout _ 0%Z).
    + destruct (parse_pubdate_valid s dt Hp) as [Hv [off Hoff]].
      destruct (Hparsed s dt off eq_refl Hp Hoff) as [Hy Hm].
      by apply (strftime_rss_layout _ off).
Qed.

(** ** Feed assembler: reading back what was written *)

Lemma read_name_app (n rest : string) :
  all_chars Xml.is_name_char n = true →
  starts_with Xml.is_name_char rest = false →
  Xml.read_name (n +:+ rest) = (n, rest).
Proof.
  intros Hn Hrest. induction n as [|c n IH].
  - rewrite string_app_nil_l. destruct rest as [|d rest]; [done|].
    simpl in *. by rewrite Hrest.
  - simpl in Hn. apply andb_true_iff in Hn as [Hc Hn].
    rewrite string_app_cons. simpl. by rewrite Hc, (IH Hn).
Qed.

Lemma escape_cdata_cons (c : ascii) (t : string) :
  ET.escape_cdata (String c t)
  = (if decide (c = "&"%char) then "&amp;"
     else if decide (c = "<"%char) then "&lt;"
     else if decide (c = ">"%char) then "&gt;"
     else String c "") +:+ ET.escape_cdata t.
Proof. reflexivity. Qed.

(** A byte from 128 on is none of the characters that are escaped. *)
Lemma high_byte_plain (c : ascii) :
  (128 ≤ Utf8.byte c)%Z →
  c ≠ "&"%char ∧ c ≠ "<"%char ∧ c ≠ ">"%char ∧ c ≠ "013"%char.
Proof. intros H. repeat split; intros ->; vm_compute in H; by apply H. Qed.

Lemma escape_cdata_high (c : ascii) (t rest : string) :
  (128 ≤ Utf8.byte c)%Z →
  ET.escape_cdata (String c t) +:+ rest = String c (ET.escape_cdata t +:+ rest).
Proof.
  intros H. destruct (high_byte_plain c H) as (? & ? & ? & _).
  rewrite escape_cdata_cons, !decide_False by done.
  by rewrite string_app_assoc, string_app_cons, string_app_nil_l.
Qed.

Lemma between_high (lo hi x : Z) :
  (128 ≤ lo)%Z → Utf8.between lo hi x = true → (128 ≤ x)%Z.
Proof. unfold Utf8.between. intros ? [? ?]%andb_true_iff. lia. Qed.

Lemma is_cont_high (c : ascii) : Utf8.is_cont c = true → (128 ≤ Utf8.byte c)%Z.
Proof. apply between_high. lia. Qed.

(** What [decode] finds at the start of a text, it finds at the start of
    the escaped text: the bytes it reads are not escaped. *)
Lemma decode_escape_cdata (c : ascii) (t rest : string) (cp : Z) (n : nat) :
  Utf8.decode (String c t) = Some (cp, n) →
  Utf8.decode (String c (ET.escape_cdata t +:+ rest)) = Some (cp, n).
Proof.
  unfold Utf8.decode.
  destruct (Utf8.byte c <? 128)%Z; [done|].
  destruct (Utf8.between 194 223 (Utf8.byte c)).
  { destruct t as [|b1 t]; [done|].
    destruct (Utf8.is_cont b1) eqn:E1; [|done].
    rewrite escape_cdata_high by (by apply is_cont_high). by rewrite E1. }
  destruct (Utf8.between 224 239 (Utf8.byte c)).
  { destruct t as [|b1 [|b2 t]]; [done|done|].
    destruct (Utf8.between _ _ (Utf8.byte b1)) eqn:E1; [|done].
    destruct (Utf8.is_cont b2) eqn:E2; [|done].
    assert (128 ≤ Utf8.byte b1)%Z as H1.
    { eapply between_high; [|exact E1]. destruct (_ =? _)%Z; lia. }
    rewrite escape_cdata_high by done.
    rewrite escape_cdata_high by (by apply is_cont_high). by rewrite E1, E2. }
  destruct (Utf8.between 240 244 (Utf8.byte c)); [|done].
  destruct t as [|b1 [|b2 [|b3 t]]]; [done|done|done|].
  destruct (Utf8.between _ _ (Utf8.byte b1)) eqn:E1; [|done].
  destruct (Utf8.is_cont b2) eqn:E2; [|done].
  destruct (Utf8.is_cont b3) eqn:E3; [|done].
  assert (128 ≤ Utf8.byte b1)%Z as H1.
  { eapply between_high; [|exact E1]. destruct (_ =? _)%Z; lia. }
  rewrite escape_cdata_high by done.
  rewrite escape_cdata_high by (by apply is_cont_high).
  rewrite escape_cdata_high by (by apply is_cont_high). by rewrite E1, E2, E3.
Qed.

(** An ASCII byte is a character of one byte. *)
Lemma decode_ascii (c : ascii) (t : string) :
  (Utf8.byte c < 128)%Z → Utf8.decode (String c t) = Some (Utf8.byte c, 1).
Proof. intros H. unfold Utf8.decode. by rewrite (proj2 (Z.ltb_lt _ _) H). Qed.

Lemma text_char_xml_char (cp : Z) : text_char cp = true → Xml.is_xml_char cp = true.
Proof.
  unfold text_char, Xml.is_xml_char. rewrite !orb_true_iff. intros [[H|H]|H]; auto.
Qed.

Lemma read_text_reference (X : string) :
  Xml.read_text 0 0 ("&amp;" +:+ X)
    = ('(t, rest) ← Xml.read_text 0 0 X; Some (String "&" t, rest)) ∧
  Xml.read_text 0 0 ("&lt;" +:+ X)
    = ('(t, rest) ← Xml.read_text 0 0 X; Some (String "<" t, rest)) ∧
  Xml.read_text 0 0 ("&gt;" +:+ X)
    = ('(t, rest) ← Xml.read_text 0 0 X; Some (String ">" t, rest)).
Proof. by repeat split. Qed.

Lemma read_text_escape_from (t rest : string) : ∀ copy,
  xml_safe_from copy t = true →
  Xml.read_text 0 copy (ET.escape_cdata t +:+ String "<" rest) = Some (t, String "<" rest).
Proof.
  induction t as [|c t IH]; intros copy Hsafe.
  - destruct copy; [done|]. by apply bool_decide_eq_true in Hsafe.
  - destruct copy as [|k].
    + cbn [xml_safe_from] in Hsafe.
      destruct (Utf8.decode (String c t)) as [[cp n]|] eqn:Hd; [|done].
      apply andb_true_iff in Hsafe as [Hcp Hs]. specialize (IH _ Hs).
      destruct (read_text_reference (ET.escape_cdata t +:+ String "<" rest))
        as (Ha & Hl & Hg).
      destruct (decide (Utf8.byte c < 128)%Z) as [Hlow|Hhigh].
      * rewrite decode_ascii in Hd by done. injection Hd as <- <-.
        change (1 - 1) with 0 in IH.
        rewrite escape_cdata_cons, string_app_assoc.
        destruct (decide (c = "&"%char)) as [->|H1]; [by rewrite Ha, IH|].
        destruct (decide (c = "<"%char)) as [->|H2]; [by rewrite Hl, IH|].
        destruct (decide (c = ">"%char)) as [->|H3]; [by rewrite Hg, IH|].
        assert (c ≠ "013"%char) as H4 by (intros ->; by vm_compute in Hcp).
        rewrite string_app_cons, string_app_nil_l.
        cbn [Xml.read_text]. rewrite !decide_False by done.
        rewrite decode_ascii by done. rewrite (text_char_xml_char _ Hcp).
        change (1 - 1) with 0. by rewrite IH.
      * assert (128 ≤ Utf8.byte c)%Z as Hc by lia.
        destruct (high_byte_plain c Hc) as (H1 & H2 & H3 & H4).
        rewrite escape_cdata_high by done.
        cbn [Xml.read_text]. rewrite !decide_False by done.
        rewrite (decode_escape_cdata c t _ cp n Hd), (text_char_xml_char _ Hcp).
        by rewrite IH.
    + cbn [xml_safe_from] in Hsafe. apply andb_true_iff in Hsafe as [Hc Hs].
      rewrite escape_cdata_high by (by apply is_cont_high).
      cbn [Xml.read_text]. by rewrite (IH _ Hs).
Qed.

Lemma read_text_escape (t rest : string) :
  xml_safe t = true →
  Xml.read_text 0 0 (ET.escape_cdata t +:+ String "<" rest) = Some (t, String "<" rest).
Proof. apply read_text_escape_from. Qed.

Lemma escape_attrib_cons (c : ascii) (t : string) :
  ET.escape_attrib (String c t)
  = (if decide (c = "&"%char) then "&amp;"
     else if decide (c = "<"%char) then "&lt;"
     else if decide (c = ">"%char) then "&gt;"
     else if decide (c = "034"%char) then "&quot;"
     else if decide (c = "013"%char) then "&#13;"
     else if decide (c = "010"%char) then "&#10;"
     else if decide (c = "009"%char) then "&#09;"
     else String c "") +:+ ET.escape_attrib t.
Proof. reflexivity. Qed.

Lemma read_value_reference (X : string) :
  Xml.read_value 0 0 ("&amp;" +:+ X)
    = ('(t, rest) ← Xml.read_value 0 0 X; Some (String "&" t, rest)) ∧
  Xml.read_value 0 0 ("&lt;" +:+ X)
    = ('(t, rest) ← Xml.read_value 0 0 X; Some (String "<" t, rest)) ∧
  Xml.read_value 0 0 ("&gt;" +:+ X)
    = ('(t, rest) ← Xml.read_value 0 0 X; Some (String ">" t, rest)) ∧
  Xml.read_value 0 0 ("&quot;" +:+ X)
    = ('(t, rest) ← Xml.read_value 0 0 X; Some (String "034" t, rest)).
Proof. by repeat split. Qed.

Lemma printable_ascii_char (c : ascii) :
  printable_ascii c = true →
  c ≠ "013"%char ∧ c ≠ "010"%char ∧ c ≠ "009"%char ∧
  (Utf8.byte c < 128)%Z ∧ Xml.is_xml_char (Utf8.byte c) = true.
Proof.
  unfold printable_ascii. intros [H1 H2]%andb_true_iff.
  repeat split; try (intros ->; by vm_compute in H1).
  - change (Chars.code c) with (Utf8.byte c) in H2. lia.
  - change (Chars.code c) with (Utf8.byte c) in H1, H2.
    unfold Xml.is_xml_char. rewrite H1.
    replace (Utf8.byte c =? 65534)%Z with false by lia.
    replace (Utf8.byte c =? 65535)%Z with false by lia.
    by rewrite !orb_true_r.
Qed.

Lemma read_value_escape (v rest : string) :
  all_chars printable_ascii v = true →
  Xml.read_value 0 0 (ET.escape_attrib v +:+ String "034" rest) = Some (v, rest).
Proof.
  induction v as [|c v IH]; intros Hsafe; [done|].
  simpl in Hsafe. apply andb_true_iff in Hsafe as [Hc Hv].
  apply printable_ascii_char in Hc as (Hcr & Hlf & Htab & Hlow & Hx).
  specialize (IH Hv). rewrite escape_attrib_cons, string_app_assoc.
  destruct (read_value_reference (ET.escape_attrib v +:+ String "034" rest))
    as (Ha & Hl & Hg & Hq).
  destruct (decide (c = "&"%char)) as [->|H1]; [by rewrite Ha, IH|].
  destruct (decide (c = "<"%char)) as [->|H2]; [by rewrite Hl, IH|].
  destruct (decide (c = ">"%char)) as [->|H3]; [by rewrite Hg, IH|].
  destruct (decide (c = "034"%char)) as [->|H4]; [by rewrite Hq, IH|].
  rewrite !decide_False by done. rewrite string_app_cons, string_app_nil_l.
  cbn [Xml.read_value]. rewrite !decide_False by done.
  rewrite !bool_decide_eq_false_2 by done. cbn [orb].
  rewrite decode_ascii by done. rewrite Hx. change (1 - 1) with 0. by rewrite IH.
Qed.

Lemma name_start_char (c : ascii) :
  Xml.is_name_start c = true →
  Xml.is_name_char c = true ∧ c ≠ "/"%char ∧ c ≠ ">"%char ∧ c ≠ " "%char.
Proof.
  intros Hc. split; [unfold Xml.is_name_char; by rewrite Hc|].
  repeat split; intros ->; by vm_compute in Hc.
Qed.

Lemma name_char_first (n : string) :
  wf_name n = true →
  ∃ c n', n = String c n' ∧ Xml.is_name_char c = true ∧ c ≠ "/"%char ∧ c ≠ ">"%char
    ∧ c ≠ " "%char.
Proof.
  unfold wf_name, Xml.is_name. destruct n as [|c n']; [done|]. simpl.
  intros [Hc _]%andb_true_iff. exists c, n'. split; [done|]. by apply name_start_char.
Qed.

Lemma wf_name_chars (n : string) :
  wf_name n = true → all_chars Xml.is_name_char n = true.
Proof. unfold wf_name, Xml.is_name. by intros [? ?]%andb_true_iff. Qed.

Lemma serialize_attrs_cons (k v : string) (attrs : list (string * string)) (tail : string) :
  ET.concat_map ET.serialize_attr ((k, v) :: attrs) +:+ tail
  = String " " (k +:+ String "=" (String "034"
      (ET.escape_attrib v +:+ String "034"
         (ET.concat_map ET.serialize_attr attrs +:+ tail)))).
Proof.
  cbn [ET.concat_map]. unfold ET.serialize_attr at 1. cbn [fst snd]. unfold ET.DQUOTE.
  by rewrite !string_app_assoc, !string_app_cons, !string_app_nil_l.
Qed.

Lemma read_attrs_serialize (attrs : list (string * string)) :
  Forall (λ kv, wf_attr kv = true) attrs → NoDup attrs.*1 →
  ∀ fuel rest, length attrs < fuel →
    Xml.read_attrs fuel (ET.concat_map ET.serialize_attr attrs +:+ String ">" rest)
      = Some (attrs, false, rest) ∧
    Xml.read_attrs fuel
      (ET.concat_map ET.serialize_attr attrs +:+ String " " (String "/" (String ">" rest)))
      = Some (attrs, true, rest).
Proof.
  induction 1 as [|[k v] attrs Hkv _ IH]; intros Hnd fuel rest Hfuel.
  - destruct fuel as [|fuel]; [simpl in Hfuel; lia|]. by split.
  - destruct fuel as [|fuel]; [simpl in Hfuel; lia|].
    rewrite fmap_cons in Hnd. apply NoDup_cons in Hnd as [Hfresh Hnd]. cbn [fst] in Hfresh.
    simpl in Hfuel. destruct (IH Hnd fuel rest ltac:(lia)) as [IH1 IH2].
    unfold wf_attr in Hkv. simpl in Hkv. apply andb_true_iff in Hkv as [Hk Hv].
    assert (wf_name k = true) as Hname.
    { unfold Xml.is_attribute_name in Hk. by apply andb_true_iff in Hk as [? _]. }
    pose proof (wf_name_chars _ Hname) as Hkc.
    destruct (name_char_first _ Hname) as (c & k' & -> & Hc & Hs & Hg & Hsp).
    assert (Hstep : ∀ tail,
      Xml.read_attrs (S fuel)
        (ET.concat_map ET.serialize_attr ((String c k', v) :: attrs) +:+ tail)
      = '(kvs, empty, r4) ← Xml.read_attrs fuel
           (ET.concat_map ET.serialize_attr attrs +:+ tail);
        if bool_decide (String c k' ∈ kvs.*1) then None
        else Some ((String c k', v) :: kvs, empty, r4)).
    { intros tail. rewrite serialize_attrs_cons.
      cbn [Xml.read_attrs]. rewrite decide_False by done.
      rewrite string_app_cons.
      cbn [PyStr.drop_prefix]. rewrite decide_False by done.
      rewrite decide_True by done. rewrite (decide_False (P := "/"%char = c)) by done.
      rewrite <- string_app_cons.
      rewrite read_name_app; [|done|done]. rewrite Hk.
      change (PyStr.drop_prefix ("=" +:+ ET.DQUOTE) (String "=" (String "034" ?x)))
        with (Some x).
      cbn [mbind option_bind]. by rewrite read_value_escape. }
    rewrite !Hstep, IH1, IH2. cbn [mbind option_bind].
    by rewrite bool_decide_eq_false_2.
Qed.

Lemma element_ind' (P : ET.element → Prop) :
  (∀ tag attrib text children,
     Forall P children → P (ET.Element tag attrib text children)) →
  ∀ e, P e.
Proof.
  intros H. fix IH 1. intros [tag attrib text children]. apply H.
  induction children as [|c children IHc]; constructor; [apply IH | exact IHc].
Qed.

Lemma drop_prefix_app (p rest : string) : PyStr.drop_prefix p (p +:+ rest) = Some rest.
Proof.
  induction p as [|c p IH]; [done|]. rewrite string_app_cons. cbn [PyStr.drop_prefix].
  by rewrite decide_True.
Qed.

Lemma serialize_app tag attrib text children rest :
  ET.serialize (ET.Element tag attrib text children) +:+ rest
  = String "<" (tag +:+ (ET.concat_map ET.serialize_attr attrib
      +:+ (if PyStr.truthy_opt text || negb (is_empty children) then
             String ">" (ET.escape_cdata (default "" text)
               +:+ (ET.concat_map ET.serialize children
               +:+ String "<" (String "/" (tag +:+ String ">" rest))))
           else String " " (String "/" (String ">" rest))))).
Proof.
  cbn [ET.serialize].
  change ("<" +:+ ?x) with (String "<" x). rewrite string_app_cons. f_equal.
  rewrite !string_app_assoc. do 2 f_equal.
  destruct (PyStr.truthy_opt text || negb (is_empty children)) eqn:E; [|done].
  change (">" +:+ ?x) with (String ">" x). rewrite string_app_cons. f_equal.
  rewrite !string_app_assoc.
  change ("</" +:+ ?x) with (String "<" (String "/" x)).
  change (">" +:+ ?x) with (String ">" x).
  destruct text as [[|c t]|]; done.
Qed.

Lemma serialize_starts (e : ET.element) (rest : string) :
  wf_element e →
  ∃ c tail, ET.serialize e +:+ rest = String "<" (String c tail)
    ∧ c ≠ "/"%char.
Proof.
  intros [tag attrib text children Htag _ _ _ _].
  destruct (name_char_first _ Htag) as (c & n' & -> & _ & Hs & _).
  rewrite serialize_app, !string_app_cons. eauto.
Qed.

Lemma parse_children_serialize (kids : list ET.element) :
  Forall (λ k, wf_element k ∧ ∀ fuel rest, weight k ≤ fuel →
     Xml.parse_element fuel (ET.serialize k +:+ rest) = Some (canon k, rest)) kids →
  ∀ fuel X, list_sum (List.map (λ c, S (weight c)) kids) < fuel →
    Xml.parse_children fuel
      (ET.concat_map ET.serialize kids +:+ String "<" (String "/" X))
    = Some (List.map canon kids, String "<" (String "/" X)).
Proof.
  induction 1 as [|k kids [Hwf Hk] _ IH]; intros fuel X Hfuel.
  - destruct fuel as [|fuel]; [simpl in Hfuel; lia|]. done.
  - destruct fuel as [|fuel]; [simpl in Hfuel; lia|]. simpl in Hfuel.
    cbn [ET.concat_map]. rewrite string_app_assoc.
    cbn [Xml.parse_children].
    destruct (serialize_starts k
      (ET.concat_map ET.serialize kids +:+ String "<" (String "/" X)) Hwf)
      as (c & tail & Heq & Hc).
    replace (Xml.starts_end_tag _) with false.
    2:{ rewrite Heq. unfold Xml.starts_end_tag, PyStr.has_prefix. cbn [PyStr.drop_prefix].
        rewrite decide_True by done. by rewrite decide_False by done. }
    rewrite Hk by lia. cbn [mbind option_bind]. rewrite IH by lia. done.
Qed.

Lemma attrs_tail_not_name (attrib : list (string * string)) (tail : string) :
  starts_with Xml.is_name_char tail = false →
  starts_with Xml.is_name_char (ET.concat_map ET.serialize_attr attrib +:+ tail) = false.
Proof.
  destruct attrib as [|[k v] attrib]; [done|]. intros _.
  by rewrite serialize_attrs_cons.
Qed.

Lemma kids_tail_starts (kids : list ET.element) (tail : string) :
  Forall wf_element kids →
  ∃ R, ET.concat_map ET.serialize kids +:+ String "<" tail = String "<" R.
Proof.
  destruct 1 as [|k kids Hk _]; [by eexists|].
  cbn [ET.concat_map]. rewrite string_app_assoc.
  destruct (serialize_starts k (ET.concat_map ET.serialize kids +:+ String "<" tail) Hk)
    as (c & t & -> & _). by eexists.
Qed.

Lemma parse_serialize (e : ET.element) :
  wf_element e → ∀ fuel rest, weight e ≤ fuel →
  Xml.parse_element fuel (ET.serialize e +:+ rest) = Some (canon e, rest).
Proof.
  induction e as [tag attrib text children IH] using element_ind'.
  intros Hwf fuel rest Hfuel.
  inversion Hwf as [? ? ? ? Htag Hattr Hnd Htext Hkids]; subst.
  destruct fuel as [|fuel]; [simpl in Hfuel; lia|]. cbn [weight] in Hfuel.
  pose proof (wf_name_chars _ Htag) as Htc. unfold wf_name in Htag.
  rewrite serialize_app. cbn [Xml.parse_element].
  destruct (PyStr.truthy_opt text || negb (is_empty children)) eqn:Hbody.
  - rewrite read_name_app; [|done|by apply attrs_tail_not_name]. rewrite Htag.
    destruct (read_attrs_serialize attrib Hattr Hnd fuel
      (ET.escape_cdata (default "" text) +:+ (ET.concat_map ET.serialize children
         +:+ String "<" (String "/" (tag +:+ String ">" rest)))) ltac:(lia)) as [-> _].
    cbn [mbind option_bind].
    destruct (kids_tail_starts children (String "/" (tag +:+ String ">" rest)) Hkids)
      as [R HR].
    rewrite HR, read_text_escape by done. cbn [mbind option_bind]. rewrite <- HR.
    rewrite parse_children_serialize.
    + cbn [mbind option_bind].
      replace (String "<" (String "/" (tag +:+ String ">" rest)))
        with (("</" +:+ tag +:+ ">") +:+ rest).
      2:{ by rewrite !string_app_assoc. }
      rewrite drop_prefix_app. cbn [mbind option_bind canon]. do 3 f_equal.
      by destruct text.
    + rewrite Forall_forall in *. intros k Hk. split; [by apply Hkids|].
      intros f r Hf. by apply IH; [|apply Hkids|].
    + lia.
  - rewrite read_name_app; [|done|by apply attrs_tail_not_name]. rewrite Htag.
    destruct (read_attrs_serialize attrib Hattr Hnd fuel rest ltac:(lia)) as [_ ->].
    cbn [mbind option_bind].
    apply orb_false_iff in Hbody as [Ht Hc].
    destruct children; [|done]. cbn [canon List.map].
    destruct text as [[|c t]|]; done.
Qed.

Lemma attrs_length (attrib : list (string * string)) :
  length attrib ≤ String.length (ET.concat_map ET.serialize_attr attrib).
Proof.
  induction attrib as [|kv attrib IH]; [done|].
  cbn [ET.concat_map]. rewrite string_app_length. unfold ET.serialize_attr at 1.
  change (" " +:+ ?x) with (String " " x). simpl. lia.
Qed.

Lemma weight_lt_length (e : ET.element) :
  wf_element e → weight e < String.length (ET.serialize e).
Proof.
  induction e as [tag attrib text children IH] using element_ind'.
  intros Hwf. inversion Hwf as [? ? ? ? Htag Hattr Hnd Htext Hkids]; subst.
  destruct (name_char_first _ Htag) as (c & n' & -> & _).
  rewrite <- (string_app_nil_r (ET.serialize _)), serialize_app.
  cbn [weight String.length]. rewrite !string_app_length. cbn [String.length].
  pose proof (attrs_length attrib) as Ha.
  destruct (PyStr.truthy_opt text || negb (is_empty children)) eqn:Hbody.
  - cbn [String.length]. rewrite !string_app_length. cbn [String.length].
    assert (Hk : list_sum (List.map (λ c, S (weight c)) children)
                 ≤ String.length (ET.concat_map ET.serialize children)).
    { clear -IH Hkids. induction children as [|k ks IHks]; [done|].
      inversion IH; inversion Hkids; subst. cbn [List.map list_sum ET.concat_map].
      rewrite string_app_length. specialize (IHks ltac:(done) ltac:(done)).
      assert (weight k < String.length (ET.serialize k)) by auto.
      change (list_sum (?x :: ?l)) with (x + list_sum l). lia. }
    lia.
  - apply orb_false_iff in Hbody as [_ Hc]. destruct children; [|done].
    cbn [List.map String.length]. change (list_sum []) with 0. lia.
Qed.

Lemma parse_document (root : ET.element) :
  wf_element root →
  Xml.parse (XML_DECLARATION +:+ ET.tostring root) = Some (canon root).
Proof.
  intros Hwf. unfold Xml.parse, ET.tostring, Xml.prolog.
  rewrite drop_prefix_app. cbn zeta.
  rewrite <- (string_app_nil_r (ET.serialize root)) at 2.
  rewrite parse_serialize; [done | done |].
  pose proof (weight_lt_length root Hwf). lia.
Qed.

(** *** Text in ASCII *)

Lemma all_chars_app (P : ascii → bool) (a b : string) :
  all_chars P (a +:+ b) = all_chars P a && all_chars P b.
Proof.
  induction a as [|c a IH]; [done|]. rewrite string_app_cons. simpl.
  by rewrite IH, andb_assoc.
Qed.

Lemma all_chars_impl (P Q : ascii → bool) (s : string) :
  (∀ c, P c = true → Q c = true) → all_chars P s = true → all_chars Q s = true.
Proof.
  intros HPQ. induction s as [|c s IH]; [done|]. simpl.
  intros [Hc Hs]%andb_true_iff. by rewrite (HPQ c Hc), (IH Hs).
Qed.

Lemma printable_ascii_xml_safe (s : string) :
  all_chars printable_ascii s = true → xml_safe s = true.
Proof.
  unfold xml_safe. induction s as [|c s IH]; [done|]. simpl all_chars.
  intros [Hc Hs]%andb_true_iff. cbn [xml_safe_from].
  pose proof Hc as Hc'. apply printable_ascii_char in Hc' as (_ & _ & _ & Hlow & _).
  rewrite decode_ascii by done. change (1 - 1) with 0. rewrite (IH Hs), andb_true_r.
  unfold printable_ascii in Hc. apply andb_true_iff in Hc as [H1 H2].
  change (Chars.code c) with (Utf8.byte c) in H1, H2.
  unfold text_char. rewrite H1.
  replace (Utf8.byte c =? 65534)%Z with false by lia.
  replace (Utf8.byte c =? 65535)%Z with false by lia.
  by rewrite !orb_true_r.
Qed.

Lemma date_char_digit (d : Z) : date_char (Chars.digit_char (d mod 10)) = true.
Proof.
  assert (H : (0 ≤ d mod 10 < 10)%Z) by (apply Z.mod_pos_bound; lia).
  assert (Hd : (d mod 10 = 0 ∨ d mod 10 = 1 ∨ d mod 10 = 2 ∨ d mod 10 = 3 ∨ d mod 10 = 4
    ∨ d mod 10 = 5 ∨ d mod 10 = 6 ∨ d mod 10 = 7 ∨ d mod 10 = 8 ∨ d mod 10 = 9)%Z) by lia.
  destruct Hd as [-> | [-> | [-> | [-> | [-> | [-> | [-> | [-> | [-> | ->]]]]]]]]]; done.
Qed.

Lemma date_chars_dec_go (fuel : nat) : ∀ n acc,
  all_chars date_char acc = true → all_chars date_char (Chars.dec_go fuel n acc) = true.
Proof.
  induction fuel as [|fuel IH]; intros n acc Hacc; [done|].
  cbn [Chars.dec_go].
  assert (Hs : all_chars date_char (String (Chars.digit_char (n mod 10)) acc) = true).
  { cbn [all_chars]. by rewrite date_char_digit, Hacc. }
  destruct (n <? 10)%Z; [done | by apply IH].
Qed.

Lemma date_chars_dec (n : Z) : all_chars date_char (Chars.dec n) = true.
Proof. by apply date_chars_dec_go. Qed.

Lemma date_chars_zeros (k : nat) : all_chars date_char (Chars.zeros k) = true.
Proof. induction k; [done|]. simpl. by rewrite IHk. Qed.

Lemma date_chars_pad (w : nat) (n : Z) : all_chars date_char (Chars.pad w n) = true.
Proof. unfold Chars.pad. by rewrite all_chars_app, date_chars_zeros, date_chars_dec. Qed.

Lemma date_chars_nth (l : list string) (k : nat) :
  forallb (all_chars date_char) l = true → all_chars date_char (nth k l "") = true.
Proof.
  revert k; induction l as [|x l IH]; intros [|k] Hl; simpl in *; try done;
    apply andb_true_iff in Hl as [? ?]; auto.
Qed.

Lemma date_chars_utcoffset (off : Z) :
  all_chars date_char (Strftime.format_utcoffset off) = true.
Proof.
  unfold Strftime.format_utcoffset.
  assert (Hsign : all_chars date_char (if (off <? 0)%Z then "-" else "+") = true)
    by (by destruct (off <? 0)%Z).
  repeat match goal with |- context [if ?b then _ else _] =>
    lazymatch b with (off <? 0)%Z => fail | _ => destruct b end end;
  rewrite ?all_chars_app, ?date_chars_pad, Hsign; done.
Qed.

Lemma date_chars_directive (dt : datetime) (d : ascii) :
  d ∈ ["a"; "d"; "b"; "Y"; "H"; "M"; "S"; "z"]%char →
  all_chars date_char (Strftime.directive dt d) = true.
Proof.
  intros Hd. unfold Strftime.directive.
  repeat (apply elem_of_cons in Hd as [-> | Hd]);
    try (by apply elem_of_nil in Hd);
    repeat (rewrite decide_False by done); rewrite decide_True by done;
    auto using date_chars_pad, date_chars_dec, date_chars_nth.
  destruct (tzinfo dt); [apply date_chars_utcoffset | done].
Qed.

Lemma date_chars_strftime_rss (dt : datetime) :
  all_chars date_char (strftime dt RSS_DATE_FORMAT) = true.
Proof.
  unfold RSS_DATE_FORMAT. cbn [strftime].
  repeat first
    [ rewrite all_chars_app
    | rewrite date_chars_directive by (rewrite list_elem_of_In; simpl; tauto)
    | progress cbn [all_chars] ].
  reflexivity.
Qed.

Lemma date_char_printable (c : ascii) : date_char c = true → printable_ascii c = true.
Proof.
  unfold date_char, printable_ascii, Chars.is_digit, Chars.in_range.
  rewrite !orb_true_iff, !andb_true_iff, bool_decide_eq_true, !Z.leb_le.
  intros [[[H|H]|H]|H].
  - change (Chars.code "0") with 48%Z in H. change (Chars.code "9") with 57%Z in H. lia.
  - change (Chars.code "A") with 65%Z in H. change (Chars.code "Z") with 90%Z in H. lia.
  - change (Chars.code "a") with 97%Z in H. change (Chars.code "z") with 122%Z in H. lia.
  - repeat (apply elem_of_cons in H as [-> | H]); try (by apply elem_of_nil in H);
      by vm_compute.
Qed.

Lemma xml_safe_strftime_rss (dt : datetime) :
  xml_safe (strftime dt RSS_DATE_FORMAT) = true.
Proof.
  apply printable_ascii_xml_safe.
  apply (all_chars_impl date_char); [apply date_char_printable|].
  apply date_chars_strftime_rss.
Qed.

Section Assembler.

Variable clock : nat → datetime.

Lemma normalize_pubdate_text (k : nat) (it : entry) :
  normalize_pubdate (clock k) (pubdate_raw it) = Ok (pubdate_text clock k it).
Proof.
  unfold pubdate_text.
  by destruct (normalize_pubdate_never_raises (clock k) (pubdate_raw it)) as (out & -> & _).
Qed.

Lemma xml_safe_pubdate_text (k : nat) (it : entry) :
  xml_safe (pubdate_text clock k it) = true.
Proof.
  unfold pubdate_text.
  destruct (normalize_pubdate_never_raises (clock k) (pubdate_raw it))
    as (out & -> & [-> | (s & dt & _ & _ & ->)]); apply xml_safe_strftime_rss.
Qed.

Lemma add_items_eq (items : list entry) : ∀ k channel,
  add_items clock k channel items = Ok (channel ++ item_elements clock k items).
Proof.
  induction items as [|it items IH]; intros k channel; simpl.
  - by rewrite app_nil_r.
  - unfold item_element. rewrite normalize_pubdate_text. cbn [mbind res_bind].
    rewrite IH. by rewrite <- app_assoc.
Qed.

Lemma rss_tree_eq (items : list entry) :
  rss_tree clock items
  = Ok (ET.Element "rss" [("version", "2.0")] None
          [ET.Element "channel" [] None
             (channel_head clock ++ item_elements clock 1 items)]).
Proof. unfold rss_tree. by rewrite add_items_eq. Qed.

Lemma build_rss_eq (items : list entry) :
  build_rss clock items
  = Ok {| file_bytes := XML_DECLARATION +:+ ET.tostring
            (ET.Element "rss" [("version", "2.0")] None
               [ET.Element "channel" [] None
                  (channel_head clock ++ item_elements clock 1 items)]);
          printed := "Wrote " +:+ OUTPUT_FILE +:+ " with "
                     +:+ Chars.dec (Z.of_nat (length items)) +:+ " items" |}.
Proof. unfold build_rss. by rewrite rss_tree_eq. Qed.

Lemma xml_safe_or_empty (s : string) : xml_safe s = true → xml_safe (or_empty s) = true.
Proof. unfold or_empty. by destruct s. Qed.

Lemma wf_sub_text (tag text : string) :
  wf_name tag = true → xml_safe text = true → wf_element (ET.sub_text tag text).
Proof. intros Htag Htext. constructor; [done | constructor | constructor | done | constructor]. Qed.

Lemma wf_item_elements (items : list entry) : ∀ k,
  Forall (λ it, entry_xml_safe it = true) items →
  Forall wf_element (item_elements clock k items).
Proof.
  induction items as [|it items IH]; intros k Hsafe; [constructor|].
  inversion Hsafe as [|? ? Hit Hrest]; subst.
  unfold entry_xml_safe in Hit. apply andb_true_iff in Hit as [[Ht Hl]%andb_true_iff Hs].
  cbn [item_elements]. constructor; [|by apply IH].
  constructor; [done | constructor | constructor | done |].
  repeat apply Forall_cons_2; try apply Forall_nil_2;
    apply wf_sub_text; try done;
    auto using xml_safe_or_empty, xml_safe_pubdate_text.
Qed.

Lemma wf_channel_head : Forall wf_element (channel_head clock).
Proof.
  unfold channel_head.
  repeat apply Forall_cons_2; try apply Forall_nil_2;
    apply wf_sub_text; try (by vm_compute).
  apply xml_safe_strftime_rss.
Qed.

Lemma wf_rss (items : list entry) :
  Forall (λ it, entry_xml_safe it = true) items →
  wf_element (ET.Element "rss" [("version", "2.0")] None
    [ET.Element "channel" [] None (channel_head clock ++ item_elements clock 1 items)]).
Proof.
  intros Hsafe. constructor; [done | by repeat constructor | | done |].
  { apply NoDup_singleton. }
  constructor; [|constructor].
  constructor; [done | constructor | constructor | done |].
  apply Forall_app. split; [apply wf_channel_head | by apply wf_item_elements].
Qed.

Lemma feed_entry_of_item (k : nat) (it : entry) :
  feed_entry_of (canon (ET.Element "item" [] None
      [ET.sub_text "title" (title it);
       ET.sub_text "link" (link it);
       ET.sub_text "guid" (link it);
       ET.sub_text "description" (or_empty (summary it));
       ET.sub_text "pubDate" (pubdate_text clock k it)]))
  = expected_entry clock k it.
Proof.
  unfold feed_entry_of, expected_entry, ET.findtext, ET.find, ET.findall, or_empty.
  by destruct (title it), (link it), (summary it), (pubdate_text clock k it).
Qed.

Lemma findall_items (items : list entry) : ∀ k,
  feed_entry_of <$> filter (λ c, ET.tag_of c = "item")
    (List.map canon (item_elements clock k items))
  = expected_entries clock k items.
Proof.
  induction items as [|it items IH]; intros k; [done|].
  cbn [item_elements List.map]. rewrite filter_cons_True by done.
  rewrite fmap_cons, IH, feed_entry_of_item. done.
Qed.

Lemma feed_entries_rss (items : list entry) :
  feed_entries (canon (ET.Element "rss" [("version", "2.0")] None
    [ET.Element "channel" [] None (channel_head clock ++ item_elements clock 1 items)]))
  = expected_entries clock 1 items.
Proof.
  unfold feed_entries, ET.find, ET.findall. cbn [canon List.map ET.children_of].
  rewrite filter_cons_True by done. cbn [head ET.children_of].
  rewrite List.map_app, filter_app.
  replace (filter _ (List.map canon (channel_head clock))) with (@nil ET.element)
    by reflexivity.
  apply findall_items.
Qed.

End Assembler.

Lemma expected_entries_lookup (clock : nat → datetime) (items : list entry) : ∀ k i,
  expected_entries clock k items !! i = expected_entry clock (k + i) <$> items !! i.
Proof.
  induction items as [|it items IH]; intros k [|i]; simpl; try done.
  - by rewrite Nat.add_0_r.
  - rewrite IH. do 2 f_equal. lia.
Qed.

Lemma expected_entries_length (clock : nat → datetime) (items : list entry) (k : nat) :
  length (expected_entries clock k items) = length items.
Proof. revert k; induction items as [|it items IH]; intros k; simpl; [done | by rewrite IH]. Qed.

(** C6 (amended).  For every list of records [build_rss] returns without
    raising, also for the empty list, and the bytes it writes begin with
    the XML declaration line naming the encoding.  When the title, link
    and summary of every record consist of characters that XML character
    data carries unchanged (tab, line feed, and the characters from
    U+0020 on other than U+FFFE and U+FFFF: no carriage return, no other
    control character below U+0020), the document reads back as exactly
    one entry per record, in the order of the input, each with the
    record's title, link and summary, with guid equal to the link, and
    with the record's normalised pubDate. *)
Theorem build_rss_round_trip (clock : nat → datetime) (items : list entry) :
  (∃ out body, build_rss clock items = Ok out ∧ file_bytes out = XML_DECLARATION +:+ body)
  ∧
  (Forall (λ it, entry_xml_safe it = true) items →
   ∃ out root,
     build_rss clock items = Ok out ∧
     Xml.parse (file_bytes out) = Some root ∧
     feed_entries root = expected_entries clock 1 items ∧
     read_back clock items = Some (expected_entries clock 1 items) ∧
     length (feed_entries root) = length items ∧
     ∀ i it, items !! i = Some it →
       ∃ pubdate,
         normalize_pubdate (clock (S i)) (pubdate_raw it) = Ok pubdate ∧
         feed_entries root !! i
         = Some {| entry_title := Some (title it); entry_link := Some (link it);
                   entry_guid := Some (link it);
                   entry_description := Some (summary it);
                   entry_pubDate := Some pubdate |}).
Proof.
  split.
  - rewrite build_rss_eq. by eexists _, _.
  - intros Hsafe.
    pose proof (parse_document _ (wf_rss clock items Hsafe)) as Hparse.
    pose proof (feed_entries_rss clock items) as Hfeed.
    eexists _, _. split; [apply build_rss_eq|]. cbn [file_bytes].
    split; [exact Hparse|]. split; [exact Hfeed|]. split; [|split].
    + unfold read_back. rewrite build_rss_eq. cbn [file_bytes].
      rewrite Hparse. cbn [fmap option_fmap option_map]. by rewrite Hfeed.
    + by rewrite Hfeed, expected_entries_length.
    + intros i it Hit. exists (pubdate_text clock (S i) it).
      split; [apply normalize_pubdate_text|].
      rewrite Hfeed, expected_entries_lookup, Hit. done.
Qed.

Lemma build_rss_round_trip_witness :
  read_back sample_clock sample_items
  = Some
      [{| entry_title := Some "Tariffs & <trade>";
          entry_link := Some "https://www.csis.org/analysis/one";
          entry_guid := Some "https://www.csis.org/analysis/one";
          entry_description := Some "";
          entry_pubDate := Some "Tue, 05 Mar 2024 00:00:00 +0000" |};
       {| entry_title := Some "Second";
          entry_link := Some "https://www.csis.org/analysis/two";
          entry_guid := Some "https://www.csis.org/analysis/two";
          entry_description := Some "A teaser";
          entry_pubDate := Some "Wed, 04 Nov 2026 12:30:02 +0000" |}].
Proof.
  destruct (build_rss_round_trip sample_clock sample_items) as [_ H].
  destruct H as (out & root & _ & _ & _ & Hread & _).
  - repeat constructor.
  - rewrite Hread. by vm_compute.
Defined.

(** C6 as stated fails for records whose text XML does not carry
    unchanged: a carriage return in a title is read back as a line feed;
    a form feed, or the character U+FFFF, makes the written document
    ill-formed, so that nothing is read back. *)
Lemma build_rss_round_trip_counterexample :
  (entry_xml_safe cr_entry = false ∧
   read_back sample_clock [cr_entry]
   = Some [{| entry_title := Some (String "a" (String "010" "b"));
              entry_link := Some "https://www.csis.org/x";
              entry_guid := Some "https://www.csis.org/x";
              entry_description := Some "";
              entry_pubDate := Some "Tue, 05 Mar 2024 00:00:00 +0000" |}] ∧
   read_back sample_clock [cr_entry] ≠ Some (expected_entries sample_clock 1 [cr_entry]))
  ∧
  (entry_xml_safe ff_entry = false ∧
   read_back sample_clock [ff_entry] = None ∧
   read_back sample_clock [ff_entry] ≠ Some (expected_entries sample_clock 1 [ff_entry]))
  ∧
  (entry_xml_safe nonchar_entry = false ∧
   read_back sample_clock [nonchar_entry] = None ∧
   read_back sample_clock [nonchar_entry]
     ≠ Some (expected_entries sample_clock 1 [nonchar_entry])).
Proof.
  repeat split; by vm_compute.
Qed.

(** ** Driver *)

Lemma parse_articles_raised (html_parser : string → res (list node))
    (urljoin : string → string → res string) (html : string) :
  parse_articles html_parser urljoin html = Raised ↔ html_parser html = Raised.
Proof. unfold parse_articles. by destruct (html_parser html). Qed.

Lemma parse_articles_ok (html_parser : string → res (list node))
    (urljoin : string → string → res string) (html : string) (items : list entry) :
  parse_articles html_parser urljoin html = Ok items ↔
  ∃ top, html_parser html = Ok top ∧ items = parse_soup urljoin (Soup.document top).
Proof.
  unfold parse_articles. destruct (html_parser html) as [top|]; cbn; split.
  - intros [= <-]. by exists top.
  - by intros (? & [= <-] & ->).
  - done.
  - by intros (? & ? & _).
Qed.

Section Driver.

Variable fetch_html : string → fetched.
Variable html_parser : string → res (list node).
Variable urljoin : string → string → res string.
Variable clock : nat → datetime.

Local Abbreviation run_main := (main fetch_html html_parser urljoin clock).
Local Abbreviation items_of html := (parse_articles html_parser urljoin html).

Lemma main_fetch_failure (e : string) :
  fetch_html START_URL = FetchRaised e →
  run_main = {| stdout := ["ERROR fetching: " +:+ e]; written := None; exit_status := 1 |}.
Proof. intros H. unfold main. by rewrite H. Qed.

Lemma main_parser_failure (html : string) :
  fetch_html START_URL = FetchReturned html → html_parser html = Raised →
  run_main = {| stdout := []; written := None; exit_status := 1 |}.
Proof.
  intros H Hp. unfold main. rewrite H.
  by rewrite (proj2 (parse_articles_raised html_parser urljoin html) Hp).
Qed.

Lemma main_no_items (html : string) :
  fetch_html START_URL = FetchReturned html → items_of html = Ok [] →
  run_main = {| stdout := ["No items found. Exiting."]; written := None;
                exit_status := 1 |}.
Proof. intros H Hnil. unfold main. by rewrite H, Hnil. Qed.

Lemma main_success (html : string) (items : list entry) :
  fetch_html START_URL = FetchReturned html → items_of html = Ok items → items ≠ [] →
  run_main = {| stdout := ["Wrote rss.xml with "
                           +:+ Chars.dec (Z.of_nat (length items)) +:+ " items"];
                written := Some (XML_DECLARATION +:+ ET.tostring
                  (ET.Element "rss" [("version", "2.0")] None
                     [ET.Element "channel" [] None
                        (channel_head clock ++ item_elements clock 1 items)]));
                exit_status := 0 |}.
Proof.
  intros H Hitems Hne. unfold main. rewrite H, Hitems.
  destruct items as [|it items]; [done|].
  cbn [is_empty]. by rewrite build_rss_eq.
Qed.

(** C8 (amended).  The run ends with a non-zero status exactly when the
    fetch raised, or the page parser raised, or no item was extracted.
    In the first case it prints [ERROR fetching:] followed by the error;
    in the second, the exception of the parser being caught nowhere, it
    prints nothing on standard output; in the third it prints
    [No items found. Exiting.]; in all three the status is 1 and nothing
    is written.  Otherwise the status is 0, the file written is the XML
    declaration followed by the serialised tree of the channel with one
    [item] element per extracted item, and the line printed is
    [Wrote rss.xml with N items] where [N] is the number of items. *)
Theorem main_outcomes :
  (exit_status run_main ≠ 0%Z ↔
     (∃ e, fetch_html START_URL = FetchRaised e) ∨
     (∃ html, fetch_html START_URL = FetchReturned html ∧ html_parser html = Raised) ∨
     (∃ html, fetch_html START_URL = FetchReturned html ∧ items_of html = Ok [])) ∧
  (∀ e, fetch_html START_URL = FetchRaised e →
     stdout run_main = ["ERROR fetching: " +:+ e] ∧
     written run_main = None ∧ exit_status run_main = 1%Z) ∧
  (∀ html, fetch_html START_URL = FetchReturned html → html_parser html = Raised →
     items_of html = Raised ∧
     stdout run_main = [] ∧
     written run_main = None ∧ exit_status run_main = 1%Z) ∧
  (∀ html, fetch_html START_URL = FetchReturned html → items_of html = Ok [] →
     stdout run_main = ["No items found. Exiting."] ∧
     written run_main = None ∧ exit_status run_main = 1%Z) ∧
  (∀ html items,
     fetch_html START_URL = FetchReturned html → items_of html = Ok items → items ≠ [] →
     stdout run_main = ["Wrote rss.xml with "
                        +:+ Chars.dec (Z.of_nat (length items)) +:+ " items"] ∧
     written run_main
       = Some (XML_DECLARATION +:+ ET.tostring
           (ET.Element "rss" [("version", "2.0")] None
              [ET.Element "channel" [] None
                 (channel_head clock ++ item_elements clock 1 items)])) ∧
     rss_tree clock items
       = Ok (ET.Element "rss" [("version", "2.0")] None
               [ET.Element "channel" [] None
                  (channel_head clock ++ item_elements clock 1 items)]) ∧
     exit_status run_main = 0%Z).
Proof.
  split; [|split; [|split; [|split]]].
  - destruct (fetch_html START_URL) as [e|html] eqn:Hf.
    + rewrite (main_fetch_failure e Hf). simpl. split; [|done]. intros _. left. by exists e.
    + destruct (items_of html) as [items|] eqn:Hitems.
      * destruct (decide (items = [])) as [->|Hne].
        -- rewrite (main_no_items html Hf Hitems). simpl. split; [|done].
           intros _. right. right. by exists html.
        -- rewrite (main_success html items Hf Hitems Hne). simpl. split; [done|].
           intros [[e [=]] | [(html' & [= <-] & Hr) | (html' & [= <-] & Hnil)]].
           ++ pose proof (proj2 (parse_articles_raised html_parser urljoin html) Hr).
              congruence.
           ++ congruence.
      * apply parse_articles_raised in Hitems.
        rewrite (main_parser_failure html Hf Hitems). simpl. split; [|done].
        intros _. right. left. by exists html.
  - intros e Hf. by rewrite (main_fetch_failure e Hf).
  - intros html Hf Hp. rewrite (main_parser_failure html Hf Hp).
    split; [by apply parse_articles_raised|done].
  - intros html Hf Hnil. by rewrite (main_no_items html Hf Hnil).
  - intros html items Hf Hitems Hne. rewrite (main_success html items Hf Hitems Hne).
    simpl. repeat split; try done. apply rss_tree_eq.
Qed.

End Driver.

Lemma main_outcomes_witness :
  stdout (main (λ _, FetchReturned "page") sample_parser sample_urljoin sample_clock)
    = ["Wrote rss.xml with 1 items"] ∧
  exit_status (main (λ _, FetchReturned "page") sample_parser sample_urljoin sample_clock)
    = 0%Z ∧
  stdout (main (λ _, FetchRaised "timed out") sample_parser sample_urljoin sample_clock)
    = ["ERROR fetching: timed out"] ∧
  stdout (main (λ _, FetchReturned "") sample_parser sample_urljoin sample_clock)
    = ["No items found. Exiting."] ∧
  stdout (main (λ _, FetchReturned "<![x[") rejecting_parser sample_urljoin sample_clock)
    = [].
Proof.
  destruct (main_outcomes (λ _, FetchReturned "page") sample_parser sample_urljoin
              sample_clock) as (_ & _ & _ & _ & H).
  destruct (H "page" [{| title := "One"; link := "https://www.csis.org/analysis/one";
                         summary := ""; pubdate_raw := None |}])
    as (H1 & _ & _ & H2); [done | by vm_compute | done |].
  destruct (main_outcomes (λ _, FetchRaised "timed out") sample_parser sample_urljoin
              sample_clock) as (_ & He & _ & _ & _).
  destruct (He "timed out") as (H3 & _); [done|].
  destruct (main_outcomes (λ _, FetchReturned "") sample_parser sample_urljoin
              sample_clock) as (_ & _ & _ & Hn & _).
  destruct (Hn "") as (H4 & _); [done | by vm_compute |].
  destruct (main_outcomes (λ _, FetchReturned "<![x[") rejecting_parser sample_urljoin
              sample_clock) as (_ & _ & Hp & _ & _).
  destruct (Hp "<![x[") as (_ & H5 & _); [done | by vm_compute |].
  split; [|split; [|split; [|split]]]; [|exact H2|exact H3|exact H4|exact H5].
  rewrite H1. by vm_compute.
Defined.

(** C8 as stated fails: there is a third fatal case.  On the page
    [<![x[] the parser raises, [main] catches nothing, and the run ends
    with status 1 although the fetch succeeded and no item count was ever
    zero; no line naming the failure is printed. *)
Lemma main_outcomes_counterexample :
  let run := main (λ _, FetchReturned "<![x[") rejecting_parser sample_urljoin
               sample_clock in
  exit_status run = 1%Z ∧ stdout run = [] ∧ written run = None ∧
  (∀ e, (λ _ : string, FetchReturned "<![x[") START_URL ≠ FetchRaised e) ∧
  parse_articles rejecting_parser sample_urljoin "<![x[" = Raised ∧
  parse_articles rejecting_parser sample_urljoin "<![x[" ≠ Ok [].
Proof. by repeat split. Qed.

(* ===================================================================== *)
(** * Part II, continued: further properties of the code *)
(* ===================================================================== *)

(** ** Deduplicator: how it composes *)

Lemma first_occurrences_from_fresh (l : list entry) : ∀ earlier,
  NoDup (link <$> l) → (∀ x, x ∈ link <$> l → x ∉ earlier) →
  first_occurrences_from earlier l = l.
Proof.
  induction l as [|r l IH]; intros earlier Hnd Hfresh; [done|].
  cbn [first_occurrences_from]. rewrite fmap_cons in Hnd, Hfresh.
  apply NoDup_cons in Hnd as [Hr Hnd].
  destruct (decide (link r ∈ earlier)) as [Hin|_].
  - exfalso. apply (Hfresh (link r)); [left|done].
  - f_equal. apply IH; [done|]. intros x Hx [->|Hin]%elem_of_cons; [done|].
    apply (Hfresh x); [by right|done].
Qed.

Lemma take_links_NoDup (n : nat) (l : list entry) :
  NoDup (link <$> l) → NoDup (link <$> take n l).
Proof.
  intros H. rewrite fmap_take. eapply sublist_NoDup; [exact H|]. apply sublist_take.
Qed.

Lemma first_occurrences_length (l : list entry) :
  length (first_occurrences l) = distinct_links l.
Proof.
  unfold first_occurrences, distinct_links. rewrite first_occurrences_from_length.
  f_equal. set_solver.
Qed.

(** X1.  Deduplicating is idempotent: running the loop again, with the
    same positive limit, on its own result changes nothing. *)
Theorem dedupe_and_limit_idempotent (max_count : nat) (results : list entry) :
  0 < max_count →
  dedupe_and_limit max_count (dedupe_and_limit max_count results)
  = dedupe_and_limit max_count results.
Proof.
  intros Hpos. rewrite !dedupe_and_limit_take by done.
  unfold first_occurrences at 1.
  rewrite first_occurrences_from_fresh.
  - rewrite take_take. f_equal. lia.
  - apply take_links_NoDup, first_occurrences_from_NoDup.
  - intros x _ Hx. by apply elem_of_nil in Hx.
Qed.

Lemma dedupe_and_limit_idempotent_witness :
  0 < 2 ∧
  dedupe_and_limit 2 (dedupe_and_limit 2
    [sample_entry "a" "/1"; sample_entry "b" "/1"; sample_entry "c" "/2";
     sample_entry "d" "/3"])
  = dedupe_and_limit 2
    [sample_entry "a" "/1"; sample_entry "b" "/1"; sample_entry "c" "/2";
     sample_entry "d" "/3"].
Proof.
  split; [lia|]. apply dedupe_and_limit_idempotent. lia.
Defined.

(** X2.  A smaller positive limit gives a prefix of what a larger limit
    gives: the first [m] records of the result for [n], when
    [0 < m <= n]. *)
Theorem dedupe_and_limit_smaller_limit (m n : nat) (results : list entry) :
  0 < m → m ≤ n →
  dedupe_and_limit m results = take m (dedupe_and_limit n results) ∧
  dedupe_and_limit m results `prefix_of` dedupe_and_limit n results.
Proof.
  intros Hm Hmn.
  assert (dedupe_and_limit m results = take m (dedupe_and_limit n results)) as E.
  { rewrite !dedupe_and_limit_take by lia. rewrite take_take. f_equal. lia. }
  split; [done|]. rewrite E. apply prefix_take.
Qed.

Lemma dedupe_and_limit_smaller_limit_witness :
  dedupe_and_limit 1
    [sample_entry "a" "/1"; sample_entry "b" "/1"; sample_entry "c" "/2"]
  = take 1 (dedupe_and_limit 40
    [sample_entry "a" "/1"; sample_entry "b" "/1"; sample_entry "c" "/2"]).
Proof.
  apply (dedupe_and_limit_smaller_limit 1 40); lia.
Defined.

(** X3.  When the input has no more distinct links than the (positive)
    limit, nothing but repetitions is dropped: the result is the list of
    first occurrences, every link of the input is a link of the result,
    and an input whose links are already pairwise distinct is returned
    unchanged. *)
Theorem dedupe_and_limit_within_limit (max_count : nat) (results : list entry) :
  0 < max_count → distinct_links results ≤ max_count →
  dedupe_and_limit max_count results = first_occurrences results ∧
  (∀ x, x ∈ link <$> results ↔ x ∈ link <$> dedupe_and_limit max_count results) ∧
  (NoDup (link <$> results) → dedupe_and_limit max_count results = results).
Proof.
  intros Hpos Hle.
  assert (dedupe_and_limit max_count results = first_occurrences results) as E.
  { rewrite dedupe_and_limit_take by done. apply take_ge.
    rewrite first_occurrences_length. done. }
  split; [done|]. rewrite E. split.
  - intros x. unfold first_occurrences. rewrite first_occurrences_from_links.
    split; [intros H; split; [done|apply not_elem_of_nil]|by intros [H _]].
  - intros Hnd. apply first_occurrences_from_fresh; [done|].
    intros x _. apply not_elem_of_nil.
Qed.

Lemma dedupe_and_limit_within_limit_witness :
  dedupe_and_limit 40
    [sample_entry "a" "/1"; sample_entry "b" "/1"; sample_entry "c" "/2"]
  = first_occurrences
    [sample_entry "a" "/1"; sample_entry "b" "/1"; sample_entry "c" "/2"].
Proof.
  apply (dedupe_and_limit_within_limit 40); [lia|vm_compute; lia].
Defined.

(** ** Article selector: what it returns *)

Lemma filter_filter_sublist {A} (M T Q : A → Prop)
    `{!∀ x, Decision (M x)} `{!∀ x, Decision (T x)} `{!∀ x, Decision (Q x)} (l : list A) :
  (∀ x, M x → Q x) → sublist (filter M (filter T l)) (filter Q l).
Proof.
  intros HMQ. induction l as [|x l IH]; [done|].
  rewrite !(filter_cons _ x l).
  destruct (decide (T x)) as [HT|HT].
  - rewrite filter_cons. destruct (decide (M x)) as [HM|HM].
    + rewrite decide_True by auto. by constructor.
    + destruct (decide (Q x)); [by constructor|done].
  - destruct (decide (Q x)); [by constructor|done].
Qed.

Lemma filter_sublist_of {A} (P : A → Prop) `{!∀ x, Decision (P x)} (l : list A) :
  sublist (filter P l) l.
Proof.
  induction l as [|x l IH]; [done|]. rewrite filter_cons.
  destruct (decide (P x)); by constructor.
Qed.

Lemma select_sublist_find_all (a : located) (sel name : string) :
  (∀ d, Soup.matches sel d = true → Soup.name_of (here d) = Some name) →
  sublist (Soup.select a sel) (Soup.find_all a name).
Proof.
  intros Hsel. unfold Soup.select, Soup.descendant_tags, Soup.find_all.
  by apply filter_filter_sublist.
Qed.

Lemma select_articles_sublist (soup : located) :
  sublist (select_articles soup) (Soup.find_all soup "article").
Proof.
  unfold select_articles.
  destruct (Soup.select soup "article.article-search-listing") as [|x1 l1] eqn:E1; simpl.
  - destruct (Soup.select soup ".views-row article") as [|x2 l2] eqn:E2; simpl; [done|].
    rewrite <- E2. apply select_sublist_find_all.
    intros d. apply matches_name_article. by right.
  - rewrite <- E1. apply select_sublist_find_all.
    intros d. apply matches_name_article. by left.
Qed.

(** X4.  Whatever strategy is used, the candidates are [article]
    elements of the page in document order: a subsequence of
    [find_all("article")], which is itself a subsequence of the page's
    nodes.  The selector returns no candidate exactly when the page has no
    [article] element. *)
Theorem select_articles_document_order (soup : located) :
  sublist (select_articles soup) (Soup.find_all soup "article") ∧
  sublist (Soup.find_all soup "article") (Soup.descendants soup) ∧
  (select_articles soup = [] ↔ Soup.find_all soup "article" = []).
Proof.
  split; [apply select_articles_sublist|]. split; [apply filter_sublist_of|].
  split.
  - unfold select_articles.
    destruct (Soup.select soup "article.article-search-listing") as [|x1 l1]; simpl; [|done].
    by destruct (Soup.select soup ".views-row article") as [|x2 l2]; simpl.
  - intros E. pose proof (select_articles_sublist soup) as H. rewrite E in H.
    by apply sublist_nil_r in H.
Qed.

(** ** Field extractor: anchor, optional fields, exceptions *)

Lemma matches_a_iff (d : located) :
  Soup.matches "a" d = true ↔ Soup.name_of (here d) = Some "a".
Proof.
  unfold Soup.matches.
  change (Soup.parse_selector "a") with [[Soup.Compound (Some "a") []]].
  unfold Soup.match_complex; simpl. destruct (here d) as [| |nm ats cl ch]; simpl;
    [done|done|].
  case_bool_decide; subst; simpl; split; congruence.
Qed.

Lemma select_a_find_all (a : located) : Soup.select a "a" = Soup.find_all a "a".
Proof.
  unfold Soup.select, Soup.descendant_tags, Soup.find_all.
  induction (Soup.descendants a) as [|d l IH]; [done|].
  rewrite !(filter_cons _ d l).
  destruct (decide (Soup.is_tag (here d) = true)) as [HT|HT].
  - rewrite filter_cons, IH.
    destruct (decide (Soup.matches "a" d = true)) as [HM|HM].
    + rewrite decide_True; [done|by apply matches_a_iff].
    + rewrite decide_False; [done|]. by rewrite <- matches_a_iff.
  - rewrite IH, decide_False; [done|].
    destruct (here d); simpl in *; congruence.
Qed.

Lemma match_ancestors_one (c : Soup.compound) (anc : list node) :
  Soup.match_ancestors [c] anc = true →
  ∃ p, p ∈ anc ∧ Soup.match_compound c p = true.
Proof.
  simpl. induction anc as [|p ps IH]; [done|].
  intros [H|H]%orb_true_iff.
  - apply andb_true_iff in H as [H _]. exists p. split; [left|done].
  - destruct (IH H) as (q & Hq & Hm). exists q. split; [by right|done].
Qed.

Lemma matches_h3_a (d : located) :
  Soup.matches "h3 a" d = true →
  Soup.name_of (here d) = Some "a" ∧
  ∃ p, p ∈ ancestors d ∧ Soup.name_of p = Some "h3".
Proof.
  intros H. split; [by apply (matches_name_a "h3 a"); [left|]|].
  revert H. unfold Soup.matches.
  change (Soup.parse_selector "h3 a")
    with [[Soup.Compound (Some "h3") []; Soup.Compound (Some "a") []]].
  unfold Soup.match_complex. cbn [rev app existsb].
  rewrite orb_false_r. intros [_ H]%andb_true_iff.
  apply match_ancestors_one in H as (p & Hp & Hm). exists p. split; [done|].
  destruct p as [| |nm ats cl ch]; simpl in *; [done|done|].
  case_bool_decide; subst; simpl in *; congruence.
Qed.

(** X5.  A candidate has no chosen anchor exactly when it contains no
    [a] element.  Otherwise the chosen anchor is an [a] element of the
    candidate: the first one that has an [h3] among its ancestors when
    there is such an anchor, and else the first [a] element in document
    order. *)
Theorem chosen_anchor_preference (a : located) :
  (chosen_anchor a = None ↔ Soup.find_all a "a" = []) ∧
  ∀ a_tag, chosen_anchor a = Some a_tag →
    a_tag ∈ Soup.find_all a "a" ∧
    (Soup.select a "h3 a" ≠ [] →
       Soup.select_one a "h3 a" = Some a_tag ∧
       ∃ p, p ∈ ancestors a_tag ∧ Soup.name_of p = Some "h3") ∧
    (Soup.select a "h3 a" = [] → Soup.find a "a" = Some a_tag).
Proof.
  split.
  - split; [|apply chosen_anchor_none].
    unfold chosen_anchor, Soup.select_one. rewrite select_a_find_all.
    destruct (Soup.select a "h3 a"); simpl; [|done].
    by destruct (Soup.find_all a "a").
  - intros a_tag. unfold chosen_anchor, Soup.select_one, Soup.find.
    rewrite select_a_find_all.
    destruct (Soup.select a "h3 a") as [|x l] eqn:E; simpl.
    + intros H. split; [|split; [done|by intros _]].
      destruct (Soup.find_all a "a") as [|y l']; simplify_eq/=. left.
    + intros [= ->].
      assert (a_tag ∈ Soup.select a "h3 a") as Hin by (rewrite E; left).
      split; [|split; [|done]].
      * eapply elem_of_sublist; [exact Hin|]. apply select_sublist_find_all.
        intros d. apply matches_name_a. by left.
      * intros _. split; [done|].
        unfold Soup.select in Hin. apply list_elem_of_filter in Hin as [Hm _].
        by apply matches_h3_a in Hm as [_ Hm].
Qed.

Lemma matches_class (sel k : string) (d : located) :
  Soup.parse_selector sel = [[Soup.Compound None [k]]] →
  (Soup.matches sel d = true ↔ ∃ nm ats cls ch, here d = Tag nm ats cls ch ∧ k ∈ cls).
Proof.
  intros Hsel. unfold Soup.matches. rewrite Hsel. unfold Soup.match_complex. cbn.
  destruct (here d) as [| |nm ats cls ch]; cbn.
  - split; [done|]. by intros (? & ? & ? & ? & ? & _).
  - split; [done|]. by intros (? & ? & ? & ? & ? & _).
  - rewrite !andb_true_r, orb_false_r, bool_decide_eq_true. split.
    + intros Hk. by exists nm, ats, cls, ch.
    + by intros (? & ? & ? & ? & [= <- <- <- <-] & Hk).
Qed.

Lemma head_elem_of {A} (l : list A) (x : A) : head l = Some x → x ∈ l.
Proof. destruct l; [done|]. intros [= ->]. left. Qed.

(** X6.  The summary of a candidate is empty when the candidate contains
    no [p] element and no element of class [search-listing--summary] or
    [teaser]; a summary that is not empty is the text of an element of
    the candidate that is one of these; when there is an element of
    class [search-listing--summary], the summary is the text of the first
    one, whatever else the candidate holds; failing that it is the text
    of the first element of class [teaser], and failing that too, of the
    first [p] element.  The text of an element is made of the strings
    below it that are of the element's interesting types: for a [script],
    [style], [template], [rt] or [rp] element its own kind of string, for
    any other element plain strings and CDATA sections. *)
Theorem summary_of_source (a : located) :
  ((∀ d nm ats cls ch, d ∈ Soup.descendants a → here d = Tag nm ats cls ch →
      nm ≠ "p" ∧ ("search-listing--summary" ∉ cls) ∧ ("teaser" ∉ cls)) →
   summary_of a = "") ∧
  (summary_of a ≠ "" →
   ∃ d nm ats cls ch, d ∈ Soup.descendants a ∧ here d = Tag nm ats cls ch ∧
     ("search-listing--summary" ∈ cls ∨ "teaser" ∈ cls ∨ nm = "p") ∧
     summary_of a = Soup.get_text_strip " " d) ∧
  (∀ d, Soup.select_one a ".search-listing--summary" = Some d →
     summary_of a = Soup.get_text_strip " " d) ∧
  (∀ d, Soup.select_one a ".search-listing--summary" = None →
     Soup.select_one a ".teaser" = Some d →
     summary_of a = Soup.get_text_strip " " d) ∧
  (∀ d, Soup.select_one a ".search-listing--summary" = None →
     Soup.select_one a ".teaser" = None → Soup.find a "p" = Some d →
     summary_of a = Soup.get_text_strip " " d) ∧
  (∀ d nm ats cls ch, here d = Tag nm ats cls ch →
     Soup.get_text_strip " " d
     = PyStr.join " "
         (filter (λ s, PyStr.truthy s = true)
            (PyStr.strip <$>
               Soup.strings_in (Soup.interesting_string_types nm) (here d)))).
Proof.
  assert (Hsrc : ∀ d,
    or_else (Soup.select_one a ".search-listing--summary")
      (or_else (Soup.select_one a ".teaser") (Soup.find a "p")) = Some d →
    ∃ nm ats cls ch, d ∈ Soup.descendants a ∧ here d = Tag nm ats cls ch ∧
      ("search-listing--summary" ∈ cls ∨ "teaser" ∈ cls ∨ nm = "p")).
  { intros d. unfold Soup.select_one, Soup.find.
    destruct (head (Soup.select a ".search-listing--summary")) as [x|] eqn:E1; cbn [or_else].
    { intros [= ->]. apply head_elem_of in E1. unfold Soup.select in E1.
      apply list_elem_of_filter in E1 as [Hm Hd].
      apply list_elem_of_filter in Hd as [_ Hd].
      apply (matches_class _ "search-listing--summary") in Hm
        as (nm & ats & cls & ch & Hh & Hk); [|done].
      exists nm, ats, cls, ch. auto. }
    destruct (head (Soup.select a ".teaser")) as [x|] eqn:E2; cbn [or_else].
    { intros [= ->]. apply head_elem_of in E2. unfold Soup.select in E2.
      apply list_elem_of_filter in E2 as [Hm Hd].
      apply list_elem_of_filter in Hd as [_ Hd].
      apply (matches_class _ "teaser") in Hm as (nm & ats & cls & ch & Hh & Hk); [|done].
      exists nm, ats, cls, ch. auto. }
    intros E3. apply head_elem_of in E3. unfold Soup.find_all in E3.
    apply list_elem_of_filter in E3 as [Hn Hd].
    destruct (here d) as [| |nm ats cls ch] eqn:Hh; [done|done|].
    injection Hn as ->. exists "p", ats, cls, ch. auto. }
  split; [|split; [|split; [|split; [|split]]]].
  - intros Hnone. unfold summary_of.
    destruct (or_else _ _) as [d|] eqn:E; [|done].
    destruct (Hsrc d eq_refl) as (nm & ats & cls & ch & Hd & Hh & Hc).
    destruct (Hnone d nm ats cls ch Hd Hh) as (? & ? & ?). tauto.
  - intros Hne. unfold summary_of in *.
    destruct (or_else _ _) as [d|] eqn:E; [|done].
    destruct (Hsrc d eq_refl) as (nm & ats & cls & ch & Hd & Hh & Hc).
    by exists d, nm, ats, cls, ch.
  - intros d E. unfold summary_of. by rewrite E.
  - intros d E1 E2. unfold summary_of. by rewrite E1, E2.
  - intros d E1 E2 E3. unfold summary_of. by rewrite E1, E2, E3.
  - intros d nm ats cls ch Hd. unfold Soup.get_text_strip, Soup.strings_of. by rewrite Hd.
Qed.

Lemma summary_of_source_witness :
  summary_of script_teaser_article = "var x" ∧
  Soup.get_text_strip " " {| ancestors := [here script_teaser_article];
                             here := script_teaser |}
  = "var x".
Proof.
  destruct (summary_of_source script_teaser_article) as (_ & _ & _ & H & _ & Ht).
  rewrite (H {| ancestors := [here script_teaser_article]; here := script_teaser |});
    [|by vm_compute|by vm_compute].
  rewrite (Ht {| ancestors := [here script_teaser_article]; here := script_teaser |}
             "script" [] ["teaser"] [Special Script "var x"] eq_refl).
  split; by vm_compute.
Defined.

Lemma matches_date_classes (d : located) :
  Soup.matches ".contributors, .credit, .byline, .submitted, .date" d = true ↔
  ∃ nm ats cls ch, here d = Tag nm ats cls ch ∧ ∃ k, k ∈ DATE_CLASSES ∧ k ∈ cls.
Proof.
  unfold Soup.matches.
  change (Soup.parse_selector ".contributors, .credit, .byline, .submitted, .date")
    with ((λ k, [Soup.Compound None [k]]) <$> DATE_CLASSES).
  rewrite existsb_exists. split.
  - intros (cx & Hcx & Hm). apply list_elem_of_In, list_elem_of_fmap in Hcx as (k & -> & Hk).
    unfold Soup.match_complex in Hm. cbn in Hm.
    destruct (here d) as [| |nm ats cls ch]; [done|done|].
    exists nm, ats, cls, ch. split; [done|]. exists k. split; [done|].
    cbn in Hm. rewrite !andb_true_r in Hm. by apply bool_decide_eq_true in Hm.
  - intros (nm & ats & cls & ch & Hd & k & Hk & Hin).
    exists [Soup.Compound None [k]]. split.
    + apply list_elem_of_In, list_elem_of_fmap. by exists k.
    + unfold Soup.match_complex. cbn. rewrite Hd. cbn.
      rewrite !andb_true_r. by apply bool_decide_eq_true.
Qed.

(** X7.  The raw date of a candidate is absent ([None]) exactly when the
    candidate contains no [time] element and no element carrying one of
    the classes [contributors], [credit], [byline], [submitted], [date].
    In particular a [time] element always gives a raw date, be it the
    empty string. *)
Theorem pubdate_of_absent_iff (a : located) :
  pubdate_of a = None ↔
  ∀ d nm ats cls ch, d ∈ Soup.descendants a → here d = Tag nm ats cls ch →
    nm ≠ "time" ∧ ∀ k, k ∈ DATE_CLASSES → k ∉ cls.
Proof.
  assert (pubdate_of a = None ↔
          Soup.find_all a "time" = [] ∧
          Soup.select a ".contributors, .credit, .byline, .submitted, .date" = []) as ->.
  { unfold pubdate_of, Soup.find, Soup.select_one.
    destruct (Soup.find_all a "time") as [|t l]; cbn [head].
    - destruct (Soup.select a _) as [|x l']; cbn [head]; split; try done.
      by intros [_ ?].
    - split; [|by intros [? _]].
      by destruct (Soup.get t "datetime") as [[|c v]|]. }
  unfold Soup.find_all, Soup.select, Soup.descendant_tags.
  rewrite !(filter_nil_iff _), !Forall_forall. split.
  - intros [Htime Hcls] d nm ats cls ch Hd Hhere. split.
    + intros ->. apply (Htime d Hd). by rewrite Hhere.
    + intros k Hk Hin. apply (Hcls d).
      * apply list_elem_of_filter. split; [by rewrite Hhere|done].
      * apply matches_date_classes. exists nm, ats, cls, ch. split; [done|]. by exists k.
  - intros H. split.
    + intros d Hd Hname. destruct (here d) as [| |nm ats cls ch] eqn:E; [done|done|].
      injection Hname as ->. by destruct (H d _ _ _ _ Hd E) as [? _].
    + intros d Hd Hm. apply list_elem_of_filter in Hd as [_ Hd].
      apply matches_date_classes in Hm as (nm & ats & cls & ch & E & k & Hk & Hin).
      destruct (H d _ _ _ _ Hd E) as [_ Hno]. by apply (Hno k).
Qed.

Section ExtractorMore.

Variable urljoin : string → string → res string.

Lemma extract_all_length (articles : list located) :
  length (extract_all urljoin articles) ≤ length articles.
Proof.
  rewrite extract_all_flat_map. induction articles as [|a l IH]; simpl; [done|].
  rewrite length_app. unfold emitted at 1.
  destruct (try_except _ _) as [[e|]|]; simpl; lia.
Qed.

(** X8.  When [urljoin] raises on the non-empty [href] of the chosen
    anchor, the body of the loop raises, the exception is caught, nothing
    is appended for this candidate, and the candidates before and after
    it are processed as if it were not there. *)
Theorem extractor_skips_candidate_when_urljoin_raises (a a_tag : located) (href : string)
    (before after : list located) :
  chosen_anchor a = Some a_tag →
  Soup.get a_tag "href" = Some href → href ≠ "" →
  urljoin BASE_URL href = Raised →
  candidate_body urljoin a = Raised ∧
  extract_step urljoin (extract_all urljoin before) a = extract_all urljoin before ∧
  extract_all urljoin (before ++ a :: after)
    = extract_all urljoin before ++ extract_all urljoin after.
Proof.
  intros Ha Hh Hne Hj.
  assert (candidate_body urljoin a = Raised) as Hb.
  { unfold candidate_body. rewrite Ha. cbn zeta. rewrite Hh.
    destruct href as [|c href]; [done|]. simpl. by rewrite Hj. }
  split; [done|]. split.
  - unfold extract_step. by rewrite Hb.
  - rewrite (extract_all_app urljoin before (a :: after)).
    change (a :: after) with ([a] ++ after). rewrite (extract_all_app urljoin [a] after).
    rewrite (extract_all_flat_map urljoin [a]). simpl. unfold emitted. by rewrite Hb.
Qed.

End ExtractorMore.

Lemma extractor_skips_candidate_when_urljoin_raises_witness :
  candidate_body bracket_urljoin bracket_article = Raised ∧
  extract_all bracket_urljoin [titled_article; bracket_article; titled_article]
  = extract_all bracket_urljoin [titled_article] ++ extract_all bracket_urljoin [titled_article].
Proof.
  destruct (extractor_skips_candidate_when_urljoin_raises bracket_urljoin bracket_article
              {| ancestors := [here bracket_article];
                 here := sample_anchor "//[x" [Text "Bad"] |}
              "//[x" [titled_article] [titled_article]) as (H1 & _ & H2);
    [by vm_compute | by vm_compute | done | by vm_compute |].
  split; [exact H1 | exact H2].
Defined.

(** ** The whole of [parse_articles] *)

Section Pipeline.

Variable urljoin : string → string → res string.

Lemma parse_soup_take (soup : located) :
  parse_soup urljoin soup
  = take MAX_ITEMS (first_occurrences (extract_all urljoin (select_articles soup))).
Proof. unfold parse_soup. apply dedupe_and_limit_take. unfold MAX_ITEMS. lia. Qed.

Lemma parse_soup_sublist (soup : located) :
  sublist (parse_soup urljoin soup) (extract_all urljoin (select_articles soup)).
Proof.
  rewrite parse_soup_take.
  etrans; [apply sublist_take|]. apply first_occurrences_from_sublist.
Qed.

Lemma parse_soup_NoDup (soup : located) : NoDup (link <$> parse_soup urljoin soup).
Proof. rewrite parse_soup_take. apply take_links_NoDup, first_occurrences_from_NoDup. Qed.

Lemma parse_soup_length (soup : located) : length (parse_soup urljoin soup) ≤ MAX_ITEMS.
Proof. rewrite parse_soup_take, length_take. lia. Qed.

Lemma parse_soup_inv (soup : located) (e : entry) :
  e ∈ parse_soup urljoin soup →
  ∃ c a_tag href, c ∈ Soup.find_all soup "article" ∧
    chosen_anchor c = Some a_tag ∧
    Soup.get a_tag "href" = Some href ∧ href ≠ "" ∧
    urljoin BASE_URL href = Ok (link e) ∧
    title e = title_of a_tag ∧ summary e = summary_of c ∧
    pubdate_raw e = pubdate_of c.
Proof.
  intros He.
  assert (e ∈ extract_all urljoin (select_articles soup)) as He'
    by (eapply elem_of_sublist; [exact He|apply parse_soup_sublist]).
  apply extract_all_inv in He' as (c & Hc & He').
  apply emitted_inv in He' as (a_tag & href & H).
  exists c, a_tag, href. split; [|exact H].
  eapply elem_of_sublist; [exact Hc|]. apply select_articles_sublist.
Qed.

Variable html_parser : string → res (list node).

(** X9.  When the parser rejects the page, [parse_articles] raises what
    the parser raised.  For every page that the parser accepts,
    [parse_articles] returns at most 40 records and no more records than
    the page has [article] elements; no two of them have the same link;
    they come in the order of their candidates; and each of them stems
    from an [article] element of the page whose chosen anchor has a
    non-empty [href], which [urljoin] resolved to the record's link, the
    other fields being those of that candidate. *)
Theorem parse_articles_invariants (html : string) :
  (html_parser html = Raised → parse_articles html_parser urljoin html = Raised) ∧
  (∀ top, html_parser html = Ok top →
     let soup := Soup.document top in
     ∃ out, parse_articles html_parser urljoin html = Ok out ∧
       out = dedupe_and_limit MAX_ITEMS (extract_all urljoin (select_articles soup)) ∧
       length out ≤ MAX_ITEMS ∧
       length out ≤ length (Soup.find_all soup "article") ∧
       NoDup (link <$> out) ∧
       sublist out (extract_all urljoin (select_articles soup)) ∧
       ∀ e, e ∈ out →
         ∃ c a_tag href, c ∈ Soup.find_all soup "article" ∧
           chosen_anchor c = Some a_tag ∧
           Soup.get a_tag "href" = Some href ∧ href ≠ "" ∧
           urljoin BASE_URL href = Ok (link e) ∧
           title e = title_of a_tag ∧ summary e = summary_of c ∧
           pubdate_raw e = pubdate_of c).
Proof.
  split; [apply parse_articles_raised|].
  intros top Htop soup. exists (parse_soup urljoin soup).
  split; [apply parse_articles_ok; by exists top|]. split; [done|].
  pose proof (parse_soup_sublist soup) as Hsub.
  split; [apply parse_soup_length|]. split; [|split; [|split; [done|]]].
  - etrans; [apply sublist_length, Hsub|].
    etrans; [apply extract_all_length|].
    apply sublist_length, select_articles_sublist.
  - apply parse_soup_NoDup.
  - apply parse_soup_inv.
Qed.

End Pipeline.

Lemma parse_articles_invariants_witness :
  parse_articles rejecting_parser sample_urljoin "<![x[" = Raised ∧
  ∃ out, parse_articles rejecting_parser sample_urljoin "page" = Ok out ∧
    length out ≤ 40 ∧ NoDup (link <$> out).
Proof.
  split.
  - by apply (parse_articles_invariants sample_urljoin rejecting_parser "<![x[").
  - destruct (parse_articles_invariants sample_urljoin rejecting_parser "page") as [_ H].
    destruct (H [here titled_article] eq_refl) as (out & Hout & _ & Hlen & _ & Hnd & _).
    exists out. by repeat split.
Defined.

(** ** Date normaliser: what is rendered *)

(** X10.  When the raw date parses, the datetime that is rendered is a
    calendar date that exists, with a time of day in range and an offset
    strictly between minus and plus 24 hours; the result is its rendering
    and does not depend on the clock. *)
Theorem normalize_pubdate_parsed_date (clock : datetime) (raw : string) (dt : datetime) :
  raw ≠ "" → parse_pubdate raw = Some dt →
  (1 ≤ year dt ≤ 9999 ∧ 1 ≤ month dt ≤ 12 ∧
   1 ≤ day dt ≤ Cal.days_in_month (year dt) (month dt) ∧
   0 ≤ hour dt ≤ 23 ∧ 0 ≤ minute dt ≤ 59 ∧ 0 ≤ second dt ≤ 59)%Z ∧
  (∃ off, tzinfo dt = Some off ∧ (-86400000000 < off < 86400000000)%Z) ∧
  normalize_pubdate clock (Some raw) = Ok (strftime dt RSS_DATE_FORMAT) ∧
  ∀ clock', normalize_pubdate clock' (Some raw) = normalize_pubdate clock (Some raw).
Proof.
  intros Hne Hp. destruct (parse_pubdate_valid raw dt Hp) as [Hv [off Hoff]].
  split; [|split; [|split]].
  - unfold valid_datetime, Cal.valid_date, Cal.valid_time in Hv.
    repeat (apply andb_true_iff in Hv as [Hv ?]). lia.
  - exists off. split; [done|].
    unfold valid_datetime in Hv. rewrite Hoff in Hv.
    apply andb_true_iff in Hv as [_ Hv]. unfold Cal.valid_offset in Hv.
    apply andb_true_iff in Hv as [? ?]. lia.
  - by apply normalize_pubdate_parsed.
  - intros clock'. by rewrite !(normalize_pubdate_parsed _ raw dt).
Qed.

Lemma normalize_pubdate_parsed_date_witness :
  normalize_pubdate (sample_clock 0) (Some " 5 March 2024 ")
  = Ok (strftime {| year := 2024; month := 3; day := 5; hour := 0; minute := 0;
                    second := 0; microsecond := 0; tzinfo := utc |} RSS_DATE_FORMAT).
Proof.
  apply (normalize_pubdate_parsed_date (sample_clock 0) " 5 March 2024 "); [done|].
  by vm_compute.
Defined.

Lemma drop_space_ascii (c : ascii) (s : string) :
  ascii_space c = true → PyStr.drop_space (String c s) = Some s.
Proof.
  unfold ascii_space. rewrite bool_decide_eq_true. intros Hc.
  repeat (apply elem_of_cons in Hc as [-> | Hc]); try (by apply elem_of_nil in Hc);
    by vm_compute.
Qed.

Lemma strip_ascii_blank (s : string) :
  all_chars ascii_space s = true → PyStr.strip s = "".
Proof.
  intros Hs. unfold PyStr.strip.
  assert (PyStr.lstrip s = "") as ->; [|done].
  unfold PyStr.lstrip. induction s as [|c s IH]; [done|].
  cbn [all_chars] in Hs. apply andb_true_iff in Hs as [Hc Hs].
  cbn [String.length PyStr.lstrip_go]. rewrite (drop_space_ascii c s Hc). by apply IH.
Qed.

(** X11.  A raw date that consists of ASCII whitespace only, or more
    generally one that [strip] leaves empty, parses under none of the
    nine patterns: the result is the rendering of the current UTC time. *)
Theorem normalize_pubdate_blank (clock : datetime) (raw : string) :
  all_chars ascii_space raw = true ∨ PyStr.strip raw = "" →
  PyStr.strip raw = "" ∧
  parse_pubdate raw = None ∧
  normalize_pubdate clock (Some raw) = Ok (strftime (now_utc clock) RSS_DATE_FORMAT).
Proof.
  intros H.
  assert (PyStr.strip raw = "") as Hs by (destruct H; [by apply strip_ascii_blank|done]).
  assert (parse_pubdate raw = None) as Hp.
  { unfold parse_pubdate. rewrite Hs. by vm_compute. }
  split; [done|]. split; [done|].
  apply normalize_pubdate_fallback. right. right. by exists raw.
Qed.

Lemma normalize_pubdate_blank_witness :
  normalize_pubdate (sample_clock 7) (Some (String " " (String "009" (String "010" ""))))
  = Ok "Wed, 04 Nov 2026 12:30:07 +0000".
Proof.
  destruct (normalize_pubdate_blank (sample_clock 7)
              (String " " (String "009" (String "010" "")))) as (_ & _ & ->);
    [left; by vm_compute | by vm_compute].
Defined.


Lemma date_char_plain (c : ascii) :
  date_char c = true → c ≠ "&"%char ∧ c ≠ "<"%char ∧ c ≠ ">"%char.
Proof. intros H. repeat split; intros ->; by vm_compute in H. Qed.

Lemma escape_cdata_date_chars (s : string) :
  all_chars date_char s = true → ET.escape_cdata s = s.
Proof.
  induction s as [|c s IH]; [done|]. cbn [all_chars].
  intros [Hc Hs]%andb_true_iff. rewrite escape_cdata_cons, (IH Hs).
  destruct (date_char_plain c Hc) as (? & ? & ?).
  by rewrite !decide_False by done.
Qed.

(** X12.  Whatever the input and the clock, [normalize_pubdate] returns
    a non-empty string made of digits, ASCII letters, spaces, commas,
    colons, signs and dots only; such a string is written into the feed
    as it is, no character of it being escaped. *)
Theorem normalize_pubdate_plain_text (clock : datetime) (raw : option string) :
  ∃ out, normalize_pubdate clock raw = Ok out ∧
    all_chars date_char out = true ∧
    ET.escape_cdata out = out ∧
    out ≠ "".
Proof.
  destruct (normalize_pubdate_never_raises clock raw) as (out & Hout & Hcase).
  exists out. split; [done|].
  assert (∃ dt, out = strftime dt RSS_DATE_FORMAT) as [dt ->].
  { destruct Hcase as [-> | (s & dt & _ & _ & ->)]; by eexists. }
  split; [apply date_chars_strftime_rss|].
  split; [apply escape_cdata_date_chars, date_chars_strftime_rss|].
  unfold RSS_DATE_FORMAT. cbn [strftime].
  destruct (Strftime.directive dt "a"); [|done].
  rewrite string_app_nil_l. done.
Qed.

Lemma match_zone_rest (s : ascii) (h m : Z) (rest : string) :
  Strptime.sign s = true → (0 ≤ h < 100)%Z → (0 ≤ m < 100)%Z →
  PyStr.first_some
    (λ p, Chars.match_seq p (String s (Chars.pad 2 h +:+ Chars.pad 2 m +:+ rest)))
    [[Strptime.sign; Chars.is_digit; Chars.is_digit; Chars.is_digit; Chars.is_digit]]
  = Some (String s (Chars.pad 2 h +:+ Chars.pad 2 m), rest).
Proof.
  intros Hs Hh Hm.
  destruct (pad2_digits h Hh) as (a & b & -> & Ha & Hb).
  destruct (pad2_digits m Hm) as (c & d & -> & Hc & Hd).
  repeat (rewrite ?string_app_cons, ?string_app_nil_l).
  cbn [PyStr.first_some Chars.match_seq]. by rewrite Hs, Ha, Hb, Hc, Hd.
Qed.

Lemma utcoffset_shape (off : Z) :
  Cal.valid_offset off = true →
  ∃ s h m tail,
    Strftime.format_utcoffset off = String s (Chars.pad 2 h +:+ Chars.pad 2 m +:+ tail)
    ∧ Strptime.sign s = true ∧ (0 ≤ h < 100)%Z ∧ (0 ≤ m < 100)%Z
    ∧ (tail = "" ↔ (off mod 60000000 = 0)%Z).
Proof.
  unfold Cal.valid_offset. rewrite andb_true_iff, !Z.ltb_lt. intros [Hlo Hhi].
  unfold Strftime.format_utcoffset.
  set (a := Z.abs off).
  assert (Ha : (0 ≤ a < 86400000000)%Z) by (unfold a; lia).
  assert (Hoa : (off = a ∨ off = - a)%Z) by (unfold a; lia).
  clearbody a.
  assert (Hmod : (off mod 60000000 = 0 ↔ a mod 1000000 = 0 ∧ (a / 1000000) mod 60 = 0)%Z).
  { destruct Hoa as [Hoa | Hoa]; rewrite Hoa; Z.div_mod_to_equations; lia. }
  assert (Hh : (0 ≤ a / 1000000 / 3600 < 100)%Z) by (Z.div_mod_to_equations; lia).
  assert (Hm : (0 ≤ (a / 1000000 / 60) mod 60 < 100)%Z) by (Z.div_mod_to_equations; lia).
  assert (Hsec : (0 ≤ (a / 1000000) mod 60 < 100)%Z) by (Z.div_mod_to_equations; lia).
  exists (if (off <? 0)%Z then "-"%char else "+"%char),
    (a / 1000000 / 3600)%Z, ((a / 1000000 / 60) mod 60)%Z.
  destruct (pad2_digits _ Hsec) as (d1 & d2 & Hpad & _).
  destruct (a mod 1000000 =? 0)%Z eqn:E1; cbn [negb].
  - apply Z.eqb_eq in E1.
    destruct ((a / 1000000) mod 60 =? 0)%Z eqn:E2; cbn [negb].
    + apply Z.eqb_eq in E2. exists "".
      split; [destruct (off <? 0)%Z; by rewrite string_app_nil_r|].
      split; [by destruct (off <? 0)%Z|]. split; [done|]. split; [done|].
      rewrite Hmod. tauto.
    + apply Z.eqb_neq in E2. exists (Chars.pad 2 ((a / 1000000) mod 60)).
      split; [by destruct (off <? 0)%Z|].
      split; [by destruct (off <? 0)%Z|]. split; [done|]. split; [done|].
      rewrite Hmod, Hpad. split; [done|tauto].
  - apply Z.eqb_neq in E1.
    exists (Chars.pad 2 ((a / 1000000) mod 60) +:+ "." +:+ Chars.pad 6 (a mod 1000000)).
    split; [by destruct (off <? 0)%Z|].
    split; [by destruct (off <? 0)%Z|]. split; [done|]. split; [done|].
    rewrite Hmod, Hpad. split; [done|tauto].
Qed.

Lemma rss_layout_zone (dt : datetime) (z : string) :
  valid_datetime dt = true → (1000 ≤ year dt)%Z →
  Layout.match_parts Layout.parts (strftime dt "%a, %d %b %Y %H:%M:%S " +:+ z)
  = Layout.match_parts
      [[[Strptime.sign; Chars.is_digit; Chars.is_digit; Chars.is_digit; Chars.is_digit]]] z.
Proof.
  intros Hv Hy. destruct (valid_datetime_fields dt Hv) as [Hf _].
  cbn [strftime].
  change (Strftime.directive dt "a") with
    (nth (Z.to_nat (Cal.weekday (year dt) (month dt) (day dt))) Strftime.a_weekday "").
  change (Strftime.directive dt "d") with (Chars.pad 2 (day dt)).
  change (Strftime.directive dt "b") with
    (nth (Z.to_nat (month dt - 1)) Strftime.a_month "").
  change (Strftime.directive dt "Y") with (Chars.dec (year dt)).
  change (Strftime.directive dt "H") with (Chars.pad 2 (hour dt)).
  change (Strftime.directive dt "M") with (Chars.pad 2 (minute dt)).
  change (Strftime.directive dt "S") with (Chars.pad 2 (second dt)).
  repeat (rewrite ?string_app_assoc, ?string_app_cons, ?string_app_nil_l).
  unfold Layout.parts.
  erewrite match_parts_step;
    [|apply match_weekday; unfold Cal.weekday;
      pose proof (Z.mod_pos_bound (Cal.ymd2ord (year dt) (month dt) (day dt) + 6) 7); lia].
  change (Layout.match_parts ([Layout.literal ", "] :: ?ps) (String "," (String " " ?x)))
    with (Layout.match_parts ps x).
  erewrite match_parts_step; [|apply match_two_digits; lia].
  change (Layout.match_parts ([Layout.literal " "] :: ?ps) (String " " ?x))
    with (Layout.match_parts ps x).
  erewrite match_parts_step; [|apply match_month; lia].
  change (Layout.match_parts ([Layout.literal " "] :: ?ps) (String " " ?x))
    with (Layout.match_parts ps x).
  erewrite match_parts_step; [|apply match_four_digits; lia].
  change (Layout.match_parts ([Layout.literal " "] :: ?ps) (String " " ?x))
    with (Layout.match_parts ps x).
  erewrite match_parts_step; [|apply match_two_digits; lia].
  change (Layout.match_parts ([Layout.literal ":"] :: ?ps) (String ":" ?x))
    with (Layout.match_parts ps x).
  erewrite match_parts_step; [|apply match_two_digits; lia].
  change (Layout.match_parts ([Layout.literal ":"] :: ?ps) (String ":" ?x))
    with (Layout.match_parts ps x).
  erewrite match_parts_step; [|apply match_two_digits; lia].
  change (Layout.match_parts ([Layout.literal " "] :: ?ps) (String " " ?x))
    with (Layout.match_parts ps x).
  reflexivity.
Qed.

(** X13.  The rendering of a valid datetime with a four-digit year is in
    the layout [Www, DD Mon YYYY HH:MM:SS +HHMM] exactly when its offset
    is a whole number of minutes: an offset with seconds or microseconds
    is printed with more than four digits. *)
Theorem rendered_date_layout_iff (dt : datetime) (off : Z) :
  valid_datetime dt = true → (1000 ≤ year dt)%Z → tzinfo dt = Some off →
  (Layout.is_rfc2822 (strftime dt RSS_DATE_FORMAT) = true ↔ (off mod 60000000 = 0)%Z).
Proof.
  intros Hv Hy Htz.
  destruct (valid_datetime_fields dt Hv) as [_ Hoff]. specialize (Hoff off Htz).
  destruct (utcoffset_shape off Hoff) as (s & h & m & tail & Hz & Hs & Hh & Hm & Htail).
  unfold Layout.is_rfc2822. rewrite bool_decide_eq_true.
  rewrite (strftime_rss_split dt off Htz), (rss_layout_zone dt _ Hv Hy), Hz.
  cbn [Layout.match_parts]. rewrite (match_zone_rest s h m tail Hs Hh Hm).
  rewrite <- Htail. split; congruence.
Qed.

Lemma rendered_date_layout_iff_witness :
  Layout.is_rfc2822
    (strftime {| year := 2024; month := 3; day := 5; hour := 10; minute := 0;
                 second := 0; microsecond := 0; tzinfo := Some 19800000000%Z |}
       RSS_DATE_FORMAT) = true.
Proof.
  apply (rendered_date_layout_iff _ 19800000000%Z); by vm_compute.
Defined.

(** ** Feed assembler: the tree that is written *)

Lemma or_empty_id (s : string) : or_empty s = s.
Proof. by destruct s. Qed.

Lemma feed_entries_tree (clock : nat → datetime) (items : list entry) :
  feed_entries (ET.Element "rss" [("version", "2.0")] None
    [ET.Element "channel" [] None (channel_head clock ++ item_elements clock 1 items)])
  = expected_entries clock 1 items.
Proof.
  unfold feed_entries, ET.find, ET.findall. cbn [ET.children_of].
  rewrite filter_cons_True by done. cbn [head ET.children_of].
  rewrite filter_app.
  replace (filter _ (channel_head clock)) with (@nil ET.element) by reflexivity.
  cbn [app]. generalize 1. induction items as [|it items IH]; intros k; [done|].
  cbn [item_elements]. rewrite filter_cons_True by done.
  rewrite fmap_cons, IH. cbn [expected_entries]. f_equal.
  unfold feed_entry_of, expected_entry, ET.findtext, ET.find, ET.findall.
  cbn. by rewrite or_empty_id.
Qed.

Lemma item_elements_tags (clock : nat → datetime) (items : list entry) : ∀ k,
  ET.tag_of <$> item_elements clock k items = replicate (length items) "item".
Proof. induction items as [|it items IH]; intros k; [done|]. cbn. by rewrite IH. Qed.

Lemma expected_entries_guids (clock : nat → datetime) (items : list entry) : ∀ k,
  entry_guid <$> expected_entries clock k items = Some <$> (link <$> items).
Proof. induction items as [|it items IH]; intros k; [done|]. cbn. by rewrite IH. Qed.

(** X14.  For every list of records, the empty one included, [build_rss]
    builds an [rss] element of version 2.0 with one [channel]: its
    children are [title], [link], [description], [lastBuildDate] and
    [ttl], with the fixed texts, the start URL and the rendering of the
    clock, followed by exactly one [item] per record, in the order of the
    records, each holding the record's title, its link as [link] and as
    [guid], its summary and its normalised date. *)
Theorem rss_tree_contents (clock : nat → datetime) (items : list entry) :
  ∃ channel,
    rss_tree clock items = Ok (ET.Element "rss" [("version", "2.0")] None [channel]) ∧
    ET.tag_of channel = "channel" ∧
    ET.tag_of <$> ET.children_of channel
      = ["title"; "link"; "description"; "lastBuildDate"; "ttl"]
        ++ replicate (length items) "item" ∧
    ET.findtext channel "title" = Some "CSIS — Analysis (custom RSS)" ∧
    ET.findtext channel "link" = Some START_URL ∧
    ET.findtext channel "description"
      = Some "Auto-generated RSS feed for CSIS Analysis pages." ∧
    ET.findtext channel "lastBuildDate"
      = Some (strftime (now_utc (clock 0)) RSS_DATE_FORMAT) ∧
    ET.findtext channel "ttl" = Some "60" ∧
    feed_entry_of <$> ET.findall channel "item" = expected_entries clock 1 items.
Proof.
  eexists. split; [apply rss_tree_eq|]. split; [done|]. split.
  { cbn [ET.children_of]. by rewrite fmap_app, item_elements_tags. }
  pose proof (feed_entries_tree clock items) as Hfeed.
  unfold feed_entries, ET.find, ET.findall in Hfeed. cbn [ET.children_of] in Hfeed.
  rewrite filter_cons_True in Hfeed by done. cbn [head] in Hfeed.
  repeat split; try exact Hfeed;
    unfold ET.findtext, ET.find, ET.findall; cbn [ET.children_of];
    rewrite filter_app; by cbn.
Qed.

(** A raw date written with the fullwidth digits U+FF10..U+FF19 parses,
    as [\d] and [int] take them; its year has fewer than four digits and
    [strftime] writes it without padding. *)
Lemma normalize_pubdate_fullwidth_digits :
  normalize_pubdate (sample_clock 0) (Some "０００５-01-01")
  = Ok "Sat, 01 Jan 5 00:00:00 +0000" ∧
  Layout.is_rfc2822 "Sat, 01 Jan 5 00:00:00 +0000" = false.
Proof. split; by vm_compute. Qed.

Lemma pubdate_text_layout (clock : nat → datetime) (k : nat) (it : entry) :
  valid_datetime (now_utc (clock k)) = true → (1000 ≤ year (clock k))%Z →
  (∀ s dt off, pubdate_raw it = Some s → parse_pubdate s = Some dt →
     tzinfo dt = Some off → (1000 ≤ year dt)%Z ∧ (off mod 60000000 = 0)%Z) →
  Layout.is_rfc2822 (pubdate_text clock k it) = true.
Proof.
  intros Hv Hy Hparsed. unfold pubdate_text.
  destruct (normalize_pubdate_never_raises (clock k) (pubdate_raw it))
    as (out & -> & [-> | (s & dt & Hraw & Hp & ->)]).
  - by apply (strftime_rss_layout _ 0%Z).
  - destruct (parse_pubdate_valid s dt Hp) as [Hvd [off Hoff]].
    destruct (Hparsed s dt off Hraw Hp Hoff) as [? ?].
    by apply (strftime_rss_layout _ off).
Qed.

(** X15.  When the clock readings are valid dates with a four-digit
    year, and every raw date that parses gives a four-digit year and an
    offset of whole minutes, every date of the feed that [build_rss]
    builds, the [lastBuildDate] of the channel and the [pubDate] of each
    item, is in the layout [Www, DD Mon YYYY HH:MM:SS +HHMM]. *)
Theorem feed_dates_rfc2822 (clock : nat → datetime) (items : list entry) :
  (∀ k, k ≤ length items →
     valid_datetime (now_utc (clock k)) = true ∧ (1000 ≤ year (clock k))%Z) →
  (∀ it s dt off, it ∈ items → pubdate_raw it = Some s → parse_pubdate s = Some dt →
     tzinfo dt = Some off → (1000 ≤ year dt)%Z ∧ (off mod 60000000 = 0)%Z) →
  ∃ rss channel stamp,
    rss_tree clock items = Ok rss ∧
    ET.find rss "channel" = Some channel ∧
    ET.findtext channel "lastBuildDate" = Some stamp ∧
    Layout.is_rfc2822 stamp = true ∧
    Forall (λ e, ∃ d, entry_pubDate e = Some d ∧ Layout.is_rfc2822 d = true)
      (feed_entries rss).
Proof.
  intros Hclock Hitems.
  eexists _, _, _. split; [apply rss_tree_eq|]. split; [done|]. split.
  { unfold ET.findtext, ET.find, ET.findall; cbn [ET.children_of].
    rewrite filter_app. by cbn. }
  split.
  { destruct (Hclock 0) as [? ?]; [lia|]. by apply (strftime_rss_layout _ 0%Z). }
  rewrite feed_entries_tree.
  assert (∀ its k, (∀ it, it ∈ its → it ∈ items) →
            (∀ j, k ≤ j < k + length its → j ≤ length items) →
            Forall (λ e, ∃ d, entry_pubDate e = Some d ∧ Layout.is_rfc2822 d = true)
              (expected_entries clock k its)) as H.
  { induction its as [|it its IH]; intros k Hsub Hk; [constructor|].
    cbn [expected_entries]. constructor.
    - eexists. split; [done|].
      destruct (Hclock k) as [? ?]; [apply Hk; simpl; lia|].
      apply pubdate_text_layout; [done|done|].
      intros s dt off. apply Hitems, Hsub. left.
    - apply IH; [intros x Hx; apply Hsub; by right|].
      intros j Hj. apply Hk. simpl. lia. }
  apply H; [done|]. intros j Hj. lia.
Qed.

Lemma feed_dates_rfc2822_witness :
  ∃ rss channel stamp,
    rss_tree sample_clock sample_items = Ok rss ∧
    ET.find rss "channel" = Some channel ∧
    ET.findtext channel "lastBuildDate" = Some stamp ∧
    Layout.is_rfc2822 stamp = true ∧
    Forall (λ e, ∃ d, entry_pubDate e = Some d ∧ Layout.is_rfc2822 d = true)
      (feed_entries rss).
Proof.
  apply (feed_dates_rfc2822 sample_clock sample_items).
  - intros k Hk. simpl in Hk.
    assert (k = 0 ∨ k = 1 ∨ k = 2) as [-> | [-> | ->]] by lia; by vm_compute.
  - intros it s dt off Hit Hraw Hp Hoff.
    apply elem_of_cons in Hit as [-> | Hit].
    + simpl in Hraw. injection Hraw as <-. vm_compute in Hp. injection Hp as <-.
      simpl in Hoff. injection Hoff as <-. by vm_compute.
    + apply list_elem_of_singleton in Hit as ->. done.
Defined.

(** X16.  A well-formed tree (names of ASCII letters, digits, [_], [-]
    and [.] that start with a letter or [_]; no attribute named [xmlns]
    and none twice; attribute values of printable ASCII; text of
    characters that XML carries unchanged) that [ET.tostring] serialises
    after the XML declaration is read back as the same tree (an empty
    text being read as no text), and two well-formed trees with the same
    serialisation are read back as the same tree. *)
Theorem tostring_read_back (r1 r2 : ET.element) :
  wf_element r1 → wf_element r2 →
  Xml.parse (XML_DECLARATION +:+ ET.tostring r1) = Some (canon r1) ∧
  (ET.tostring r1 = ET.tostring r2 → canon r1 = canon r2).
Proof.
  intros H1 H2. split; [by apply parse_document|].
  intros E. pose proof (parse_document r1 H1) as P1.
  pose proof (parse_document r2 H2) as P2. rewrite E in P1. congruence.
Qed.

Lemma tostring_read_back_witness :
  Xml.parse (XML_DECLARATION +:+ ET.tostring
    (ET.Element "rss" [("version", "2.0")] None
       [ET.Element "channel" [] None [ET.sub_text "title" "a < b & c"; ET.sub_text "ttl" ""]]))
  = Some (ET.Element "rss" [("version", "2.0")] None
       [ET.Element "channel" [] None
          [ET.Element "title" [] (Some "a < b & c") []; ET.Element "ttl" [] None []]]).
Proof.
  destruct (tostring_read_back
    (ET.Element "rss" [("version", "2.0")] None
       [ET.Element "channel" [] None [ET.sub_text "title" "a < b & c"; ET.sub_text "ttl" ""]])
    (ET.sub_text "ttl" "")) as [H _]; [repeat constructor; set_solver | repeat constructor |].
  rewrite H. reflexivity.
Defined.

(** ** The whole run *)

Section DriverMore.

Variable fetch_html : string → fetched.
Variable html_parser : string → res (list node).
Variable urljoin : string → string → res string.
Variable clock : nat → datetime.

(** X17.  When the page is fetched, the parser accepts it, and none of
    its [article] elements contains an [a] element (in particular when it
    has no [article] element at all), no record is extracted, and the run
    prints [No items found. Exiting.], writes nothing and ends with
    status 1. *)
Theorem main_page_without_anchors (html : string) (top : list node) :
  fetch_html START_URL = FetchReturned html →
  html_parser html = Ok top →
  (∀ c, c ∈ Soup.find_all (Soup.document top) "article" → Soup.find_all c "a" = []) →
  parse_articles html_parser urljoin html = Ok [] ∧
  main fetch_html html_parser urljoin clock
  = {| stdout := ["No items found. Exiting."]; written := None; exit_status := 1 |}.
Proof.
  intros Hf Htop Hnone.
  assert (parse_articles html_parser urljoin html = Ok []) as Hnil.
  { apply parse_articles_ok. exists top. split; [done|].
    destruct (parse_soup urljoin (Soup.document top)) as [|e l] eqn:E; [done|].
    exfalso.
    destruct (parse_soup_inv urljoin (Soup.document top) e) as (c & a_tag & href & Hc & Ha & _).
    { rewrite E. left. }
    rewrite chosen_anchor_none in Ha; [done|]. by apply Hnone. }
  split; [done|]. by apply (main_no_items _ _ _ _ html).
Qed.

(** X18.  When the page is fetched, at least one record is extracted and
    the titles, links and summaries of the records hold only characters
    that XML carries unchanged (tab, line feed and the characters from
    U+0020 on other than U+FFFE and U+FFFF), the file that the run writes
    is a document that reads back as the extracted records, in order:
    between 1 and 40 entries, no two with the same [guid], each [guid]
    equal to the entry's [link]. *)
Theorem main_written_feed (html : string) (items : list entry) :
  fetch_html START_URL = FetchReturned html →
  parse_articles html_parser urljoin html = Ok items →
  items ≠ [] →
  Forall (λ it, entry_xml_safe it = true) items →
  ∃ bytes root,
    written (main fetch_html html_parser urljoin clock) = Some bytes ∧
    Xml.parse bytes = Some root ∧
    feed_entries root = expected_entries clock 1 items ∧
    1 ≤ length (feed_entries root) ≤ MAX_ITEMS ∧
    NoDup (entry_guid <$> feed_entries root) ∧
    entry_guid <$> feed_entries root = entry_link <$> feed_entries root.
Proof.
  intros Hf Hitems Hne Hsafe.
  pose proof Hitems as Hsoup. apply parse_articles_ok in Hsoup as (top & _ & Hsoup).
  assert (NoDup (link <$> items)) as Hnd by (rewrite Hsoup; apply parse_soup_NoDup).
  assert (length items ≤ MAX_ITEMS) as Hlen by (rewrite Hsoup; apply parse_soup_length).
  clear Hsoup.
  exists (XML_DECLARATION +:+ ET.tostring
            (ET.Element "rss" [("version", "2.0")] None
               [ET.Element "channel" [] None
                  (channel_head clock ++ item_elements clock 1 items)])).
  eexists. split; [|split; [apply parse_document, wf_rss, Hsafe|]].
  - by rewrite (main_success _ _ _ _ html items Hf Hitems Hne).
  - rewrite feed_entries_rss. split; [done|].
    rewrite expected_entries_length, expected_entries_guids.
    split; [|split].
    + split; [|done]. destruct items; [done|simpl; lia].
    + apply (NoDup_fmap_2 _), Hnd.
    + clear. generalize 1. induction items as [|it its IH]; intros k; [done|].
      cbn. by rewrite <- IH.
Qed.

End DriverMore.

Lemma main_page_without_anchors_witness :
  main (λ _, FetchReturned "page") (λ _, Ok [here anchorless_article]) sample_urljoin
    sample_clock
  = {| stdout := ["No items found. Exiting."]; written := None; exit_status := 1 |}.
Proof.
  apply (main_page_without_anchors _ _ _ _ "page" [here anchorless_article]); [done|done|].
  intros c Hc. vm_compute in Hc. apply list_elem_of_singleton in Hc as ->.
  by vm_compute.
Defined.

Lemma main_written_feed_witness :
  ∃ bytes root,
    written (main (λ _, FetchReturned "page") sample_parser sample_urljoin sample_clock)
      = Some bytes ∧
    Xml.parse bytes = Some root ∧
    feed_entries root
    = [{| entry_title := Some "One";
          entry_link := Some "https://www.csis.org/analysis/one";
          entry_guid := Some "https://www.csis.org/analysis/one";
          entry_description := Some "";
          entry_pubDate := Some "Wed, 04 Nov 2026 12:30:01 +0000" |}].
Proof.
  destruct (main_written_feed (λ _, FetchReturned "page") sample_parser sample_urljoin
              sample_clock "page"
              [{| title := "One"; link := "https://www.csis.org/analysis/one";
                  summary := ""; pubdate_raw := None |}])
    as (bytes & root & Hw & Hp & Hf & _).
  - done.
  - by vm_compute.
  - done.
  - repeat constructor.
  - exists bytes, root. split; [done|]. split; [done|]. rewrite Hf. by vm_compute.
Defined.
